(** * Cloud-Quarkus-Benchmarker: runner, reconcilers, build cache

    A shallow embedding of [benchmarker.py] and of the provider classes
    [serverlessbench/aws.py], [serverlessbench/azure.py] and
    [serverlessbench/gcp.py].

    Conventions of the embedding:
    - Python [str] is [string]; a dictionary keyed by request id is a
      [gmap (option string) _], the key [None] being Python's [None] (what
      [headers.get] returns for an absent header);
    - an exception is a value of [exn]; code that may raise returns a
      [result];
    - the outside world (HTTP responses, provider log queries, the build)
      is an explicit argument: a list of outcomes consumed in order, or a
      function from the attempt number to what that attempt returns;
    - what the code logs, sleeps or asks the provider is recorded, in
      order, in a list of [event]s;
    - floats are idealised as rationals ([Q]); the builtins [float] and
      [json.loads] are parameters of the sections that call them. *)

From Stdlib Require Import ZArith QArith String Ascii List Bool Lia.
From Stdlib Require Import DecimalString DecimalZ.
From stdpp Require Import base option gmap sets list strings fin_maps.

(* stdpp's set_solver clears hypotheses by name, some of which are gone. *)
#[local] Set Warnings "-clear-no-such-hyp".

Import ListNotations.
Local Open Scope string_scope.
Local Open Scope Z_scope.
Local Open Scope list_scope.

(** ** Python values, exceptions and builtins *)

Module Py.

Inductive exn : Type :=
| KeyError (key : option string)
| IndexError
| ValueError
| TypeError
| AttributeError (attr : string)
| SystemExit (code : Z).

Inductive result (A : Type) : Type :=
| Ok (a : A)
| Raise (e : exn).
Arguments Ok {A} a.
Arguments Raise {A} e.

Definition bind {A B : Type} (r : result A) (k : A → result B) : result B :=
  match r with
  | Ok a => k a
  | Raise e => Raise e
  end.

#[global] Instance result_bind : MBind result := λ A B k r, bind r k.
#[global] Instance result_ret : MRet result := @Ok.
#[global] Instance result_fmap : FMap result :=
  λ A B f r, match r with Ok a => Ok (f a) | Raise e => Raise e end.

Definition is_ok {A : Type} (r : result A) : bool :=
  match r with Ok _ => true | Raise _ => false end.

(** [json] values as [json.loads] produces them. *)
Unset Elimination Schemes.
Inductive JSON : Type :=
| JNull
| JBool (b : bool)
| JNum (q : Q)
| JStr (s : string)
| JList (l : list JSON)
| JDict (kvs : list (string * JSON)).
Set Elimination Schemes.

(** Truth value of a JSON value, as [not v] / [if v] read it. *)
Definition truthy (v : JSON) : bool :=
  match v with
  | JNull => false
  | JBool b => b
  | JNum q => negb (Qeq_bool q 0)
  | JStr s => negb (String.eqb s "")
  | JList l => match l with [] => false | _ => true end
  | JDict kvs => match kvs with [] => false | _ => true end
  end.

Fixpoint assoc (k : string) (kvs : list (string * JSON)) : option JSON :=
  match kvs with
  | [] => None
  | (k', v) :: rest => if String.eqb k k' then Some v else assoc k rest
  end.

(** [v.get(k)]: only a dict has the method; the result is [None] (here
    [JNull]) for an absent key. *)
Definition get (v : JSON) (k : string) : result JSON :=
  match v with
  | JDict kvs => Ok (default JNull (assoc k kvs))
  | _ => Raise (AttributeError "get")
  end.

(** [s.split(sep)] for a one-character separator: never an empty list. *)
Fixpoint split (sep : ascii) (s : string) : list string :=
  match s with
  | EmptyString => [EmptyString]
  | String c rest =>
      if Ascii.eqb c sep then EmptyString :: split sep rest
      else match split sep rest with
           | w :: ws => String c w :: ws
           | [] => [String c EmptyString]
           end
  end.

(** [s.isascii()]: every character is below 128. A string of the model
    stands for ASCII text; on such text the functions below that look at
    white space or read a numeral are Python's. Python also knows white
    space and digits beyond ASCII (U+0085, U+00A0 and others), which are
    ordinary characters here, so a statement that depends on a character
    being no white space or on a string being no numeral is made for ASCII
    text. *)
Definition isascii (s : string) : bool :=
  forallb (λ c, (nat_of_ascii c <? 128)%nat) (list_ascii_of_string s).

(** Characters for which [str.isspace] holds, among the ASCII ones: the
    white space of [str.isspace], [str.split()] and [str.strip()]. *)
Definition space_char (c : ascii) : bool :=
  let n := nat_of_ascii c in
  ((9 <=? n) && (n <=? 13) || (28 <=? n) && (n <=? 32))%nat.

Fixpoint all_space (s : string) : bool :=
  match s with
  | EmptyString => true
  | String c rest => space_char c && all_space rest
  end.

(** [s.isspace()]: at least one character, and all of them white space. *)
Definition isspace (s : string) : bool :=
  match s with
  | EmptyString => false
  | _ => all_space s
  end.

(** [s.split()]: the maximal runs of characters that are not white space. *)
Fixpoint split_ws (s : string) : list string :=
  match s with
  | EmptyString => []
  | String c rest =>
      if space_char c then split_ws rest
      else match rest with
           | EmptyString => [String c EmptyString]
           | String c' _ =>
               if space_char c' then String c EmptyString :: split_ws rest
               else match split_ws rest with
                    | w :: ws => String c w :: ws
                    | [] => [String c EmptyString]
                    end
           end
  end.

(** [s.rstrip(ch)] for a one-character argument. *)
Fixpoint rstrip (ch : ascii) (s : string) : string :=
  match s with
  | EmptyString => EmptyString
  | String c rest =>
      match rstrip ch rest with
      | EmptyString => if Ascii.eqb c ch then EmptyString else String c EmptyString
      | r => String c r
      end
  end.

(** [l[0]], [l[1]] and [l[-1]]. *)
Definition index0 {A : Type} (l : list A) : result A :=
  match l with
  | x :: _ => Ok x
  | [] => Raise IndexError
  end.

Definition index1 {A : Type} (l : list A) : result A :=
  match l with
  | _ :: x :: _ => Ok x
  | _ => Raise IndexError
  end.

Definition index_last {A : Type} (l : list A) : result A :=
  match List.last (List.map Some l) None with
  | Some x => Ok x
  | None => Raise IndexError
  end.

(** [str(n)] *)
Definition str (n : Z) : string := NilZero.string_of_int (Z.to_int n).

(** [int(s)] for ASCII text: white space is passed over at both ends (the
    characters 9 to 13 and the blank; unlike [str.strip], not 28 to 31), one
    sign [+] or [-] may come first, and the rest has to be decimal digits,
    where a single underscore may stand between two digits. Anything else
    raises [ValueError]. *)
Definition int_space (c : ascii) : bool :=
  let n := nat_of_ascii c in
  ((9 <=? n) && (n <=? 13) || (n =? 32))%nat.

Definition is_digit (c : ascii) : bool :=
  let n := nat_of_ascii c in
  ((48 <=? n) && (n <=? 57))%nat.

Fixpoint int_lstrip (s : string) : string :=
  match s with
  | EmptyString => EmptyString
  | String c rest => if int_space c then int_lstrip rest else s
  end.

Fixpoint int_rstrip (s : string) : string :=
  match s with
  | EmptyString => EmptyString
  | String c rest =>
      match int_rstrip rest with
      | EmptyString => if int_space c then EmptyString else String c EmptyString
      | r => String c r
      end
  end.

(** The digits of a numeral, its underscores left out; [None] when there
    is no digit, when another character occurs, or when an underscore does
    not stand between two digits. *)
Fixpoint numeral_digits (s : string) : option string :=
  match s with
  | EmptyString => None
  | String c rest =>
      if is_digit c then
        match rest with
        | EmptyString => Some (String c EmptyString)
        | String c' rest' =>
            if Ascii.eqb c' "_" then option_map (String c) (numeral_digits rest')
            else option_map (String c) (numeral_digits rest)
        end
      else None
  end.

Definition int (s : string) : result Z :=
  let t := int_rstrip (int_lstrip s) in
  let signed :=
    match t with
    | String c rest =>
        if Ascii.eqb c "-" then (true, rest)
        else if Ascii.eqb c "+" then (false, rest)
        else (false, t)
    | EmptyString => (false, t)
    end in
  match numeral_digits signed.2 ≫= NilEmpty.uint_of_string with
  | Some d => Ok (if signed.1 then - Z.of_uint d else Z.of_uint d)
  | None => Raise ValueError
  end.

(** [os.path.join(a, b)] on POSIX. *)
Definition endswith (ch : ascii) (s : string) : bool :=
  match List.last (List.map Some (list_ascii_of_string s)) None with
  | Some c => Ascii.eqb c ch
  | None => false
  end.

Definition startswith (ch : ascii) (s : string) : bool :=
  match s with
  | String c _ => Ascii.eqb c ch
  | EmptyString => false
  end.

Definition path_join (a b : string) : string :=
  if startswith "/" b then b
  else if String.eqb a "" || endswith "/" a then a ++ b
  else a ++ "/" ++ b.

(** Does the character occur in the string ([ch in s])? *)
Fixpoint contains (ch : ascii) (s : string) : bool :=
  match s with
  | EmptyString => false
  | String c rest => Ascii.eqb c ch || contains ch rest
  end.

(** [sep.join(l)] *)
Fixpoint join (sep : string) (l : list string) : string :=
  match l with
  | [] => EmptyString
  | x :: rest =>
      match rest with
      | [] => x
      | _ => x ++ sep ++ join sep rest
      end
  end.

(** [s.startswith(p)] and [s.endswith(p)] for a string argument. *)
Definition startswith_str (p s : string) : bool := String.prefix p s.

Definition endswith_str (p s : string) : bool :=
  (String.length p <=? String.length s)%nat
  && String.eqb (substring (String.length s - String.length p) (String.length p) s) p.

(** [s.split(sep, 1)] for a one-character separator: at most one cut. *)
Fixpoint split1 (sep : ascii) (s : string) : list string :=
  match s with
  | EmptyString => [EmptyString]
  | String c rest =>
      if Ascii.eqb c sep then [EmptyString; rest]
      else match split1 sep rest with
           | w :: ws => String c w :: ws
           | [] => [String c EmptyString]
           end
  end.

(** [s.strip()]: white space removed at both ends. *)
Fixpoint lstrip_ws (s : string) : string :=
  match s with
  | EmptyString => EmptyString
  | String c rest => if space_char c then lstrip_ws rest else s
  end.

Fixpoint rstrip_ws (s : string) : string :=
  match s with
  | EmptyString => EmptyString
  | String c rest =>
      match rstrip_ws rest with
      | EmptyString => if space_char c then EmptyString else String c EmptyString
      | r => String c r
      end
  end.

Definition strip (s : string) : string := rstrip_ws (lstrip_ws s).

(** [s[:-1]] *)
Fixpoint drop_last (s : string) : string :=
  match s with
  | EmptyString => EmptyString
  | String c rest =>
      match rest with
      | EmptyString => EmptyString
      | _ => String c (drop_last rest)
      end
  end.

(** [s.replace(old, new)] for a non-empty [old]: the occurrences are taken
    from the left and do not overlap; [skip] counts the characters of an
    occurrence still to be passed over. *)
Fixpoint replace_from (old new : string) (skip : nat) (s : string) : string :=
  match s with
  | EmptyString => EmptyString
  | String c rest =>
      match skip with
      | S k => replace_from old new k rest
      | O =>
          if String.prefix old s
          then new ++ replace_from old new (String.length old - 1) rest
          else String c (replace_from old new 0 rest)
      end
  end.

Definition replace (old new s : string) : string := replace_from old new 0 s.

(** [f"{n:02}"] for an integer: zeros in front up to two characters, a
    sign counting as one. *)
Definition format_02 (n : Z) : string :=
  let s := str n in
  if (String.length s <? 2)%nat then "0" ++ s else s.

(** The double quote character. *)
Definition dquote : string := String "034" EmptyString.

(** [v[k]] for a string key. *)
Definition getitem_json (v : JSON) (k : string) : result JSON :=
  match v with
  | JDict kvs =>
      match assoc k kvs with
      | Some x => Ok x
      | None => Raise (KeyError (Some k))
      end
  | _ => Raise TypeError
  end.

(** [v == s] for a string [s]. *)
Definition eq_str (v : JSON) (s : string) : bool :=
  match v with
  | JStr x => String.eqb x s
  | _ => false
  end.

(** [for x in v]: the elements of a list, the keys of a dict, the
    characters of a string. *)
Definition iter (v : JSON) : result (list JSON) :=
  match v with
  | JList l => Ok l
  | JDict kvs => Ok (JStr <$> kvs.*1)
  | JStr s => Ok ((λ c, JStr (String c EmptyString)) <$> list_ascii_of_string s)
  | _ => Raise TypeError
  end.

(** [d[k] = v] on a dict in insertion order: an existing key keeps its
    place. *)
Fixpoint setitem (k : string) (v : JSON) (kvs : list (string * JSON))
  : list (string * JSON) :=
  match kvs with
  | [] => [(k, v)]
  | (k', v') :: rest =>
      if String.eqb k k' then (k', v) :: rest else (k', v') :: setitem k v rest
  end.

(** [l[-n]] for [n = 1, 2, ...] *)
Definition index_from_end {A : Type} (n : nat) (l : list A) : result A :=
  match nth_error (List.rev l) (Nat.pred n) with
  | Some x => Ok x
  | None => Raise IndexError
  end.

End Py.

Import Py.

(** What the code does to the outside world, in order. *)
Inductive event : Type :=
| EvSleep (seconds : Z)
| EvEnforceColdStart
| EvInvoke
| EvQuery
| EvLogInfoFound (found total : nat)
| EvLogInfoMissing (ids : gset (option string))
| EvLogWarning (missing : nat) (retries : nat)
| EvLogError (msg : string).

(** ** The invocation record

    [FunctionInvocationResult] of benchmarker.py; the runner stores its
    JSON form (a dict with the same six keys) under the request id, and the
    reconcilers assign its ["provider_time"] key. *)

Record FunctionInvocationResult : Type := mkResult {
  request_id : option string;
  provider_time : option Q;          (* None: "Will be set later" *)
  client_begin : Z;
  client_end : Z;
  client_time : Q;
  response_body : JSON
}.

(** [record["provider_time"] = t] *)
Definition set_provider_time (t : Q) (r : FunctionInvocationResult) : FunctionInvocationResult :=
  {| request_id := request_id r;
     provider_time := Some t;
     client_begin := client_begin r;
     client_end := client_end r;
     client_time := client_time r;
     response_body := response_body r |}.

(** [len(requests.keys())] *)
Definition len (requests : gmap (option string) FunctionInvocationResult) : nat :=
  size requests.

(** ** The build cache and the gate in [deploy] *)

Module BuildCache.

(** Modelled from the spec: the entry that [find_cache] of
    serverlessbench/utils.py returns (the module is not among the sources);
    the persisted state maps (provider, benchmark, native) to the source
    hash and the artifact hash of the last build. *)
Record cache_entry : Type := mkEntry { src_hash : string; target_hash : string }.

(** Modelled from the spec: [find_cache] of serverlessbench/utils.py, the
    entry stored for the key, [None] when there is none. *)
Definition find_cache (provider benchmark_name : string) (native : bool)
    (cache : gmap (string * string * bool) cache_entry) : option cache_entry :=
  cache !! (provider, benchmark_name, native).

(** Modelled from the spec: [update_cache] of serverlessbench/utils.py,
    which records the two hashes under the key. *)
Definition update_cache (provider benchmark_name : string) (native : bool)
    (src target : string) (cache : gmap (string * string * bool) cache_entry)
  : gmap (string * string * bool) cache_entry :=
  <[(provider, benchmark_name, native) := mkEntry src target]> cache.

Section Deploy.

(** The file system, the directory hash of serverlessbench/utils.py,
    [os.path.exists], and the effect of the provider's [build] (the Maven
    run) for a benchmark and a profile. *)
Variable FS : Type.
Variable compute_directory_hash : FS → string → string.
Variable path_exists : FS → string → bool.
Variable build : string → bool → FS → FS.

(** [not cache or cache['src_hash'] != src_hash or cache['target_hash'] !=
    target_hash]; the current [target_hash] is [None] when the directory
    does not exist. *)
Definition must_build (cache : option cache_entry) (src : string)
    (target : option string) : bool :=
  match cache with
  | None => true
  | Some e =>
      negb (String.eqb (src_hash e) src)
      || negb (bool_decide (Some (target_hash e) = target))
  end.

Record deploy_state : Type := mkDeploy {
  fs : FS;
  cache : gmap (string * string * bool) cache_entry;
  built : bool
}.

(** Lines 39-49 of [AWS.deploy] and of [GCP.deploy] (32-42 of
    [Azure.deploy]), which differ in the provider name only. *)
Definition deploy_build (provider benchmark_name submodule_path : string) (native : bool)
    (fs0 : FS) (cache0 : gmap (string * string * bool) cache_entry) : deploy_state :=
  let src := compute_directory_hash fs0 (path_join submodule_path "src") in
  let target :=
    if path_exists fs0 (path_join submodule_path "target")
    then Some (compute_directory_hash fs0 (path_join submodule_path "target"))
    else None in
  let cached := find_cache provider benchmark_name native cache0 in
  if must_build cached src target then
    let fs1 := build benchmark_name native fs0 in
    let target' := compute_directory_hash fs1 (path_join submodule_path "target") in
    mkDeploy fs1 (update_cache provider benchmark_name native src target' cache0) true
  else mkDeploy fs0 cache0 false.

End Deploy.

Arguments mkDeploy {FS} fs cache built.
Arguments fs {FS} d.
Arguments cache {FS} d.
Arguments built {FS} d.
Arguments deploy_build {FS} compute_directory_hash path_exists build
  provider benchmark_name submodule_path native fs0 cache0.

End BuildCache.

(** The name of the configuration value that the cold-start enforcement
    increments. *)
Definition cold_start_var : string := "cold_start_var".

(** ** AWS: CloudWatch REPORT lines *)

Module AWS.

(** [enforce_cold_start]: [env_vars] is [Environment.Variables] of the
    function, as [get-function-configuration] reports it; the result is what
    [update-function-configuration] stores. *)
Definition enforce_cold_start (env_vars : gmap string string)
  : result (gmap string string) :=
  current_value ← int (default "0" (env_vars !! cold_start_var));
  let new_value := current_value + 1 in
  Ok (<[cold_start_var := str new_value]> env_vars).

(** One field of a CloudWatch Logs Insights result row. *)
Record result_part : Type := mkPart { field : string; value : string }.

(** What [parse_aws_report] receives as [requests]: annotated
    [Union[dict, Dict[str, dict]]]. [ReqDict] is a [dict]; [ReqMapping] stands
    for a mapping that is not a [dict] instance, from a request id to a
    dictionary of records, the only shape on which the [else] branch makes
    sense. *)
Inductive requests_arg : Type :=
| ReqDict (requests : gmap (option string) FunctionInvocationResult)
| ReqMapping (m : gmap (option string) (gmap (option string) FunctionInvocationResult)).

Definition isinstance_dict (a : requests_arg) : bool :=
  match a with ReqDict _ => true | ReqMapping _ => false end.

Section Reconciler.

(** Python's builtin [float] applied to a [str]. *)
Variable float : string → result Q.

(** The loop of [parse_aws_report] that fills [aws_vals]. *)
Fixpoint parse_lines (lines : list string) (aws_vals : gmap string string)
  : result (gmap string string) :=
  match lines with
  | [] => Ok aws_vals
  | line :: rest =>
      if isspace line then parse_lines rest aws_vals
      else
        let split := Py.split ":" line in
        k ← index0 split;
        v ← index1 split;
        w ← index0 (split_ws v);
        parse_lines rest (<[k := w]> aws_vals)
  end.

Definition parse_aws_vals (log : string) : result (gmap string string) :=
  parse_lines (Py.split "009" log) ∅.

Definition getitem (aws_vals : gmap string string) (k : string) : result string :=
  match aws_vals !! k with
  | Some v => Ok v
  | None => Raise (KeyError (Some k))
  end.

Definition report_request_id (aws_vals : gmap string string) : result string :=
  match aws_vals !! "START RequestId" with
  | Some r => Ok r
  | None => getitem aws_vals "REPORT RequestId"
  end.

(** [output[request_id]["provider_time"] = float(aws_vals["Duration"]) / 1000]:
    the right-hand side is evaluated first, then [output[request_id]]. *)
Definition assign_provider_time (aws_vals : gmap string string) (rid : string)
    (output : gmap (option string) FunctionInvocationResult)
  : result (gmap (option string) FunctionInvocationResult) :=
  d ← getitem aws_vals "Duration";
  t ← float d;
  match output !! Some rid with
  | Some r => Ok (<[Some rid := set_provider_time (t / 1000)%Q r]> output)
  | None => Raise (KeyError (Some rid))
  end.

(** Returns the request id together with the argument as the call leaves
    it (the assignment is in place). *)
Definition parse_aws_report (log : string) (requests : requests_arg)
  : result (string * requests_arg) :=
  aws_vals ← parse_aws_vals log;
  rid ← report_request_id aws_vals;
  match requests with
  | ReqDict d =>
      output ← assign_provider_time aws_vals rid d;
      Ok (rid, ReqDict output)
  | ReqMapping m =>
      match m !! Some rid with
      | None => Ok (rid, ReqMapping m)
      | Some inner =>
          output ← assign_provider_time aws_vals rid inner;
          Ok (rid, ReqMapping (<[Some rid := output]> m))
      end
  end.

(** The dictionary behind a [dict] argument after the call; [requests] is
    the same object, so the caller sees the assignment. *)
Definition dict_after (a : requests_arg)
    (requests : gmap (option string) FunctionInvocationResult)
  : gmap (option string) FunctionInvocationResult :=
  match a with ReqDict d => d | ReqMapping _ => requests end.

(** [requests_ids.remove(request_id)] *)
Definition set_remove (x : option string) (s : gset (option string))
  : result (gset (option string)) :=
  if decide (x ∈ s) then Ok (s ∖ {[x]}) else Raise (KeyError x).

(** State of [process_query_results]: the counter, the set of ids not yet
    seen, and the requests dictionary. *)
Record pq_state : Type := mkPq {
  results_processed : nat;
  requests_ids : gset (option string);
  pq_requests : gmap (option string) FunctionInvocationResult
}.

Fixpoint process_parts (val : list result_part) (st : pq_state) : result pq_state :=
  match val with
  | [] => Ok st
  | result_part :: rest =>
      if String.eqb (field result_part) "@message" then
        r ← parse_aws_report (value result_part) (ReqDict (pq_requests st));
        let rid := Some (fst r) in
        let requests := dict_after (snd r) (pq_requests st) in
        if decide (rid ∈ dom requests) then
          ids ← set_remove rid (requests_ids st);
          process_parts rest (mkPq (S (results_processed st)) ids requests)
        else process_parts rest (mkPq (results_processed st) (requests_ids st) requests)
      else process_parts rest st
  end.

Fixpoint process_rows (results : list (list result_part)) (st : pq_state) : result pq_state :=
  match results with
  | [] => Ok st
  | val :: rest => st' ← process_parts val st; process_rows rest st'
  end.

Definition process_query_results (results : list (list result_part))
    (requests : gmap (option string) FunctionInvocationResult)
  : result (nat * gmap (option string) FunctionInvocationResult) :=
  st ← process_rows results (mkPq 0 (dom requests) requests);
  Ok (results_processed st, pq_requests st).

(** What the [n]-th query ([start_aws_query] followed by
    [get_aws_query_results]) returns. *)
Variable query : nat → list (list result_part).

(** The [while results_processed < results_count] loop. It has no bound of
    its own; [fuel] bounds the number of iterations the model follows, and
    [None] means that the loop is still running when the fuel is used up. *)
Fixpoint query_loop (fuel : nat) (attempt : nat) (results_count results_processed : nat)
    (requests : gmap (option string) FunctionInvocationResult) (trace : list event)
  : option (result (gmap (option string) FunctionInvocationResult * list event)) :=
  if (results_processed <? results_count)%nat then
    match fuel with
    | O => None
    | S fuel' =>
        let results := query attempt in
        match process_query_results results requests with
        | Raise e => Some (Raise e)
        | Ok (processed, requests') =>
            let trace' := trace ++ [EvQuery; EvLogInfoFound processed results_count] in
            if (processed <? results_count)%nat then
              query_loop fuel' (S attempt) results_count processed requests'
                         (trace' ++ [EvSleep 10])
            else
              query_loop fuel' (S attempt) results_count processed requests' trace'
        end
    end
  else Some (Ok (requests, trace)).

Definition enrich_metrics (fuel : nat)
    (requests : gmap (option string) FunctionInvocationResult)
  : option (result (gmap (option string) FunctionInvocationResult * list event)) :=
  query_loop fuel 0 (len requests) 0 requests [EvSleep 100].

End Reconciler.

(** *** Deployment *)

(** [benchmark['memory'][0] if isinstance(benchmark['memory'], list) else
    benchmark['memory']] of [AWS.deploy] and [GCP.deploy]. *)
Definition deploy_memory (benchmark : JSON) : result JSON :=
  memory ← getitem_json benchmark "memory";
  match memory with
  | JList l => index0 l
  | _ => Ok memory
  end.

(** Lines 25-37 of [deploy], on [config['providers']['aws']]:
    [create_lambda_role] is what creating the role returns, [storage] the
    truth value of the benchmark's storage flag. The first component tells
    whether [create_lambda_role] was called; the second is the provider
    configuration as the code leaves it together with the role and the
    region that the deployment goes on with. *)
Definition deploy_role (aws : list (string * JSON)) (storage : bool)
    (create_lambda_role : result string)
  : bool * result (list (string * JSON) * JSON * JSON) :=
  let aws_access_key_id := default JNull (assoc "aws_access_key_id" aws) in
  let aws_secret_access_key := default JNull (assoc "aws_secret_access_key" aws) in
  let no_role := match default JNull (assoc "lambda-role" aws) with
                 | JNull => true
                 | _ => false
                 end in
  (no_role,
   aws' ← (if no_role
           then arn ← create_lambda_role; Ok (setitem "role" (JStr arn) aws)
           else Ok aws);
   if storage && (match aws_access_key_id with JNull => true | _ => false end
                  || match aws_secret_access_key with JNull => true | _ => false end)
   then Raise (SystemExit 1)
   else
     role ← getitem_json (JDict aws') "lambda-role";
     region ← getitem_json (JDict aws') "region";
     Ok (aws', role, region)).

(** The [environment_vars] dictionary of [_deploy_lambda] before its
    [None] values are dropped. *)
Definition environment_vars (native storage : bool) (function_name region : string)
    (aws_access_key_id aws_secret_access_key : option string)
  : list (string * option string) :=
  [("DISABLE_SIGNAL_HANDLERS", if native then Some "true" else None);
   ("STORAGE_BUCKET", if storage then Some function_name else None);
   ("S3_ENDPOINT",
    if storage then Some ("https://s3." ++ region ++ ".amazonaws.com")%string else None);
   ("S3_ACCESS_KEY_ID", if storage then aws_access_key_id else None);
   ("S3_SECRET_ACCESS_KEY", if storage then aws_secret_access_key else None)].

(** ['Variables={' + ','.join(f'{k}={v}' ...) + '}'] over the values
    that are not [None]. *)
Definition environment_vars_str (vars : list (string * option string)) : string :=
  "Variables={"
  ++ join "," ((λ kv : string * string, (kv.1 ++ "=" ++ kv.2)%string)
                 <$> omap (λ kv : string * option string, pair kv.1 <$> kv.2) vars)
  ++ "}".

(** The argument list that [_deploy_lambda] hands to [execute]. The
    source writes the value of [--ephemeral-storage] and the string
    ['--handler'] with no comma between them, so they are one literal. *)
Definition _deploy_lambda_command (function_name : string) (memory timeout : Z)
    (submodule_path region role : string) (native storage : bool)
    (aws_access_key_id aws_secret_access_key : option string) : list string :=
  let function_path := path_join (path_join submodule_path "target") "function.zip" in
  ["aws"; "lambda"; "create-function";
   "--function-name"; function_name;
   "--runtime"; if native then "provided.al2023" else "java21";
   "--role"; role;
   "--ephemeral-storage";
   ("{" ++ dquote ++ "Size" ++ dquote ++ ": 1024}" ++ "--handler")%string;
   if native then "not.used.in.provided.runtime"
   else "io.quarkus.amazon.lambda.runtime.QuarkusStreamHandler::handleRequest";
   "--zip-file"; ("fileb://" ++ function_path)%string;
   "--memory-size"; str memory;
   "--timeout"; str timeout;
   "--region"; region]
  ++ ["--environment";
      environment_vars_str
        (environment_vars native storage function_name region
           aws_access_key_id aws_secret_access_key)].

(** The end of [_create_function_url]: [function_url] is what the CLI
    printed. *)
Definition _create_function_url (function_url : string) : string :=
  let function_url := strip function_url in
  if endswith "/" function_url then drop_last function_url else function_url.

(** *** Polling a CloudWatch query *)

(** What the code reads of one [get-query-results] answer: its
    ["status"] and its ["results"], [None] for a key that is absent. *)
Record query_response : Type := mkResponse {
  status : option string;
  results : option (list (list result_part))
}.

(** [get_aws_query_results]: [poll n] is the answer to the [n]-th
    [get-query-results] call. The loop has no bound of its own; [None] means
    that it is still polling when the fuel is used up. The trace holds the
    one-second pauses. *)
Fixpoint poll_loop (poll : nat → query_response) (fuel n : nat)
    (response : option query_response) (trace : list event)
  : option (result (list (list result_part) * list event)) :=
  let again :=
    match fuel with
    | O => None
    | S fuel' => poll_loop poll fuel' (S n) (Some (poll n)) (trace ++ [EvSleep 1])
    end in
  match response with
  | None => again
  | Some r =>
      match status r with
      | None => Some (Raise (KeyError (Some "status")))
      | Some s =>
          if String.eqb s "Running" then again
          else match results r with
               | Some rows => Some (Ok (rows, trace))
               | None => Some (Raise (KeyError (Some "results")))
               end
      end
  end.

Definition get_aws_query_results (poll : nat → query_response) (fuel : nat)
  : option (result (list (list result_part) * list event)) :=
  poll_loop poll fuel 0 None [].

End AWS.

(** ** Azure: Application Insights rows *)

Module Azure.

(** [enforce_cold_start]: [env_vars_dict] is the function app's settings;
    [appsettings set] stores the one setting it is given. *)
Definition enforce_cold_start (env_vars_dict : gmap string string)
  : result (gmap string string) :=
  current_value ← int (default "0" (env_vars_dict !! cold_start_var));
  let new_value := current_value + 1 in
  Ok (<[cold_start_var := str new_value]> env_vars_dict).

(** The two columns of a row that the code reads: [request[-2]], the
    invocation id, and [request[-1]], the function execution time in ms;
    [None] is a JSON [null]. *)
Record row : Type := mkRow {
  invocation_id : option string;
  func_exec_time : option string
}.

Section Reconciler.

Variable float : string → result Q.

(** The [for request in ret["rows"]] loop. *)
Fixpoint process_rows (rows : list row) (invocations_processed : gset (option string))
    (requests : gmap (option string) FunctionInvocationResult)
  : result (gset (option string) * gmap (option string) FunctionInvocationResult) :=
  match rows with
  | [] => Ok (invocations_processed, requests)
  | request :: rest =>
      match requests !! invocation_id request with
      | None => process_rows rest invocations_processed requests
      | Some r =>
          t ← match func_exec_time request with
              | Some s => float s
              | None => Raise TypeError
              end;
          process_rows rest ({[invocation_id request]} ∪ invocations_processed)
            (<[invocation_id request := set_provider_time (t / 1000)%Q r]> requests)
      end
  end.

(** The rows that the [n]-th App Insights query returns. *)
Variable query : nat → list row.

Section Policy.

Variable max_retries : nat.
Variable retry_interval : Z.

(** The [while retries < max_retries and len(invocations_processed) <
    len(requests.keys())] loop; [remaining] is [max_retries - retries]. *)
Fixpoint retry_loop (remaining retries : nat)
    (invocations_processed invocations_to_process : gset (option string))
    (requests : gmap (option string) FunctionInvocationResult) (trace : list event)
  : result (gset (option string) * gmap (option string) FunctionInvocationResult * list event) :=
  match remaining with
  | O => Ok (invocations_processed, requests, trace)
  | S remaining' =>
      if (size invocations_processed <? len requests)%nat then
        r ← process_rows (query retries) invocations_processed requests;
        let processed := fst r in
        let requests' := snd r in
        let trace' := trace ++ [EvQuery; EvLogInfoFound (size processed) (len requests')] in
        if (size processed <? len requests')%nat then
          retry_loop remaining' (S retries) processed invocations_to_process requests'
            (trace' ++ [EvLogInfoMissing (invocations_to_process ∖ processed);
                        EvSleep retry_interval])
        else Ok (processed, requests', trace')
      else Ok (invocations_processed, requests, trace)
  end.

Definition enrich_metrics_with
    (requests : gmap (option string) FunctionInvocationResult)
  : result (gmap (option string) FunctionInvocationResult * list event) :=
  let invocations_to_process := dom requests in
  r ← retry_loop max_retries 0 ∅ invocations_to_process requests [EvSleep 100];
  let processed := fst (fst r) in
  let requests' := snd (fst r) in
  let trace := snd r in
  if (size processed <? len requests')%nat then
    Ok (requests',
        trace ++ [EvLogWarning (size (invocations_to_process ∖ processed)) max_retries])
  else Ok (requests', trace).

End Policy.

(** [max_retries = 10], [retry_interval = 10]. *)
Definition enrich_metrics := enrich_metrics_with 10 10.

End Reconciler.

(** *** Deployment and settings *)

(** [_convert_seconds] on an integer number of seconds. *)
Definition _convert_seconds (seconds : Z) : string :=
  let hours := seconds / 3600 in
  let minutes := (seconds mod 3600) / 60 in
  let seconds := seconds mod 60 in
  format_02 hours ++ ":" ++ format_02 minutes ++ ":" ++ format_02 seconds.

(** The [for part in parts] loop of [extract_value_from_connection_string]. *)
Fixpoint first_part (key : string) (parts : list string) : result (option string) :=
  match parts with
  | [] => Ok None
  | part :: rest =>
      if startswith_str (key ++ "=") part
      then v ← index1 (split1 "=" part); Ok (Some v)
      else first_part key rest
  end.

Definition extract_value_from_connection_string (connection_string key : string)
  : result (option string) :=
  first_part key (Py.split ";" connection_string).

(** The three values that [_extract_appsettings] returns; the
    instrumentation key is whatever JSON value the setting holds. *)
Record appsettings : Type := mkSettings {
  account_name : option string;
  account_key : option string;
  app_insights_instrumentation_key : JSON
}.

(** The [for item in data] loop. *)
Fixpoint extract_items (items : list JSON) (acc : appsettings) : result appsettings :=
  match items with
  | [] => Ok acc
  | item :: rest =>
      name ← getitem_json item "name";
      if eq_str name "APPINSIGHTS_INSTRUMENTATIONKEY" then
        v ← getitem_json item "value";
        extract_items rest (mkSettings (account_name acc) (account_key acc) v)
      else if eq_str name "AzureWebJobsStorage" then
        v ← getitem_json item "value";
        match v with
        | JStr connection_string =>
            n ← extract_value_from_connection_string connection_string "AccountName";
            k ← extract_value_from_connection_string connection_string "AccountKey";
            extract_items rest (mkSettings n k (app_insights_instrumentation_key acc))
        | _ => Raise (AttributeError "split")
        end
      else extract_items rest acc
  end.

Definition _extract_appsettings (data : JSON) : result appsettings :=
  items ← iter data;
  extract_items items (mkSettings None None JNull).

(** ['...' + v] for a value read from the configuration. *)
Definition concat_str (prefix : string) (v : JSON) : result string :=
  match v with
  | JStr s => Ok (prefix ++ s)%string
  | _ => Raise TypeError
  end.

(** The resource group that [deploy] hands to [deploy_function]. *)
Definition deploy_resource_group (azure : JSON) : result JSON :=
  get azure "resource-group".

(** [appSettingsCmd] of [deploy_function] as it is when the settings are
    listed; [subscription] and [resource_group] are the values read from
    the configuration, [JNull] when absent. Each was concatenated to a
    string for [deployCmd] before it is appended here. *)
Definition appSettingsCmd (function_name : string) (subscription resource_group : JSON)
  : result (list string) :=
  let cmd := ["az"; "functionapp"; "config"; "appsettings"; "list"; "--name"; function_name] in
  cmd1 ← match subscription with
         | JNull => Ok cmd
         | _ => s ← concat_str "" subscription; Ok (cmd ++ ["--subscription"; s])
         end;
  match resource_group with
  | JNull => Ok (cmd1 ++ ["--resource-group"; "quarkus"])
  | _ => g ← concat_str "" resource_group; Ok (cmd1 ++ ["--resource-group"; g])
  end.

(** The resource group that [enforce_cold_start], and [enrich_metrics]
    after it, use for the same function app. *)
Definition runtime_resource_group (azure : JSON) : result JSON :=
  resource_group ← get azure "resource_group";
  Ok (if truthy resource_group then resource_group else JStr "quarkus").

(** The argument list of the [appsettings list] call of
    [enforce_cold_start]. *)
Definition enforce_list_command (azure : JSON) (function_name : string)
  : result (list JSON) :=
  resource_group ← runtime_resource_group azure;
  Ok ((JStr <$> ["az"; "functionapp"; "config"; "appsettings"; "list";
                 "--name"; function_name; "--resource-group"])
      ++ [resource_group]).

End Azure.

(** ** GCP: Cloud Logging entries *)

Module GCP.

(** The loop body of [enforce_cold_start] for a Cloud Function that
    exists: [environment_variables] of its service configuration, read with
    the integer default [0] and stored by [update_function]. *)
Definition enforce_cold_start_function (environment_variables : gmap string string)
  : result (gmap string string) :=
  previous_cold_start_number ←
    match environment_variables !! cold_start_var with
    | Some v => int v
    | None => Ok 0
    end;
  Ok (<[cold_start_var := str (previous_cold_start_number + 1)]> environment_variables).

(** The [for env_var in container.env] loop of
    [_enforce_cold_start_on_cloud_run]: the first variable of that name is
    incremented; [None] when there is none. *)
Fixpoint bump_env (env : list (string * string)) : result (option (list (string * string))) :=
  match env with
  | [] => Ok None
  | (name, value) :: rest =>
      if String.eqb name cold_start_var then
        n ← int value;
        Ok (Some ((name, str (n + 1)) :: rest))
      else
        r ← bump_env rest;
        Ok (option_map (cons (name, value)) r)
  end.

(** [_enforce_cold_start_on_cloud_run] on the environment of the first
    container: an exception is logged and the service is left as it was. *)
Definition _enforce_cold_start_on_cloud_run (env : list (string * string))
  : list (string * string) :=
  match bump_env env with
  | Ok (Some env') => env'
  | Ok None => env ++ [(cold_start_var, "1")]
  | Raise _ => env
  end.

(** What the code reads of a log entry: whether its class is exactly
    [LogEntry], the ["trace"] key of its API form ([None] when absent), and
    [httpRequest.latency] ([None] when [httpRequest] is absent, [Some None]
    when it has no ["latency"]). *)
Record entry : Type := mkEntry {
  is_LogEntry : bool;
  trace : option string;
  httpRequest : option (option string)
}.

(** [trace.split("/")[-1]] *)
Definition invocation_id_of (trace : string) : result string :=
  index_last (Py.split "/" trace).

Section Reconciler.

Variable float : string → result Q.

Definition latency_of (e : entry) : result string :=
  match httpRequest e with
  | None => Raise (KeyError (Some "httpRequest"))
  | Some None => Raise (KeyError (Some "latency"))
  | Some (Some l) => Ok l
  end.

(** The [for entry in logs] loop. *)
Fixpoint process_entries (logs : list entry)
    (processed_request_ids request_ids_to_find_logs_for : gset (option string))
    (requests : gmap (option string) FunctionInvocationResult)
  : result (gset (option string) * gmap (option string) FunctionInvocationResult) :=
  match logs with
  | [] => Ok (processed_request_ids, requests)
  | e :: rest =>
      if negb (is_LogEntry e) then
        process_entries rest processed_request_ids request_ids_to_find_logs_for requests
      else
        match trace e with
        | Some (String c t) =>
            invocation_id ← invocation_id_of (String c t);
            l ← latency_of e;
            duration ← float (rstrip "s" l);
            if decide (Some invocation_id ∈ request_ids_to_find_logs_for) then
              match requests !! Some invocation_id with
              | Some r =>
                  process_entries rest ({[Some invocation_id]} ∪ processed_request_ids)
                    request_ids_to_find_logs_for
                    (<[Some invocation_id := set_provider_time duration r]> requests)
              | None => Raise (KeyError (Some invocation_id))
              end
            else
              process_entries rest processed_request_ids request_ids_to_find_logs_for requests
        | _ =>
            process_entries rest processed_request_ids request_ids_to_find_logs_for requests
        end
  end.

(** [logs] is what [get_logs()] returns: [None] when listing the entries
    raised. One fetch, after a fixed delay of 60 s. *)
Definition enrich_metrics (logs : option (list entry))
    (requests : gmap (option string) FunctionInvocationResult)
  : result (gmap (option string) FunctionInvocationResult * list event) :=
  let trace0 := [EvSleep 60; EvQuery] in
  match logs with
  | None | Some [] => Ok (requests, trace0 ++ [EvLogError "No logs found"])
  | Some entries =>
      let request_ids_to_find_logs_for := dom requests in
      r ← process_entries entries ∅ request_ids_to_find_logs_for requests;
      let processed_request_ids := fst r in
      let requests' := snd r in
      let trace1 := trace0 ++ [EvLogInfoFound (size processed_request_ids) (len requests')] in
      if (size processed_request_ids <? len requests')%nat then
        Ok (requests',
            trace1 ++ [EvLogInfoMissing (request_ids_to_find_logs_for ∖ processed_request_ids)])
      else Ok (requests', trace1)
  end.

End Reconciler.

(** *** Enabling the APIs *)

Definition necessary_apis : list string :=
  ["artifactregistry.googleapis.com";
   "cloudbuild.googleapis.com";
   "cloudfunctions.googleapis.com";
   "containerregistry.googleapis.com";
   "iam.googleapis.com";
   "iamcredentials.googleapis.com";
   "logging.googleapis.com";
   "pubsub.googleapis.com";
   "run.googleapis.com";
   "source.googleapis.com";
   "storage-api.googleapis.com";
   "storage-component.googleapis.com"].

(** [_enable_necessary_apis] on [config['providers']['gcp']]. [enabled_apis]
    is the list of names read off the output of [gcloud services list],
    [None] when that output is empty. The result is the provider
    configuration as [save_config] stores it (unchanged when nothing is
    saved) and the APIs for which [gcloud services enable] is run, in
    order. *)
Definition _enable_necessary_apis (gcp : list (string * JSON))
    (enabled_apis : option (list string))
  : result (list (string * JSON) * list string) :=
  if truthy (default (JBool false) (assoc "apis_enabled" gcp)) then Ok (gcp, [])
  else if negb (truthy (default JNull (assoc "project" gcp))) then Raise (SystemExit (-1))
  else
    match enabled_apis with
    | None => Ok (gcp, [])
    | Some enabled =>
        Ok (setitem "apis_enabled" (JBool true) gcp,
            List.filter (λ api, negb (bool_decide (api ∈ enabled))) necessary_apis)
    end.

End GCP.

(** ** The runner of benchmarker.py *)

Module Benchmarker.

Inductive LoadProfile : Type := COLD | WARM | BURST.

(** [load_profile.name] *)
Definition name (p : LoadProfile) : string :=
  match p with COLD => "COLD" | WARM => "WARM" | BURST => "BURST" end.

(** What happens inside the [try] of [invoke_function] up to the decoded
    body: the request or the decoding raises, or there is a response.
    [headers] is the response's [headers.get]; [data] the decoded body;
    [t_start] and [t_end] the two clock readings in microseconds. *)
Inductive HttpOutcome : Type :=
| HttpFailure
| HttpResponse (headers : string → option string) (data : string) (t_start t_end : Z).

(** The configuration that each provider holds for the function under
    test: Lambda environment variables, Azure app settings, the environment
    of the Cloud Function, and the environment of the first container of the
    Cloud Run service. *)
Record cloud : Type := mkCloud {
  lambda_env : gmap string string;
  app_settings : gmap string string;
  function_env : gmap string string;
  run_env : list (string * string)
}.

(** The request id by provider; an unknown provider falls through to
    [None]. *)
Definition _get_request_id (headers : string → option string) (provider : string)
  : result (option string) :=
  if String.eqb provider "aws" then Ok (headers "x-amzn-RequestId")
  else if String.eqb provider "azure" then Ok (headers "X-Azure-Functions-InvocationId")
  else if String.eqb provider "gcp" then
    match headers "X-Cloud-Trace-Context" with
    | Some h => id ← index0 (Py.split ";" h); Ok (Some id)
    | None => Raise (AttributeError "split")
    end
  else if String.eqb provider "knative" then Ok (headers "x-client-trace-id")
  else Ok None.

(** The dispatch of [Benchmarker.enforce_cold_start] on the provider, each
    branch acting on the configuration that its provider holds. *)
Definition enforce_cold_start (provider : string) (native : bool) (c : cloud)
  : result cloud :=
  if String.eqb provider "gcp" then
    if native then
      Ok (mkCloud (lambda_env c) (app_settings c) (function_env c)
            (GCP._enforce_cold_start_on_cloud_run (run_env c)))
    else
      env ← GCP.enforce_cold_start_function (function_env c);
      Ok (mkCloud (lambda_env c) (app_settings c) env (run_env c))
  else if String.eqb provider "aws" then
    env ← AWS.enforce_cold_start (lambda_env c);
    Ok (mkCloud env (app_settings c) (function_env c) (run_env c))
  else if String.eqb provider "azure" then
    env ← Azure.enforce_cold_start (app_settings c);
    Ok (mkCloud (lambda_env c) env (function_env c) (run_env c))
  else if String.eqb provider "knative" then Ok c      (* pass *)
  else Ok c.                                            (* logs an error *)

(** [benchmark_results.setdefault(key, value)] *)
Definition setdefault (key : option string) (v : FunctionInvocationResult)
    (benchmark_results : gmap (option string) FunctionInvocationResult)
  : gmap (option string) FunctionInvocationResult :=
  match benchmark_results !! key with
  | Some _ => benchmark_results
  | None => <[key := v]> benchmark_results
  end.

(** [json.loads(FunctionInvocationResult(request_id=result.request_id, ...).toJSON())]:
    the record that the loop stores, built anew from five fields of [result],
    its provider time not set. *)
Definition stored_record (r : FunctionInvocationResult) : FunctionInvocationResult :=
  mkResult (request_id r) None (client_begin r) (client_end r) (client_time r)
    (response_body r).

Section Run.

(** [json.loads]: [None] when it raises [JSONDecodeError]. *)
Variable json_loads : string → option JSON.

Definition invoke_function (provider : string) (o : HttpOutcome)
  : result FunctionInvocationResult :=
  match o with
  | HttpFailure => Raise (SystemExit (-1))
  | HttpResponse headers data start_time end_time =>
      let client_side_response_time := (inject_Z (end_time - start_time) / 1000000)%Q in
      match _get_request_id headers provider with
      | Raise _ => Raise (SystemExit (-1))          (* except Exception: exit(-1) *)
      | Ok request_id =>
          let response_body := data in
          let response_dict :=
            if String.eqb response_body "" then JDict []
            else match json_loads response_body with
                 | Some v => v
                 | None => JStr response_body      (* except json.JSONDecodeError *)
                 end in
          Ok (mkResult request_id None start_time end_time
                client_side_response_time response_dict)
      end
  end.

Record run_state : Type := mkRun {
  run_cloud : cloud;
  cold_start_counter : Z;
  benchmark_results : gmap (option string) FunctionInvocationResult;
  run_trace : list event
}.

Section Target.

Variable prov : string.
Variable native : bool.
Variable repetitions : Z.

(** The [while cold_start_counter < repetitions] loop. [outcomes] are the
    outcomes of the successive HTTP calls; [None] means that the loop asks
    for one more call than [outcomes] holds. *)
Fixpoint cold_loop (outcomes : list HttpOutcome) (st : run_state)
  : option (result run_state) :=
  if cold_start_counter st <? repetitions then
    match outcomes with
    | [] => None
    | o :: rest =>
        match enforce_cold_start prov native (run_cloud st) with
        | Raise e => Some (Raise e)
        | Ok c =>
            match invoke_function prov o with
            | Raise e => Some (Raise e)
            | Ok result =>
                match get (response_body result) "is_cold" with
                | Raise e => Some (Raise e)
                | Ok is_cold =>
                    if negb (truthy is_cold) then
                      cold_loop rest
                        (mkRun c (cold_start_counter st) (benchmark_results st)
                           (run_trace st ++
                              [EvEnforceColdStart; EvInvoke;
                               EvLogError "Expected a cold start"; EvSleep 5]))
                    else
                      cold_loop rest
                        (mkRun c (cold_start_counter st + 1)
                           (setdefault (request_id result) (stored_record result)
                              (benchmark_results st))
                           (run_trace st ++ [EvEnforceColdStart; EvInvoke]))
                end
            end
        end
    end
  else Some (Ok st).

(** The cold load profile for one target: [benchmark_results = {}],
    [cold_start_counter = 0], then the loop. *)
Definition cold_run (c : cloud) (outcomes : list HttpOutcome) : option (result run_state) :=
  cold_loop outcomes (mkRun c 0 ∅ []).

End Target.

End Run.

(** *** Saving the results *)

(** [os.path.join(self.root_path, 'benchmark_results', prov, runtime, bench_name)] *)
Definition results_dir (root_path prov runtime bench_name : string) : string :=
  path_join (path_join (path_join (path_join root_path "benchmark_results") prov)
               runtime) bench_name.

(** [memory if memory else "default"] inside the f-string. *)
Definition memory_label (memory : option Z) : string :=
  match memory with
  | Some m => if m =? 0 then "default" else str m
  | None => "default"
  end.

Definition results_file (root_path prov runtime bench_name : string)
    (load_profile : LoadProfile) (repetitions : Z) (memory : option Z) : string :=
  path_join (results_dir root_path prov runtime bench_name)
    (name load_profile ++ "_" ++ str repetitions ++ "_" ++ memory_label memory ++ ".json").

(** [open(path, 'w')] followed by [json.dump(benchmark_results, f)]: the
    file holds the dumped document and nothing else. The document is the
    dictionary returned by the reconciler, or [None] (dumped as [null]) for a
    provider that the dispatch does not know. *)
Definition save (files : gmap string (option (gmap (option string) FunctionInvocationResult)))
    (root_path prov runtime bench_name : string) (load_profile : LoadProfile)
    (repetitions : Z) (memory : option Z)
    (benchmark_results : option (gmap (option string) FunctionInvocationResult))
  : gmap string (option (gmap (option string) FunctionInvocationResult)) :=
  <[results_file root_path prov runtime bench_name load_profile repetitions memory
    := benchmark_results]> files.

(** *** One target of [start_run] *)

Section StartRun.

Variable json_loads : string → option JSON.
Variable float : string → result Q.

(** What the providers' log services answer: the [n]-th CloudWatch query,
    the [n]-th App Insights query, and the one listing of Cloud Logging. *)
Variable aws_query : nat → list (list AWS.result_part).
Variable azure_query : nat → list Azure.row.
Variable gcp_logs : option (list GCP.entry).

(** [__get_provider_time_and_update_results]; [fuel] bounds the iterations
    of the AWS loop that the model follows. The result is [None] (Python's)
    for a provider outside the four. *)
Definition get_provider_time_and_update_results (fuel : nat) (provider : string)
    (results : gmap (option string) FunctionInvocationResult)
  : option (result (option (gmap (option string) FunctionInvocationResult) * list event)) :=
  if String.eqb provider "gcp" then
    Some (r ← GCP.enrich_metrics float gcp_logs results; Ok (Some r.1, r.2))
  else if String.eqb provider "aws" then
    match AWS.enrich_metrics float aws_query fuel results with
    | Some r => Some (x ← r; Ok (Some x.1, x.2))
    | None => None
    end
  else if String.eqb provider "azure" then
    Some (r ← Azure.enrich_metrics float azure_query results; Ok (Some r.1, r.2))
  else if String.eqb provider "knative" then Some (Ok (Some results, []))
  else Some (Ok (None, [])).

(** The body of the innermost loop of [start_run] for one memory size:
    the load profile (only the cold one does anything), the reconciliation,
    the file. *)
Definition run_target (fuel : nat) (root_path prov runtime bench_name : string)
    (load_profile : LoadProfile) (repetitions : Z) (memory : option Z)
    (c : cloud)
    (files : gmap string (option (gmap (option string) FunctionInvocationResult)))
    (outcomes : list HttpOutcome)
  : option (result (cloud
                    * gmap string (option (gmap (option string) FunctionInvocationResult))
                    * list event)) :=
  let native := String.eqb runtime "native" in
  let invoked :=
    match load_profile with
    | COLD => cold_run json_loads prov native repetitions c outcomes
    | WARM | BURST => Some (Ok (mkRun c 0 ∅ []))
    end in
  match invoked with
  | None => None
  | Some (Raise e) => Some (Raise e)
  | Some (Ok st) =>
      match get_provider_time_and_update_results fuel prov (benchmark_results st) with
      | None => None
      | Some (Raise e) => Some (Raise e)
      | Some (Ok (document, reconciled)) =>
          Some (Ok (run_cloud st,
                    save files root_path prov runtime bench_name load_profile
                      repetitions memory document,
                    run_trace st ++ reconciled))
      end
  end.

End StartRun.

(** *** What to run: the configuration and the deployments *)

(** What [__load_benchmarks_info] keeps of a benchmark of the
    configuration. *)
Record benchmark_info : Type := mkInfo {
  info_endpoint : JSON;
  info_request : JSON;
  info_memory : JSON
}.

(** The JSON values that can be the key of a dictionary. *)
Definition hashable (v : JSON) : bool :=
  match v with
  | JList _ | JDict _ => false
  | _ => true
  end.

(** Equality of two keys: a number equals the number of the same value,
    [True] and [False] count as 1 and 0. *)
Definition key_eqb (a b : JSON) : bool :=
  let num v := match v with
               | JBool true => Some 1%Q
               | JBool false => Some 0%Q
               | JNum q => Some q
               | _ => None
               end in
  match a, b with
  | JStr x, JStr y => String.eqb x y
  | JNull, JNull => true
  | _, _ =>
      match num a, num b with
      | Some x, Some y => Qeq_bool x y
      | _, _ => false
      end
  end.

(** [benchmarks_data[k] = v] and [benchmarks_info[k]]. *)
Fixpoint info_set (k : JSON) (v : benchmark_info) (d : list (JSON * benchmark_info))
  : list (JSON * benchmark_info) :=
  match d with
  | [] => [(k, v)]
  | (k', v') :: rest =>
      if key_eqb k k' then (k', v) :: rest else (k', v') :: info_set k v rest
  end.

Fixpoint info_lookup (k : JSON) (d : list (JSON * benchmark_info)) : option benchmark_info :=
  match d with
  | [] => None
  | (k', v) :: rest => if key_eqb k k' then Some v else info_lookup k rest
  end.

(** The loop of [__load_benchmarks_info]. *)
Fixpoint load_benchmarks (benchmarks : list JSON)
    (benchmarks_data : list (JSON * benchmark_info))
  : result (list (JSON * benchmark_info)) :=
  match benchmarks with
  | [] => Ok benchmarks_data
  | benchmark :: rest =>
      benchmark_name ← get benchmark "name";
      if truthy benchmark_name then
        endpoint ← get benchmark "endpoint";
        request ← get benchmark "request";
        memory ← get benchmark "memory";
        if hashable benchmark_name then
          load_benchmarks rest
            (info_set benchmark_name (mkInfo endpoint request memory) benchmarks_data)
        else Raise TypeError
      else load_benchmarks rest benchmarks_data
  end.

(** [__load_benchmarks_info] on [config['benchmarks']]. *)
Definition __load_benchmarks_info (benchmarks : JSON)
  : result (list (JSON * benchmark_info)) :=
  l ← iter benchmarks;
  load_benchmarks l [].

(** What [__get_benchmark_data] stores for a deployed benchmark. *)
Record target : Type := mkTarget {
  function_name : JSON;
  benchmark_url : string;
  method : JSON;
  body : JSON;
  memory : JSON
}.

(** [d.setdefault(k, {})] followed by a change [f] of the value, on a
    dictionary in insertion order. *)
Fixpoint upsert {V : Type} (k : string) (f : option V → V) (d : list (string * V))
  : list (string * V) :=
  match d with
  | [] => [(k, f None)]
  | (k', v) :: rest =>
      if String.eqb k k' then (k', f (Some v)) :: rest else (k', v) :: upsert k f rest
  end.

(** [results.setdefault(prov, {}).setdefault(runtime, {})
    .setdefault(bench_name, {}).update({...})], the update setting all five
    keys. *)
Definition add_target (prov runtime bench_name : string) (t : target)
    (results : list (string * list (string * list (string * target))))
  : list (string * list (string * list (string * target))) :=
  upsert prov
    (λ runtimes, upsert runtime
                   (λ benchmarks, upsert bench_name (λ _, t) (default [] benchmarks))
                   (default [] runtimes))
    results.

(** [results[prov][runtime][bench_name]], [None] when a key is absent. *)
Definition lookup_target (prov runtime bench_name : string)
    (results : list (string * list (string * list (string * target)))) : option target :=
  runtimes ← (snd <$> List.find (λ kv, String.eqb prov kv.1) results);
  benchmarks ← (snd <$> List.find (λ kv, String.eqb runtime kv.1) runtimes);
  snd <$> List.find (λ kv, String.eqb bench_name kv.1) benchmarks.

(** [d.items()] *)
Definition items (attr : string) (d : JSON) : result (list (string * JSON)) :=
  match d with
  | JDict kvs => Ok kvs
  | _ => Raise (AttributeError attr)
  end.

Section BenchmarkData.

(** [str(v)] for a value that is neither a string nor [None], as an
    f-string writes it. *)
Variable str_of : JSON → string.

Definition format_value (v : JSON) : string :=
  match v with
  | JStr s => s
  | JNull => "None"
  | _ => str_of v
  end.

(** The filters, [self.benchmarks_info]. An empty filter lets everything
    through. *)
Variable providers : list string.
Variable benchmark_names : list string.
Variable benchmarks_info : list (JSON * benchmark_info).

Definition skipped (filter : list string) (x : string) : bool :=
  match filter with
  | [] => false
  | _ => negb (bool_decide (x ∈ filter))
  end.

(** The three nested loops of [__get_benchmark_data]. *)
Fixpoint for_benchmarks (prov runtime : string) (benchmarks : list (string * JSON))
    (results : list (string * list (string * list (string * target))))
  : result (list (string * list (string * list (string * target)))) :=
  match benchmarks with
  | [] => Ok results
  | (bench_name, details) :: rest =>
      if skipped benchmark_names bench_name then for_benchmarks prov runtime rest results
      else
        function_name ← getitem_json details "function_name";
        base_url ← getitem_json details "url";
        match info_lookup (JStr bench_name) benchmarks_info with
        | Some benchmark_info =>
            http_method ← get (info_request benchmark_info) "method";
            let endpoint := info_endpoint benchmark_info in
            body ← get (info_request benchmark_info) "body";
            let benchmark_url := (format_value base_url ++ format_value endpoint)%string in
            for_benchmarks prov runtime rest
              (add_target prov runtime bench_name
                 (mkTarget function_name benchmark_url http_method body
                    (info_memory benchmark_info))
                 results)
        | None => for_benchmarks prov runtime rest results
        end
  end.

Fixpoint for_runtimes (prov : string) (runtimes : list (string * JSON))
    (results : list (string * list (string * list (string * target))))
  : result (list (string * list (string * list (string * target)))) :=
  match runtimes with
  | [] => Ok results
  | (runtime, benchmarks) :: rest =>
      l ← items "items" benchmarks;
      results' ← for_benchmarks prov runtime l results;
      for_runtimes prov rest results'
  end.

Fixpoint for_providers (deployments : list (string * JSON))
    (results : list (string * list (string * list (string * target))))
  : result (list (string * list (string * list (string * target)))) :=
  match deployments with
  | [] => Ok results
  | (prov, runtimes) :: rest =>
      if skipped providers prov then for_providers rest results
      else
        l ← items "items" runtimes;
        results' ← for_runtimes prov l results;
        for_providers rest results'
  end.

(** [__get_benchmark_data]: the result and the providers named in the
    warning (none when there is no warning); [exit(-1)] when nothing was
    selected. *)
Definition __get_benchmark_data (deployments : JSON)
  : result (list (string * list (string * list (string * target))) * gset string) :=
  providers_with_no_deployments ←
    match providers with
    | [] => Ok ∅
    | _ => l ← items "keys" deployments;
           Ok (list_to_set providers ∖ list_to_set l.*1)
    end;
  l ← items "items" deployments;
  results ← for_providers l [];
  match results with
  | [] => Raise (SystemExit (-1))
  | _ => Ok (results, providers_with_no_deployments)
  end.

End BenchmarkData.

(** *** The memory sizes of a target *)

(** [[None] if prov == 'azure' else bench_details['memory']], as the
    [for memory in memory_sizes] loop goes through it. *)
Definition memory_sizes (prov : string) (memory : JSON) : result (list JSON) :=
  if String.eqb prov "azure" then Ok [JNull] else iter memory.

End Benchmarker.

(** ** The plotter's reading of a result file's path *)

Module Ploter.

(** The four labels that [read_json_files] takes from the path of a file. *)
Record labels : Type := mkLabels {
  Function : string;
  Provider : string;
  Memory : string;
  ExecutionType : string
}.

(** The body of the [for file in files] loop up to the opening of the
    file: [None] when the file is skipped. *)
Definition file_labels (root file : string) : option (result labels) :=
  if endswith_str ".json" file then
    Some (last ← index_last (Py.split "_" file);
          let memory := replace ".json" "" last in
          let path_parts := Py.split "/" root in
          provider ← index_from_end 3 path_parts;
          execution_type ← index_from_end 2 path_parts;
          function_name ← index_from_end 1 path_parts;
          Ok (mkLabels function_name provider memory execution_type))
  else None.

End Ploter.

(** ** Vocabulary of the statements *)

(** Counting in a trace. *)
Definition is_invoke (e : event) : bool :=
  match e with EvInvoke => true | _ => false end.

Definition is_enforce (e : event) : bool :=
  match e with EvEnforceColdStart => true | _ => false end.

Definition is_query (e : event) : bool :=
  match e with EvQuery => true | _ => false end.

Definition count_events (p : event → bool) (t : list event) : nat :=
  length (List.filter p t).

Fixpoint slept (t : list event) : Z :=
  match t with
  | [] => 0
  | EvSleep s :: rest => s + slept rest
  | _ :: rest => slept rest
  end.

Module RunnerSpec.

Import Benchmarker.

Section Verdict.

Variable json_loads : string → option JSON.
Variable prov : string.

(** What one call amounts to for the cold loop: the record that
    [invoke_function] returns and whether its body reports a cold start;
    [None] when the call or the inspection of the body raises. *)
Definition verdict (o : HttpOutcome) : option (FunctionInvocationResult * bool) :=
  match invoke_function json_loads prov o with
  | Ok r =>
      match get (response_body r) "is_cold" with
      | Ok v => Some (r, truthy v)
      | Raise _ => None
      end
  | Raise _ => None
  end.

End Verdict.

(** The records of the calls that were verified cold, in order. *)
Definition counted (vs : list (FunctionInvocationResult * bool))
  : list FunctionInvocationResult :=
  stored_record <$> (fst <$> List.filter snd vs).

(** Storing records in order, first come first kept. *)
Definition store (rs : list FunctionInvocationResult)
    (m : gmap (option string) FunctionInvocationResult)
  : gmap (option string) FunctionInvocationResult :=
  foldl (λ acc r, setdefault (request_id r) r acc) m rs.

(** The events of one round of the loop, by verdict. *)
Definition round (v : FunctionInvocationResult * bool) : list event :=
  if snd v then [EvEnforceColdStart; EvInvoke]
  else [EvEnforceColdStart; EvInvoke; EvLogError "Expected a cold start"; EvSleep 5].

Definition rounds (vs : list (FunctionInvocationResult * bool)) : list event :=
  concat (round <$> vs).

(** The stored counter as the enforcement reads it. *)
Definition read_counter (env : gmap string string) : result Z :=
  int (default "0" (env !! cold_start_var)).

(** The first variable called [cold_start_var] in a container's list. *)
Fixpoint env_lookup (env : list (string * string)) : option string :=
  match env with
  | [] => None
  | (name, value) :: rest =>
      if String.eqb name cold_start_var then Some value else env_lookup rest
  end.

(** The counter that the provider stores for the function, as text;
    [None] when there is none. *)
Definition stored_counter (provider : string) (native : bool) (c : cloud)
  : option string :=
  if String.eqb provider "gcp" then
    if native then env_lookup (run_env c) else function_env c !! cold_start_var
  else if String.eqb provider "aws" then lambda_env c !! cold_start_var
  else if String.eqb provider "azure" then app_settings c !! cold_start_var
  else None.

(** Its value, 0 when absent. *)
Definition counter_of (provider : string) (native : bool) (c : cloud) : result Z :=
  int (default "0" (stored_counter provider native c)).

(** The counters that an enforcement may fail to read are numerals. *)
Definition well_configured (c : cloud) : Prop :=
  is_ok (read_counter (lambda_env c)) = true ∧
  is_ok (read_counter (app_settings c)) = true ∧
  is_ok (read_counter (function_env c)) = true.

(** A function deployed with no configuration yet. *)
Definition fresh_cloud : cloud := mkCloud ∅ ∅ ∅ [].

(** [k] enforcements in a row. *)
Fixpoint enforce_many (k : nat) (provider : string) (native : bool) (c : cloud)
  : result cloud :=
  match k with
  | O => Ok c
  | S k' => c' ← enforce_cold_start provider native c; enforce_many k' provider native c'
  end.

(** The header value up to its first [;]. *)
Definition before_semicolon (h : string) : string := hd h (Py.split ";" h).

(** How many records a finished run holds. *)
Definition records_stored (r : option (result run_state)) : option nat :=
  match r with
  | Some (Ok st) => Some (size (benchmark_results st))
  | _ => None
  end.

End RunnerSpec.

Module ReconcilerSpec.

(** The events of one Azure attempt that finds nothing: the query, the
    count found, the ids still missing, the pause. *)
Definition unmatched_round (ids : gset (option string)) (total : nat) (interval : Z)
  : list event :=
  [EvQuery; EvLogInfoFound 0 total; EvLogInfoMissing ids; EvSleep interval].

(** The number of attempts that Azure's loop makes when nothing ever
    matches. *)
Definition unmatched_attempts (max_retries : nat)
    (requests : gmap (option string) FunctionInvocationResult) : nat :=
  if decide (requests = ∅) then 0%nat else max_retries.

(** The closing warning, present when some id is left. *)
Definition unmatched_warning (max_retries : nat)
    (requests : gmap (option string) FunctionInvocationResult) : list event :=
  if decide (requests = ∅) then [] else [EvLogWarning (size requests) max_retries].

Section Matching.

Variable float : string → result Q.

(** What the GCP loop makes of one entry: nothing ([Ok None]) when it is
    not a plain [LogEntry] or has no trace, an id and a duration, or an
    exception. *)
Definition gcp_read_entry (e : GCP.entry) : result (option (string * Q)) :=
  if negb (GCP.is_LogEntry e) then Ok None
  else match GCP.trace e with
       | Some (String c t) =>
           invocation_id ← GCP.invocation_id_of (String c t);
           l ← GCP.latency_of e;
           duration ← float (rstrip "s" l);
           Ok (Some (invocation_id, duration))
       | _ => Ok None
       end.

(** The pending ids that the entries of one fetch match, on GCP. *)
Definition gcp_match (ids : gset (option string)) (e : GCP.entry)
  : option (option string) :=
  match gcp_read_entry e with
  | Ok (Some (invocation_id, _)) =>
      if decide (Some invocation_id ∈ ids) then Some (Some invocation_id) else None
  | _ => None
  end.

Definition gcp_matched (logs : list GCP.entry) (ids : gset (option string))
  : gset (option string) :=
  list_to_set (omap (gcp_match ids) logs).

(** A row that the Azure loop can process: its id is not pending, or its
    execution time is a numeral. *)
Definition azure_row_ok (ids : gset (option string)) (row : Azure.row) : bool :=
  if decide (Azure.invocation_id row ∈ ids) then
    match Azure.func_exec_time row with
    | Some s => is_ok (float s)
    | None => false
    end
  else true.

(** The pending ids that the rows of one fetch match, on Azure. *)
Definition azure_matched (rows : list Azure.row) (ids : gset (option string))
  : gset (option string) :=
  list_to_set (List.filter (λ k, bool_decide (k ∈ ids)) (Azure.invocation_id <$> rows)).

End Matching.

(** The record set [{a, b, c}]. *)
Definition three (a b c : string) (ra rb rc : FunctionInvocationResult)
  : gmap (option string) FunctionInvocationResult :=
  <[Some a := ra]> (<[Some b := rb]> (<[Some c := rc]> ∅)).

Definition is_warning (e : event) : bool :=
  match e with EvLogWarning _ _ => true | _ => false end.

(** [r'] is [r] with a provider time. *)
Definition enriched (r r' : FunctionInvocationResult) : Prop :=
  ∃ t, r' = set_provider_time t r.

End ReconcilerSpec.

(** ** Vocabulary of the invariants *)

Module ReconcilerInvariant.

(** What the client measured for an invocation. *)
Definition client_side (r : FunctionInvocationResult)
  : option string * Z * Z * Q * JSON :=
  (request_id r, client_begin r, client_end r, client_time r, response_body r).

(** [after] holds the records of [before] under the same keys, each with
    its client-side fields as they were and a provider time that was not
    taken away. *)
Definition keeps_records
    (before after : gmap (option string) FunctionInvocationResult) : Prop :=
  dom after = dom before ∧
  ∀ k r r', before !! k = Some r → after !! k = Some r' →
    client_side r' = client_side r ∧
    (is_Some (provider_time r) → is_Some (provider_time r')).

Section Reports.

Variable float : string → result Q.

(** A CloudWatch Logs Insights row that reports request [rid] with a
    duration of [t] milliseconds: one [@message] field, whose text
    [parse_aws_report] reads as such. *)
Definition reports (row : list AWS.result_part) (rid : string) (t : Q) : Prop :=
  ∃ before log after aws_vals d,
    row = before ++ AWS.mkPart "@message" log :: after ∧
    Forall (λ p, AWS.field p ≠ "@message") before ∧
    Forall (λ p, AWS.field p ≠ "@message") after ∧
    AWS.parse_aws_vals log = Ok aws_vals ∧
    AWS.report_request_id aws_vals = Ok rid ∧
    aws_vals !! "Duration" = Some d ∧
    float d = Ok t.

End Reports.

(** The number of [@message] fields in the rows of a query. *)
Definition messages (rows : list (list AWS.result_part)) : nat :=
  length (List.filter (λ p, String.eqb (AWS.field p) "@message") (concat rows)).

End ReconcilerInvariant.

Module SelectionSpec.

(** The benchmark [bench_name] is deployed for [prov] and [runtime], with
    these details, in a deployments document of the expected shape. *)
Definition deployed (deployments : JSON) (prov runtime bench_name : string)
    (details : JSON) : Prop :=
  ∃ ds rs bs,
    deployments = JDict ds ∧ (prov, JDict rs) ∈ ds ∧ (runtime, JDict bs) ∈ rs ∧
    (bench_name, details) ∈ bs.

(** What the configuration says about a benchmark, as
    [__load_benchmarks_info] keeps it. *)
Definition info_of (benchmark : list (string * JSON)) : Benchmarker.benchmark_info :=
  Benchmarker.mkInfo (default JNull (assoc "endpoint" benchmark))
    (default JNull (assoc "request" benchmark))
    (default JNull (assoc "memory" benchmark)).

(** A filter lets [x] through: it is empty or it names [x]. *)
Definition lets_through (filter : list string) (x : string) : Prop :=
  filter = [] ∨ x ∈ filter.

(** The target [t] is put together from the details of a deployment and
    from what the configuration says about the benchmark. *)
Definition made_from (str_of : JSON → string) (details : JSON)
    (info : Benchmarker.benchmark_info) (t : Benchmarker.target) : Prop :=
  getitem_json details "function_name" = Ok (Benchmarker.function_name t) ∧
  (∃ url, getitem_json details "url" = Ok url ∧
          Benchmarker.benchmark_url t
          = (Benchmarker.format_value str_of url
             ++ Benchmarker.format_value str_of (Benchmarker.info_endpoint info))%string) ∧
  get (Benchmarker.info_request info) "method" = Ok (Benchmarker.method t) ∧
  get (Benchmarker.info_request info) "body" = Ok (Benchmarker.body t) ∧
  Benchmarker.memory t = Benchmarker.info_memory info.

(** A deployed benchmark that the selection leaves out without an error:
    the filter of names rejects it, or it has its function name and its url
    and the configuration does not know it. *)
Definition left_out (benchmark_names : list string)
    (benchmarks_info : list (JSON * Benchmarker.benchmark_info))
    (bench_name : string) (details : JSON) : Prop :=
  ¬ lets_through benchmark_names bench_name ∨
  ((∃ f, getitem_json details "function_name" = Ok f) ∧
   (∃ u, getitem_json details "url" = Ok u) ∧
   Benchmarker.info_lookup (JStr bench_name) benchmarks_info = None).

End SelectionSpec.

(** ** Data of the examples *)

Module Examples.

Import Benchmarker.

Definition quote : string := String "034" EmptyString.

(** Two bodies that a benchmark function answers with, one that is not
    JSON, and what [json.loads] makes of them. *)
Definition cold_body : string := "{" ++ quote ++ "is_cold" ++ quote ++ ": true}".
Definition warm_body : string := "{" ++ quote ++ "is_cold" ++ quote ++ ": false}".
Definition html_body : string := "<html>502 Bad Gateway</html>".

Definition json_loads (s : string) : option JSON :=
  if String.eqb s cold_body then Some (JDict [("is_cold", JBool true)])
  else if String.eqb s warm_body then Some (JDict [("is_cold", JBool false)])
  else None.

Definition aws_headers (rid : string) (h : string) : option string :=
  if String.eqb h "x-amzn-RequestId" then Some rid else None.

Definition no_headers (h : string) : option string := None.

Definition warm_call (rid : string) : HttpOutcome :=
  HttpResponse (aws_headers rid) warm_body 1000000 1250000.

Definition cold_call (rid : string) : HttpOutcome :=
  HttpResponse (aws_headers rid) cold_body 2000000 2900000.

(** A cold answer that carries no request id header. *)
Definition cold_call_no_id : HttpOutcome :=
  HttpResponse no_headers cold_body 2000000 2900000.

Definition html_call : HttpOutcome :=
  HttpResponse (aws_headers "r-1") html_body 1000000 1250000.

(** An Azure function app whose counter is at 41. *)
Definition azure_at_41 : cloud := mkCloud ∅ {[cold_start_var := "41"]} ∅ [].

(** [float] on the numerals of the examples. *)
Definition float (s : string) : result Q :=
  if String.eqb s "12.34" then Ok (1234 # 100)
  else if String.eqb s "250" then Ok (250 # 1)
  else if String.eqb s "0.25" then Ok (25 # 100)
  else Raise ValueError.

Definition tab : string := String "009" EmptyString.
Definition newline : string := String "010" EmptyString.

(** A REPORT line of a Lambda invocation. *)
Definition report_line (rid : string) : string :=
  "REPORT RequestId: " ++ rid ++ tab ++ "Duration: 12.34 ms" ++ tab
  ++ "Billed Duration: 13 ms" ++ tab ++ "Memory Size: 512 MB" ++ tab
  ++ "Max Memory Used: 120 MB" ++ tab ++ newline.

(** The fields that [parse_aws_report] reads off that line. *)
Definition report_vals (rid : string) : gmap string string :=
  list_to_map [("REPORT RequestId", rid); ("Duration", "12.34");
               ("Billed Duration", "13"); ("Memory Size", "512");
               ("Max Memory Used", "120")].

Definition record_of (rid : string) : FunctionInvocationResult :=
  mkResult (Some rid) None 2000000 2900000 (9 # 10) (JDict [("is_cold", JBool true)]).

(** A Cloud Logging request entry for a trace. *)
Definition gcp_entry (trace : string) : GCP.entry :=
  GCP.mkEntry true (Some trace) (Some (Some "0.25s")).

Definition gcp_headers (h : string) (name : string) : option string :=
  if String.eqb name "X-Cloud-Trace-Context" then Some h else None.

(** App Insights rows of invocations that belong to another run. *)
Definition foreign_rows (n : nat) : list Azure.row :=
  [Azure.mkRow (Some "old-1") (Some "250"); Azure.mkRow None None].

(** Log entries and rows for the invocations a and b of a run of three. *)
Definition gcp_logs_ab : list GCP.entry :=
  [gcp_entry "projects/p/traces/a"; GCP.mkEntry false (Some "x") None;
   gcp_entry "projects/p/traces/b"; gcp_entry "projects/p/traces/old"].

Definition azure_rows_ab (n : nat) : list Azure.row :=
  [Azure.mkRow (Some "b") (Some "250"); Azure.mkRow (Some "old-1") None;
   Azure.mkRow (Some "a") (Some "12.34")].

(** A toy file system for the build gate: a directory is present when it
    has a hash; the build writes the artifact directory. *)
Definition toy_hash (fs : gmap string string) (dir : string) : string :=
  default "" (fs !! dir).

Definition toy_exists (fs : gmap string string) (dir : string) : bool :=
  bool_decide (is_Some (fs !! dir)).

Definition toy_build (benchmark_name : string) (native : bool)
    (fs : gmap string string) : gmap string string :=
  <["benchmarks/echo/target" := "artifact-1"]> fs.

(** Sources present, nothing built yet. *)
Definition toy_fresh : gmap string string := {["benchmarks/echo/src" := "source-1"]}.

End Examples.

(** * Theorems *)

(** ** Builtins *)

Lemma to_int_not_nil (n : Z) :
  Z.to_int n ≠ Decimal.Pos Decimal.Nil ∧ Z.to_int n ≠ Decimal.Neg Decimal.Nil.
Proof.
  destruct n as [|p|p]; simpl; split; try discriminate;
    intros [= H]; revert H; apply DecimalPos.Unsigned.to_uint_nonnil.
Qed.

Lemma uint_digits (d : Decimal.uint) :
  forallb is_digit (list_ascii_of_string (NilEmpty.string_of_uint d)) = true.
Proof. induction d; cbn; auto. Qed.

Lemma uint_string_not_nil (d : Decimal.uint) :
  d ≠ Decimal.Nil → NilEmpty.string_of_uint d ≠ "".
Proof. by destruct d. Qed.

Lemma digit_not_space (c : ascii) : is_digit c = true → int_space c = false.
Proof.
  unfold is_digit, int_space. intros H.
  apply andb_true_iff in H as [H1 H2]. apply Nat.leb_le in H1, H2.
  apply orb_false_iff. split.
  - apply andb_false_iff. right. apply Nat.leb_gt. lia.
  - apply Nat.eqb_neq. lia.
Qed.

Lemma digit_not_sign (c : ascii) :
  is_digit c = true →
  Ascii.eqb c "_" = false ∧ Ascii.eqb c "-" = false ∧ Ascii.eqb c "+" = false.
Proof.
  intros H. repeat split; apply Ascii.eqb_neq; intros ->; discriminate H.
Qed.

Lemma numeral_digits_digits (s : string) :
  s ≠ "" → forallb is_digit (list_ascii_of_string s) = true → numeral_digits s = Some s.
Proof.
  induction s as [|c s IH]; [done|]. intros _ H.
  cbn [list_ascii_of_string forallb] in H. apply andb_true_iff in H as [Hc Hs].
  cbn [numeral_digits]. rewrite Hc. destruct s as [|c' s]; [reflexivity|].
  assert (Hc' : is_digit c' = true).
  { cbn [list_ascii_of_string forallb] in Hs. by apply andb_true_iff in Hs as [? _]. }
  destruct (digit_not_sign c' Hc') as (-> & _ & _).
  by rewrite IH.
Qed.

Lemma int_rstrip_id (s : string) :
  forallb (λ c, negb (int_space c)) (list_ascii_of_string s) = true → int_rstrip s = s.
Proof.
  induction s as [|c s IH]; [reflexivity|]. intros H.
  cbn [list_ascii_of_string forallb] in H. apply andb_true_iff in H as [Hc Hs].
  cbn [int_rstrip]. rewrite (IH Hs). apply negb_true_iff in Hc. rewrite Hc.
  by destruct s.
Qed.

Lemma digits_not_space (s : string) :
  forallb is_digit (list_ascii_of_string s) = true →
  forallb (λ c, negb (int_space c)) (list_ascii_of_string s) = true.
Proof.
  induction s as [|c s IH]; [reflexivity|]. cbn [list_ascii_of_string forallb].
  intros H. apply andb_true_iff in H as [Hc Hs].
  by rewrite (digit_not_space c Hc), IH.
Qed.

(** [int] on a numeral without underscores, with and without a [-]. *)
Lemma int_digits (s : string) (d : Decimal.uint) :
  s ≠ "" → forallb is_digit (list_ascii_of_string s) = true →
  NilEmpty.uint_of_string s = Some d →
  int s = Ok (Z.of_uint d) ∧ int (String "-" s) = Ok (- Z.of_uint d).
Proof.
  intros Hne Hd Hu. pose proof (digits_not_space s Hd) as Hsp.
  pose proof (numeral_digits_digits s Hne Hd) as Hn.
  destruct s as [|c s]; [done|].
  assert (Hc : is_digit c = true).
  { cbn [list_ascii_of_string forallb] in Hd. by apply andb_true_iff in Hd as [? _]. }
  destruct (digit_not_sign c Hc) as (_ & Hminus & Hplus).
  split; unfold int.
  - cbn [int_lstrip]. rewrite (digit_not_space c Hc), (int_rstrip_id _ Hsp).
    rewrite Hminus, Hplus. cbn [snd fst]. rewrite Hn. cbn [mbind option_bind].
    by rewrite Hu.
  - cbn [int_lstrip]. change (int_space "-") with false. cbv iota.
    rewrite (int_rstrip_id (String "-" (String c s))).
    + cbn [Ascii.eqb Bool.eqb snd fst]. rewrite Hn. cbn [mbind option_bind].
      by rewrite Hu.
    + cbn [list_ascii_of_string forallb]. cbn [list_ascii_of_string forallb] in Hsp.
      by rewrite Hsp.
Qed.

Lemma int_str (n : Z) : int (str n) = Ok n.
Proof.
  destruct n as [|p|p]; [reflexivity| |].
  - unfold str, NilZero.string_of_int. cbn [Z.to_int].
    pose proof (DecimalPos.Unsigned.to_uint_nonnil p) as Hnil.
    assert (Hs : NilZero.string_of_uint (Pos.to_uint p)
                 = NilEmpty.string_of_uint (Pos.to_uint p))
      by (by destruct (Pos.to_uint p)).
    rewrite Hs.
    destruct (int_digits _ (Pos.to_uint p) (uint_string_not_nil _ Hnil)
                (uint_digits _) (NilEmpty.usu _)) as [-> _].
    change (Z.of_uint (Pos.to_uint p)) with (Z.of_int (Z.to_int (Z.pos p))).
    by rewrite DecimalZ.of_to.
  - unfold str, NilZero.string_of_int. cbn [Z.to_int].
    pose proof (DecimalPos.Unsigned.to_uint_nonnil p) as Hnil.
    assert (Hs : NilZero.string_of_uint (Pos.to_uint p)
                 = NilEmpty.string_of_uint (Pos.to_uint p))
      by (by destruct (Pos.to_uint p)).
    rewrite Hs.
    destruct (int_digits _ (Pos.to_uint p) (uint_string_not_nil _ Hnil)
                (uint_digits _) (NilEmpty.usu _)) as [_ ->].
    change (- Z.of_uint (Pos.to_uint p)) with (Z.of_int (Z.to_int (Z.neg p))).
    by rewrite DecimalZ.of_to.
Qed.

Lemma count_events_app p (t1 t2 : list event) :
  count_events p (t1 ++ t2) = (count_events p t1 + count_events p t2)%nat.
Proof. unfold count_events. by rewrite List.filter_app, length_app. Qed.

Lemma slept_app (t1 t2 : list event) : slept (t1 ++ t2) = slept t1 + slept t2.
Proof.
  induction t1 as [|e t1 IH]; simpl; [lia|].
  destruct e; rewrite ?IH; lia.
Qed.

(** ** The cold-start loop *)

Section ColdLoop.

Import Benchmarker RunnerSpec.

Variable json_loads : string → option JSON.
Variable prov : string.
Variable native : bool.
Variable repetitions : Z.

(** The loop, one round unfolded. *)
Lemma cold_loop_cons (o : HttpOutcome) (rest : list HttpOutcome) (st : run_state) :
  cold_loop json_loads prov native repetitions (o :: rest) st =
  if cold_start_counter st <? repetitions then
    match enforce_cold_start prov native (run_cloud st) with
    | Raise e => Some (Raise e)
    | Ok c =>
        match invoke_function json_loads prov o with
        | Raise e => Some (Raise e)
        | Ok r =>
            match get (response_body r) "is_cold" with
            | Raise e => Some (Raise e)
            | Ok is_cold =>
                if negb (truthy is_cold) then
                  cold_loop json_loads prov native repetitions rest
                    (mkRun c (cold_start_counter st) (benchmark_results st)
                       (run_trace st ++
                          [EvEnforceColdStart; EvInvoke;
                           EvLogError "Expected a cold start"; EvSleep 5]))
                else
                  cold_loop json_loads prov native repetitions rest
                    (mkRun c (cold_start_counter st + 1)
                       (setdefault (request_id r) (stored_record r) (benchmark_results st))
                       (run_trace st ++ [EvEnforceColdStart; EvInvoke]))
            end
        end
    end
  else Some (Ok st).
Proof. reflexivity. Qed.

Lemma counted_cons_cold r vs : counted ((r, true) :: vs) = stored_record r :: counted vs.
Proof. reflexivity. Qed.

Lemma counted_cons_warm r vs : counted ((r, false) :: vs) = counted vs.
Proof. reflexivity. Qed.

Lemma rounds_cons v vs : rounds (v :: vs) = round v ++ rounds vs.
Proof. reflexivity. Qed.

(** What a finished loop has done: it consumed a prefix [used] of the
    outcomes, every call of which had a verdict; it stored the records of
    the cold ones and counted exactly them; and its trace is the rounds of
    these verdicts. *)
Lemma cold_loop_spec (outcomes : list HttpOutcome) (st st' : run_state) :
  cold_loop json_loads prov native repetitions outcomes st = Some (Ok st') →
  ∃ used rest vs,
    outcomes = used ++ rest ∧
    Forall2 (λ o v, verdict json_loads prov o = Some v) used vs ∧
    cold_start_counter st' = cold_start_counter st + Z.of_nat (length (counted vs)) ∧
    benchmark_results st' = store (counted vs) (benchmark_results st) ∧
    run_trace st' = run_trace st ++ rounds vs ∧
    repetitions ≤ cold_start_counter st' ∧
    (cold_start_counter st ≤ repetitions → cold_start_counter st' ≤ repetitions) ∧
    (repetitions ≤ cold_start_counter st → vs = []).
Proof.
  revert st. induction outcomes as [|o outcomes IH]; intros st H; simpl in H.
  - destruct (cold_start_counter st <? repetitions) eqn:Hlt; [discriminate|].
    injection H as <-. apply Z.ltb_ge in Hlt.
    exists [], [], []. cbn. rewrite app_nil_r.
    repeat split; try done; lia.
  - destruct (cold_start_counter st <? repetitions) eqn:Hlt.
    + apply Z.ltb_lt in Hlt.
      destruct (enforce_cold_start prov native (run_cloud st)) as [c|] eqn:Hc;
        [|discriminate].
      destruct (invoke_function json_loads prov o) as [r|] eqn:Hr; [|discriminate].
      destruct (get (response_body r) "is_cold") as [v|] eqn:Hv; [|discriminate].
      assert (Hverdict : verdict json_loads prov o = Some (r, truthy v)).
      { unfold verdict. by rewrite Hr, Hv. }
      destruct (truthy v) eqn:Hcold; simpl in H;
        apply IH in H as (used & rest & vs & -> & Hall & Hcnt & Hres & Htr & Hge & Hle & _);
        simpl in Hcnt, Hres, Htr, Hle;
        exists (o :: used), rest, ((r, truthy v) :: vs); rewrite Hcold.
      * rewrite counted_cons_cold, rounds_cons. repeat split; try done.
        -- by constructor.
        -- rewrite Hcnt. simpl. lia.
        -- rewrite Htr. by rewrite <- app_assoc.
        -- intros _. apply Hle. lia.
        -- lia.
      * rewrite counted_cons_warm, rounds_cons. repeat split; try done.
        -- by constructor.
        -- rewrite Htr. by rewrite <- app_assoc.
        -- lia.
    + injection H as <-. apply Z.ltb_ge in Hlt.
      exists [], (o :: outcomes), []. cbn. rewrite app_nil_r.
      repeat split; try done; lia.
Qed.

Lemma count_invoke_rounds vs : count_events is_invoke (rounds vs) = length vs.
Proof.
  induction vs as [|[r b] vs IH]; [done|].
  rewrite rounds_cons, count_events_app, IH. by destruct b.
Qed.

Lemma count_enforce_rounds vs : count_events is_enforce (rounds vs) = length vs.
Proof.
  induction vs as [|[r b] vs IH]; [done|].
  rewrite rounds_cons, count_events_app, IH. by destruct b.
Qed.

Lemma slept_rounds vs :
  slept (rounds vs) = 5 * (Z.of_nat (length vs) - Z.of_nat (length (counted vs))).
Proof.
  induction vs as [|[r b] vs IH]; [done|].
  rewrite rounds_cons, slept_app, IH.
  destruct b; [rewrite counted_cons_cold|rewrite counted_cons_warm]; simpl length;
    unfold round; simpl; lia.
Qed.

End ColdLoop.

(** ** Cold-start enforcement *)

Section Enforcement.

Import Benchmarker RunnerSpec.

Lemma read_counter_insert (env : gmap string string) (n : Z) :
  read_counter (<[cold_start_var := str n]> env) = Ok n.
Proof. unfold read_counter. rewrite lookup_insert_eq. simpl. apply int_str. Qed.

Lemma aws_enforce_step (env : gmap string string) (n : Z) :
  read_counter env = Ok n →
  AWS.enforce_cold_start env = Ok (<[cold_start_var := str (n + 1)]> env).
Proof. unfold read_counter, AWS.enforce_cold_start. by intros ->. Qed.

Lemma azure_enforce_step (env : gmap string string) (n : Z) :
  read_counter env = Ok n →
  Azure.enforce_cold_start env = Ok (<[cold_start_var := str (n + 1)]> env).
Proof. unfold read_counter, Azure.enforce_cold_start. by intros ->. Qed.

Lemma gcp_enforce_step (env : gmap string string) (n : Z) :
  read_counter env = Ok n →
  GCP.enforce_cold_start_function env = Ok (<[cold_start_var := str (n + 1)]> env).
Proof.
  unfold read_counter, GCP.enforce_cold_start_function.
  destruct (env !! cold_start_var) as [v|]; simpl.
  - by intros ->.
  - by intros [= <-].
Qed.

Lemma bump_env_step (env : list (string * string)) (n : Z) :
  int (default "0" (env_lookup env)) = Ok n →
  env_lookup (GCP._enforce_cold_start_on_cloud_run env) = Some (str (n + 1)).
Proof.
  unfold GCP._enforce_cold_start_on_cloud_run.
  assert (Hgen : int (default "0" (env_lookup env)) = Ok n →
    match GCP.bump_env env with
    | Ok (Some env') => env_lookup env' = Some (str (n + 1))
    | Ok None => env_lookup env = None ∧ ∀ tl, env_lookup (env ++ tl) = env_lookup tl
    | Raise _ => False
    end).
  { induction env as [|[name value] env IH]; simpl.
    - intros _. by split.
    - destruct (String.eqb name cold_start_var) eqn:Hname.
      + simpl. intros ->. simpl. by rewrite Hname.
      + intros H. specialize (IH H).
        destruct (GCP.bump_env env) as [[env'|]|]; simpl; [| |done].
        * by rewrite Hname.
        * destruct IH as [IH1 IH2]. split; [done|]. intros tl. apply IH2. }
  intros H. specialize (Hgen H).
  destruct (GCP.bump_env env) as [[env'|]|]; [done| |done].
  destruct Hgen as [Hnone Hgen]. rewrite Hgen.
  rewrite Hnone in H. injection H as <-. reflexivity.
Qed.

Lemma is_ok_inv {A : Type} (r : result A) : is_ok r = true → ∃ a, r = Ok a.
Proof. destruct r; [eauto|discriminate]. Qed.

(** On a well-configured function no enforcement raises. *)
Lemma enforce_ok (prov : string) (native : bool) (c : cloud) :
  well_configured c →
  ∃ c', enforce_cold_start prov native c = Ok c' ∧ well_configured c'.
Proof.
  intros (Ha & Hz & Hg).
  apply is_ok_inv in Ha as [na Ha], Hz as [nz Hz], Hg as [ng Hg].
  unfold enforce_cold_start.
  destruct (String.eqb prov "gcp"); [destruct native|].
  - eexists. split; [done|]. unfold well_configured. simpl. by rewrite Ha, Hz, Hg.
  - rewrite (gcp_enforce_step _ _ Hg). eexists. split; [done|].
    unfold well_configured. simpl. by rewrite Ha, Hz, read_counter_insert.
  - destruct (String.eqb prov "aws").
    { rewrite (aws_enforce_step _ _ Ha). eexists. split; [done|].
      unfold well_configured. simpl. by rewrite Hz, Hg, read_counter_insert. }
    destruct (String.eqb prov "azure").
    { rewrite (azure_enforce_step _ _ Hz). eexists. split; [done|].
      unfold well_configured. simpl. by rewrite Ha, Hg, read_counter_insert. }
    destruct (String.eqb prov "knative"); eexists; (split; [done|]);
      unfold well_configured; by rewrite Ha, Hz, Hg.
Qed.

Lemma fresh_cloud_well_configured : well_configured fresh_cloud.
Proof. by repeat split. Qed.

Lemma enforce_step (prov : string) (native : bool) (c : cloud) (n : Z) :
  prov = "aws" ∨ prov = "azure" ∨ prov = "gcp" →
  counter_of prov native c = Ok n →
  ∃ c', enforce_cold_start prov native c = Ok c' ∧
        stored_counter prov native c' = Some (str (n + 1)).
Proof.
  unfold counter_of, stored_counter, enforce_cold_start.
  intros [-> | [-> | ->]]; simpl.
  - intros H. rewrite (aws_enforce_step _ _ H). eexists. split; [done|]. simpl.
    apply lookup_insert_eq.
  - intros H. rewrite (azure_enforce_step _ _ H). eexists. split; [done|]. simpl.
    apply lookup_insert_eq.
  - destruct native; intros H.
    + eexists. split; [done|]. simpl. by apply bump_env_step.
    + rewrite (gcp_enforce_step _ _ H). eexists. split; [done|]. simpl.
      apply lookup_insert_eq.
Qed.

Lemma enforce_many_spec (k : nat) (prov : string) (native : bool) (c : cloud) (n : Z) :
  prov = "aws" ∨ prov = "azure" ∨ prov = "gcp" →
  counter_of prov native c = Ok n →
  ∃ c', enforce_many k prov native c = Ok c' ∧
        counter_of prov native c' = Ok (n + Z.of_nat k).
Proof.
  intros Hp. revert c n. induction k as [|k IH]; intros c n Hn.
  - exists c. split; [done|]. by rewrite Z.add_0_r.
  - destruct (enforce_step prov native c n Hp Hn) as (c1 & Hc1 & Hs1).
    destruct (IH c1 (n + 1)) as (c' & Hc' & Hn').
    { unfold counter_of. rewrite Hs1. apply int_str. }
    exists c'. simpl. rewrite Hc1. split; [exact Hc'|].
    rewrite Hn'. f_equal. lia.
Qed.

End Enforcement.

(** On the providers whose enforcement is written (aws, azure, and gcp
    with a Cloud Function or, for a native build, a Cloud Run service), an
    enforcement on a function whose counter reads [n] (0 when the
    configuration has none) stores the numeral of [n + 1], so that it reads
    [n + 1] afterwards; hence [k] enforcements in a row leave it at [n + k],
    strictly above [n] for [k > 0]. *)
Lemma enforce_cold_start_increments
    (prov : string) (native : bool) (c : Benchmarker.cloud) (n : Z) :
  prov = "aws" ∨ prov = "azure" ∨ prov = "gcp" →
  RunnerSpec.counter_of prov native c = Ok n →
  (∃ c', Benchmarker.enforce_cold_start prov native c = Ok c' ∧
         RunnerSpec.stored_counter prov native c' = Some (str (n + 1)) ∧
         RunnerSpec.counter_of prov native c' = Ok (n + 1)) ∧
  (∀ k : nat, ∃ ck, RunnerSpec.enforce_many k prov native c = Ok ck ∧
         RunnerSpec.counter_of prov native ck = Ok (n + Z.of_nat k) ∧
         ((0 < k)%nat → n < n + Z.of_nat k)).
Proof.
  intros Hp Hn. split.
  - destruct (enforce_step prov native c n Hp Hn) as (c' & Hc' & Hs).
    exists c'. repeat split; [done..|].
    unfold RunnerSpec.counter_of. rewrite Hs. apply int_str.
  - intros k. destruct (enforce_many_spec k prov native c n Hp Hn) as (ck & H1 & H2).
    exists ck. repeat split; [done..|lia].
Qed.

(** An Azure function app whose counter is at 41 goes to 42. *)
Lemma enforce_cold_start_azure_41 :
  RunnerSpec.counter_of "azure" false Examples.azure_at_41 = Ok 41 ∧
  ∃ c', Benchmarker.enforce_cold_start "azure" false Examples.azure_at_41 = Ok c' ∧
        RunnerSpec.stored_counter "azure" false c' = Some "42".
Proof.
  split; [reflexivity|].
  destruct (enforce_cold_start_increments "azure" false Examples.azure_at_41 41
              (or_intror (or_introl eq_refl)) eq_refl) as [(c' & H1 & H2 & _) _].
  exists c'. split; [exact H1|exact H2].
Qed.

(** C9, the defect: for the fourth provider, knative, the enforcement is
    [pass]: whatever the configuration, the call reads and writes nothing,
    no counter is stored for the function, and the counter, read as 0 before
    the call, still reads 0 after it and after any number of calls. *)
Theorem enforce_cold_start_knative_noop (native : bool) (c : Benchmarker.cloud) :
  Benchmarker.enforce_cold_start "knative" native c = Ok c ∧
  RunnerSpec.stored_counter "knative" native c = None ∧
  RunnerSpec.counter_of "knative" native c = Ok 0 ∧
  ∀ k : nat, RunnerSpec.enforce_many k "knative" native c = Ok c.
Proof.
  repeat split. induction k as [|k IH]; [done|]. simpl. exact IH.
Qed.

(** ** The record set of a run *)

Section RecordSet.

Import Benchmarker RunnerSpec.

Lemma setdefault_dom (key : option string) (v : FunctionInvocationResult) (m : gmap (option string) FunctionInvocationResult) :
  dom (setdefault key v m) = dom m ∪ {[key]}.
Proof.
  unfold setdefault. destruct (m !! key) eqn:Hk.
  - apply elem_of_dom_2 in Hk. set_solver.
  - rewrite dom_insert_L. set_solver.
Qed.

Lemma setdefault_size_le (key : option string) (v : FunctionInvocationResult) (m : gmap (option string) FunctionInvocationResult) :
  (size (setdefault key v m) ≤ S (size m))%nat.
Proof.
  unfold setdefault. destruct (m !! key) eqn:Hk; [lia|].
  by rewrite map_size_insert_None.
Qed.

Lemma store_cons (r : FunctionInvocationResult) (rs : list FunctionInvocationResult)
    (m : gmap (option string) FunctionInvocationResult) :
  store (r :: rs) m = store rs (setdefault (request_id r) r m).
Proof. reflexivity. Qed.

Lemma store_dom (rs : list FunctionInvocationResult)
    (m : gmap (option string) FunctionInvocationResult) :
  dom (store rs m) = dom m ∪ list_to_set (request_id <$> rs).
Proof.
  revert m. induction rs as [|r rs IH]; intros m.
  - simpl. set_solver.
  - rewrite store_cons, IH, setdefault_dom, fmap_cons. set_solver.
Qed.

Lemma store_size_le (rs : list FunctionInvocationResult)
    (m : gmap (option string) FunctionInvocationResult) :
  (size (store rs m) ≤ size m + length rs)%nat.
Proof.
  revert m. induction rs as [|r rs IH]; intros m.
  - simpl. lia.
  - rewrite store_cons. specialize (IH (setdefault (request_id r) r m)).
    pose proof (setdefault_size_le (request_id r) r m). simpl. lia.
Qed.

End RecordSet.

(** C1: a finished cold loop has consumed a prefix [used] of the calls;
    each call had a verdict, and only the calls whose body reports [is_cold]
    are counted and stored ([counted vs]); every other call costs one
    enforcement, one invocation and a backoff of 5 s and leaves counter and
    record set as they were, the next round starting again with the
    enforcement. In particular, with a budget of one and three calls that
    report false, false, true, on any well-configured function, the run ends
    with three invocations, three enforcements, 10 s of backoff and the one
    record of the third call. *)
Theorem cold_loop_counts_only_cold_calls :
  (∀ json_loads prov native repetitions c outcomes st',
     Benchmarker.cold_run json_loads prov native repetitions c outcomes = Some (Ok st') →
     ∃ used rest vs,
       outcomes = used ++ rest ∧
       Forall2 (λ o v, RunnerSpec.verdict json_loads prov o = Some v) used vs ∧
       Benchmarker.cold_start_counter st' = Z.of_nat (length (RunnerSpec.counted vs)) ∧
       Benchmarker.benchmark_results st' = RunnerSpec.store (RunnerSpec.counted vs) ∅ ∧
       Benchmarker.run_trace st' = RunnerSpec.rounds vs ∧
       count_events is_invoke (Benchmarker.run_trace st') = length used ∧
       count_events is_enforce (Benchmarker.run_trace st') = length used ∧
       slept (Benchmarker.run_trace st')
         = 5 * (Z.of_nat (length used) - Z.of_nat (length (RunnerSpec.counted vs)))) ∧
  (∀ json_loads prov native c o1 o2 o3 r1 r2 r3,
     RunnerSpec.well_configured c →
     RunnerSpec.verdict json_loads prov o1 = Some (r1, false) →
     RunnerSpec.verdict json_loads prov o2 = Some (r2, false) →
     RunnerSpec.verdict json_loads prov o3 = Some (r3, true) →
     ∃ st',
       Benchmarker.cold_run json_loads prov native 1 c [o1; o2; o3] = Some (Ok st') ∧
       Benchmarker.benchmark_results st'
         = {[request_id r3 := Benchmarker.stored_record r3]} ∧
       size (Benchmarker.benchmark_results st') = 1%nat ∧
       count_events is_invoke (Benchmarker.run_trace st') = 3%nat ∧
       count_events is_enforce (Benchmarker.run_trace st') = 3%nat ∧
       slept (Benchmarker.run_trace st') = 10).
Proof.
  split.
  - intros json_loads prov native repetitions c outcomes st' H.
    apply cold_loop_spec in H
      as (used & rest & vs & -> & Hall & Hcnt & Hres & Htr & _).
    simpl in Hcnt, Hres, Htr.
    exists used, rest, vs. rewrite Htr.
    rewrite count_invoke_rounds, count_enforce_rounds, slept_rounds.
    rewrite (Forall2_length _ _ _ Hall).
    repeat split; done.
  - intros json_loads prov native c o1 o2 o3 r1 r2 r3 Hc H1 H2 H3.
    destruct (enforce_ok prov native c Hc) as (c1 & E1 & Hc1).
    destruct (enforce_ok prov native c1 Hc1) as (c2 & E2 & Hc2).
    destruct (enforce_ok prov native c2 Hc2) as (c3 & E3 & _).
    unfold RunnerSpec.verdict in H1, H2, H3.
    destruct (Benchmarker.invoke_function json_loads prov o1) as [x1|] eqn:I1; [|done].
    destruct (get (response_body x1) "is_cold") as [v1|] eqn:G1; [|done].
    destruct (Benchmarker.invoke_function json_loads prov o2) as [x2|] eqn:I2; [|done].
    destruct (get (response_body x2) "is_cold") as [v2|] eqn:G2; [|done].
    destruct (Benchmarker.invoke_function json_loads prov o3) as [x3|] eqn:I3; [|done].
    destruct (get (response_body x3) "is_cold") as [v3|] eqn:G3; [|done].
    injection H1 as -> T1. injection H2 as -> T2. injection H3 as -> T3.
    eexists. split.
    + unfold Benchmarker.cold_run. simpl.
      rewrite E1, I1, G1, T1. simpl.
      rewrite E2, I2, G2, T2. simpl.
      rewrite E3, I3, G3, T3. simpl. reflexivity.
    + simpl. unfold Benchmarker.setdefault. rewrite lookup_empty.
      repeat split; try reflexivity.
      rewrite map_size_insert_None by apply lookup_empty.
      by rewrite map_size_empty.
Qed.

(** The scenario on AWS: two warm answers, then a cold one. *)
Lemma cold_loop_counts_only_cold_calls_witness :
  ∃ st',
    Benchmarker.cold_run Examples.json_loads "aws" false 1 RunnerSpec.fresh_cloud
      [Examples.warm_call "r-1"; Examples.warm_call "r-2"; Examples.cold_call "r-3"]
      = Some (Ok st') ∧
    size (Benchmarker.benchmark_results st') = 1%nat ∧
    count_events is_invoke (Benchmarker.run_trace st') = 3%nat.
Proof.
  destruct (proj2 cold_loop_counts_only_cold_calls
              Examples.json_loads "aws" false RunnerSpec.fresh_cloud
              (Examples.warm_call "r-1") (Examples.warm_call "r-2")
              (Examples.cold_call "r-3") _ _ _
              fresh_cloud_well_configured eq_refl eq_refl eq_refl)
    as (st' & Hrun & _ & Hsize & Hinv & _).
  exists st'. repeat split; assumption.
Defined.

Lemma size_list_to_set_le (l : list (option string)) :
  (size (list_to_set l : gset (option string)) ≤ length l)%nat.
Proof.
  induction l as [|x l IH]; simpl.
  - vm_compute. lia.
  - destruct (decide (x ∈ (list_to_set l : gset (option string)))) as [Hin|Hnin].
    + replace ({[x]} ∪ list_to_set l) with (list_to_set l : gset (option string))
        by set_solver. lia.
    + rewrite size_union by set_solver. rewrite size_singleton. lia.
Qed.

Lemma size_list_to_set_NoDup (l : list (option string)) :
  size (list_to_set l : gset (option string)) = length l ↔ NoDup l.
Proof.
  split; [|apply size_list_to_set].
  induction l as [|x l IH]; simpl; intros Hsize; [constructor|].
  pose proof (size_list_to_set_le l) as Hle.
  destruct (decide (x ∈ (list_to_set l : gset (option string)))) as [Hin|Hnin].
  - replace ({[x]} ∪ list_to_set l) with (list_to_set l : gset (option string))
      in Hsize by set_solver. lia.
  - rewrite size_union in Hsize by set_solver. rewrite size_singleton in Hsize.
    constructor; [set_solver|]. apply IH. lia.
Qed.

(** C6, as amended: the record set that a finished cold loop hands to the
    reconciler has unique keys and at most N records, N being the budget (0
    for a negative one). N calls were counted; the keys are their request
    ids, a call whose id is already stored advancing the counter without
    adding a record, so that the set has exactly N records if and only if
    the N ids are pairwise distinct. *)
Theorem cold_run_record_set
    (json_loads : string → option JSON) (prov : string) (native : bool)
    (repetitions : Z) (c : Benchmarker.cloud)
    (outcomes : list Benchmarker.HttpOutcome) (st' : Benchmarker.run_state) :
  Benchmarker.cold_run json_loads prov native repetitions c outcomes = Some (Ok st') →
  NoDup (map_to_list (Benchmarker.benchmark_results st')).*1 ∧
  (size (Benchmarker.benchmark_results st') ≤ Z.to_nat repetitions)%nat ∧
  ∃ used rest vs,
    outcomes = used ++ rest ∧
    Forall2 (λ o v, RunnerSpec.verdict json_loads prov o = Some v) used vs ∧
    length (RunnerSpec.counted vs) = Z.to_nat repetitions ∧
    dom (Benchmarker.benchmark_results st')
      = list_to_set (request_id <$> RunnerSpec.counted vs) ∧
    (size (Benchmarker.benchmark_results st') = Z.to_nat repetitions
     ↔ NoDup (request_id <$> RunnerSpec.counted vs)).
Proof.
  intros H.
  apply cold_loop_spec in H
    as (used & rest & vs & -> & Hall & Hcnt & Hres & _ & Hge & Hle & Hnil).
  simpl in Hcnt, Hres, Hle, Hnil.
  assert (Hlen : length (RunnerSpec.counted vs) = Z.to_nat repetitions).
  { destruct (Z.le_gt_cases repetitions 0) as [Hneg|Hpos].
    - rewrite (Hnil Hneg). simpl. lia.
    - lia. }
  assert (Hdom : dom (Benchmarker.benchmark_results st')
                 = list_to_set (request_id <$> RunnerSpec.counted vs)).
  { by rewrite Hres, store_dom, dom_empty_L, union_empty_l_L. }
  split; [apply NoDup_fst_map_to_list|].
  split.
  { rewrite Hres. pose proof (store_size_le (RunnerSpec.counted vs) ∅) as Hs.
    rewrite map_size_empty in Hs. lia. }
  exists used, rest, vs. repeat split; try done.
  - intros Hsize. apply size_list_to_set_NoDup.
    rewrite <- Hdom, size_dom, length_fmap. lia.
  - intros Hnd. rewrite <- size_dom, Hdom.
    apply size_list_to_set_NoDup in Hnd. rewrite Hnd, length_fmap. lia.
Qed.

(** Two cold answers with distinct ids fill a budget of two. *)
Lemma cold_run_record_set_witness :
  ∃ st',
    Benchmarker.cold_run Examples.json_loads "aws" false 2 RunnerSpec.fresh_cloud
      [Examples.cold_call "r-1"; Examples.cold_call "r-2"] = Some (Ok st') ∧
    (size (Benchmarker.benchmark_results st') ≤ 2)%nat.
Proof.
  eexists. split; [reflexivity|].
  exact (proj1 (proj2 (cold_run_record_set Examples.json_loads "aws" false 2
                         RunnerSpec.fresh_cloud
                         [Examples.cold_call "r-1"; Examples.cold_call "r-2"]
                         _ eq_refl))).
Defined.

(** C6 as stated fails: with a budget of two and two cold answers that carry
    no request id header, both calls are counted and the loop finishes, but
    the second [setdefault] finds the key [None] taken: one record, not
    two. *)
Lemma cold_run_duplicate_id_one_record :
  RunnerSpec.records_stored
    (Benchmarker.cold_run Examples.json_loads "aws" false 2 RunnerSpec.fresh_cloud
       [Examples.cold_call_no_id; Examples.cold_call_no_id]) = Some 1%nat.
Proof. vm_compute. reflexivity. Qed.

(** C3, the defect: a body that [json.loads] rejects is kept as raw text
    in the record that [invoke_function] returns, but the cold loop then asks
    that text for [.get('is_cold')]: the run ends with [AttributeError], and
    the call is neither counted nor stored. *)
Theorem malformed_body_aborts_cold_run
    (json_loads : string → option JSON) (prov : string) (native : bool)
    (repetitions : Z) (c c' : Benchmarker.cloud)
    (headers : string → option string) (data : string) (t0 t1 : Z)
    (rid : option string) (rest : list Benchmarker.HttpOutcome) :
  json_loads data = None →
  data ≠ "" →
  Benchmarker._get_request_id headers prov = Ok rid →
  0 < repetitions →
  Benchmarker.enforce_cold_start prov native c = Ok c' →
  Benchmarker.invoke_function json_loads prov (Benchmarker.HttpResponse headers data t0 t1)
    = Ok (mkResult rid None t0 t1 (inject_Z (t1 - t0) / 1000000)%Q (JStr data)) ∧
  Benchmarker.cold_run json_loads prov native repetitions c
    (Benchmarker.HttpResponse headers data t0 t1 :: rest)
    = Some (Raise (AttributeError "get")).
Proof.
  intros Hjson Hdata Hid Hrep Henf.
  assert (Hinv : Benchmarker.invoke_function json_loads prov
                   (Benchmarker.HttpResponse headers data t0 t1)
                 = Ok (mkResult rid None t0 t1 (inject_Z (t1 - t0) / 1000000)%Q
                         (JStr data))).
  { unfold Benchmarker.invoke_function. rewrite Hid, Hjson.
    apply String.eqb_neq in Hdata. by rewrite Hdata. }
  split; [exact Hinv|].
  unfold Benchmarker.cold_run. rewrite cold_loop_cons.
  apply Z.ltb_lt in Hrep. simpl Benchmarker.cold_start_counter. rewrite Hrep.
  simpl Benchmarker.run_cloud. rewrite Henf, Hinv. reflexivity.
Qed.

(** An HTML error page as the answer of the first call on AWS. *)
Lemma malformed_body_aborts_cold_run_witness :
  Benchmarker.cold_run Examples.json_loads "aws" false 1 RunnerSpec.fresh_cloud
    [Examples.html_call] = Some (Raise (AttributeError "get")).
Proof.
  exact (proj2 (malformed_body_aborts_cold_run Examples.json_loads "aws" false 1
                  RunnerSpec.fresh_cloud _ (Examples.aws_headers "r-1")
                  Examples.html_body 1000000 1250000 (Some "r-1") []
                  eq_refl ltac:(discriminate) eq_refl eq_refl eq_refl)).
Defined.

(** ** Saving the results *)

(** Whatever a target's run does before, what it does to the files is one
    [save] under the target's parameters, of a document that does not depend
    on the files. *)
Lemma run_target_saves
    (json_loads : string → option JSON) (float : string → result Q)
    (aws_query : nat → list (list AWS.result_part)) (azure_query : nat → list Azure.row)
    (gcp_logs : option (list GCP.entry)) (fuel : nat)
    (root_path prov runtime bench_name : string) (load_profile : Benchmarker.LoadProfile)
    (repetitions : Z) (memory : option Z) (c c' : Benchmarker.cloud)
    (files files' : gmap string (option (gmap (option string) FunctionInvocationResult)))
    (outcomes : list Benchmarker.HttpOutcome) (tr : list event) :
  Benchmarker.run_target json_loads float aws_query azure_query gcp_logs fuel
    root_path prov runtime bench_name load_profile repetitions memory c files outcomes
    = Some (Ok (c', files', tr)) →
  ∃ document,
    files' = Benchmarker.save files root_path prov runtime bench_name load_profile
               repetitions memory document ∧
    ∀ files0,
      Benchmarker.run_target json_loads float aws_query azure_query gcp_logs fuel
        root_path prov runtime bench_name load_profile repetitions memory c files0 outcomes
      = Some (Ok (c',
                  Benchmarker.save files0 root_path prov runtime bench_name load_profile
                    repetitions memory document,
                  tr)).
Proof.
  unfold Benchmarker.run_target. intros H.
  destruct (match load_profile with
            | Benchmarker.COLD => _
            | _ => _
            end) as [[st|]|]; [|done..].
  destruct (Benchmarker.get_provider_time_and_update_results _ _ _ _ _ _ _)
    as [[[document reconciled]|]|]; [|done..].
  injection H as <- <- <-. by exists document.
Qed.

(** ** The build gate *)

Section Gate.

Variable FS : Type.
Variable compute_directory_hash : FS → string → string.
Variable path_exists : FS → string → bool.
Variable build : string → bool → FS → FS.
Variable provider benchmark_name submodule_path : string.
Variable native : bool.

Lemma gate_skip_iff (fs0 : FS)
    (cache0 : gmap (string * string * bool) BuildCache.cache_entry) :
  BuildCache.built (BuildCache.deploy_build compute_directory_hash path_exists build
       provider benchmark_name submodule_path native fs0 cache0) = false
  ↔ ∃ e,
      BuildCache.find_cache provider benchmark_name native cache0 = Some e ∧
      BuildCache.src_hash e
        = compute_directory_hash fs0 (path_join submodule_path "src") ∧
      path_exists fs0 (path_join submodule_path "target") = true ∧
      BuildCache.target_hash e
        = compute_directory_hash fs0 (path_join submodule_path "target").
Proof.
  unfold BuildCache.deploy_build, BuildCache.must_build.
  destruct (BuildCache.find_cache provider benchmark_name native cache0) as [e|] eqn:He.
  2:{ simpl. split; [done|]. intros (e & [=] & _). }
  destruct (String.eqb_spec (BuildCache.src_hash e)
              (compute_directory_hash fs0 (path_join submodule_path "src")))
    as [Hsrc|Hsrc]; simpl.
  2:{ split; [done|]. intros (e' & [= <-] & Hs & _). done. }
  destruct (path_exists fs0 (path_join submodule_path "target")) eqn:Hex.
  - case_bool_decide as Htgt; simpl.
    + injection Htgt as Htgt. split; [|done]. intros _. by exists e.
    + split; [done|]. intros (e' & [= <-] & _ & _ & Ht). destruct Htgt. by rewrite Ht.
  - rewrite bool_decide_eq_false_2 by done. simpl.
    split; [done|]. intros (e' & _ & _ & [=] & _).
Qed.

Lemma gate_cases (fs0 : FS)
    (cache0 : gmap (string * string * bool) BuildCache.cache_entry) :
  (BuildCache.built (BuildCache.deploy_build compute_directory_hash path_exists build
       provider benchmark_name submodule_path native fs0 cache0) = false ∧
   BuildCache.deploy_build compute_directory_hash path_exists build
     provider benchmark_name submodule_path native fs0 cache0 = BuildCache.mkDeploy fs0 cache0 false) ∨
  (BuildCache.built (BuildCache.deploy_build compute_directory_hash path_exists build
       provider benchmark_name submodule_path native fs0 cache0) = true ∧
   BuildCache.deploy_build compute_directory_hash path_exists build
     provider benchmark_name submodule_path native fs0 cache0
   = BuildCache.mkDeploy (build benchmark_name native fs0)
       (<[(provider, benchmark_name, native) :=
            BuildCache.mkEntry
              (compute_directory_hash fs0 (path_join submodule_path "src"))
              (compute_directory_hash (build benchmark_name native fs0)
                 (path_join submodule_path "target"))]> cache0)
       true).
Proof.
  unfold BuildCache.deploy_build, BuildCache.update_cache.
  destruct (BuildCache.must_build _ _ _); [by right|by left].
Qed.

End Gate.

(** C4: [deploy] skips the build exactly when the cache has an entry for
    (provider, benchmark, native), the entry's source hash is the current
    one, the artifact directory exists and the entry's artifact hash is its
    current hash; then neither the file system nor the cache changes. In
    every other case (no entry, a different source hash, a missing artifact
    directory, a different artifact hash) it builds, and the entry then holds
    the source hash computed before the build and the artifact hash computed
    after it, the other entries being untouched. A second call right after
    skips the build, provided that the build left the hash of the sources
    alone and the artifact directory in place. *)
Theorem deploy_build_gate
    (FS : Type) (compute_directory_hash : FS → string → string)
    (path_exists : FS → string → bool) (build : string → bool → FS → FS)
    (provider benchmark_name submodule_path : string) (native : bool)
    (fs0 : FS) (cache0 : gmap (string * string * bool) BuildCache.cache_entry) :
  (BuildCache.built
     (BuildCache.deploy_build compute_directory_hash path_exists build
        provider benchmark_name submodule_path native fs0 cache0) = false
   ↔ ∃ e,
       BuildCache.find_cache provider benchmark_name native cache0 = Some e ∧
       BuildCache.src_hash e
         = compute_directory_hash fs0 (path_join submodule_path "src") ∧
       path_exists fs0 (path_join submodule_path "target") = true ∧
       BuildCache.target_hash e
         = compute_directory_hash fs0 (path_join submodule_path "target")) ∧
  (BuildCache.built
     (BuildCache.deploy_build compute_directory_hash path_exists build
        provider benchmark_name submodule_path native fs0 cache0) = false →
   BuildCache.deploy_build compute_directory_hash path_exists build
     provider benchmark_name submodule_path native fs0 cache0
   = BuildCache.mkDeploy fs0 cache0 false) ∧
  (BuildCache.built
     (BuildCache.deploy_build compute_directory_hash path_exists build
        provider benchmark_name submodule_path native fs0 cache0) = true →
   BuildCache.deploy_build compute_directory_hash path_exists build
     provider benchmark_name submodule_path native fs0 cache0
   = BuildCache.mkDeploy (build benchmark_name native fs0)
       (<[(provider, benchmark_name, native) :=
            BuildCache.mkEntry
              (compute_directory_hash fs0 (path_join submodule_path "src"))
              (compute_directory_hash (build benchmark_name native fs0)
                 (path_join submodule_path "target"))]> cache0)
       true) ∧
  (BuildCache.find_cache provider benchmark_name native cache0 = None →
   BuildCache.built
     (BuildCache.deploy_build compute_directory_hash path_exists build
        provider benchmark_name submodule_path native fs0 cache0) = true) ∧
  (path_exists fs0 (path_join submodule_path "target") = false →
   BuildCache.built
     (BuildCache.deploy_build compute_directory_hash path_exists build
        provider benchmark_name submodule_path native fs0 cache0) = true) ∧
  (compute_directory_hash (build benchmark_name native fs0)
     (path_join submodule_path "src")
   = compute_directory_hash fs0 (path_join submodule_path "src") →
   path_exists (build benchmark_name native fs0) (path_join submodule_path "target")
   = true →
   BuildCache.built
     (BuildCache.deploy_build compute_directory_hash path_exists build
        provider benchmark_name submodule_path native
        (BuildCache.fs
           (BuildCache.deploy_build compute_directory_hash path_exists build
              provider benchmark_name submodule_path native fs0 cache0))
        (BuildCache.cache
           (BuildCache.deploy_build compute_directory_hash path_exists build
              provider benchmark_name submodule_path native fs0 cache0))) = false).
Proof.
  pose proof (gate_skip_iff FS compute_directory_hash path_exists build provider
                benchmark_name submodule_path native) as Hiff.
  pose proof (gate_cases FS compute_directory_hash path_exists build provider
                benchmark_name submodule_path native fs0 cache0) as Hcases.
  split; [apply Hiff|].
  split; [intros Hb; destruct Hcases as [[_ ->]|[Hb' _]]; [done|congruence]|].
  split; [intros Hb; destruct Hcases as [[Hb' _]|[_ ->]]; [congruence|done]|].
  split.
  { intros Hnone. destruct (BuildCache.built _) eqn:Hb; [done|].
    apply Hiff in Hb as (e & He & _). congruence. }
  split.
  { intros Hex. destruct (BuildCache.built _) eqn:Hb; [done|].
    apply Hiff in Hb as (e & _ & _ & Hex' & _). congruence. }
  intros Hsrc Hex.
  destruct Hcases as [[Hb ->]|[_ ->]]; simpl.
  - exact Hb.
  - apply Hiff. eexists. split; [apply lookup_insert_eq|]. simpl. by repeat split.
Qed.

(** A first deployment: sources present, no artifact, empty cache. *)
Lemma deploy_build_gate_witness :
  BuildCache.find_cache "aws" "echo" false ∅ = None ∧
  BuildCache.built
    (BuildCache.deploy_build Examples.toy_hash Examples.toy_exists
       Examples.toy_build "aws" "echo" "benchmarks/echo" false Examples.toy_fresh ∅)
  = true.
Proof.
  split; [reflexivity|].
  exact (proj1 (proj2 (proj2 (proj2
           (deploy_build_gate (gmap string string) Examples.toy_hash Examples.toy_exists
              Examples.toy_build "aws" "echo" "benchmarks/echo" false
              Examples.toy_fresh ∅)))) eq_refl).
Defined.

(** ** Request ids on GCP *)

Section Segments.

Lemma split_nonempty (sep : ascii) (s : string) : Py.split sep s ≠ [].
Proof.
  destruct s as [|c s]; simpl; [done|].
  destruct (Ascii.eqb c sep); [done|]. by destruct (Py.split sep s).
Qed.

(** No segment of a split holds the separator. *)
Lemma split_segments_clean (sep : ascii) (s : string) :
  Forall (λ w, contains sep w = false) (Py.split sep s).
Proof.
  induction s as [|c s IH]; simpl.
  - by constructor.
  - destruct (Ascii.eqb c sep) eqn:Hc.
    + by constructor.
    + destruct (Py.split sep s) as [|w ws]; [by repeat constructor; simpl; rewrite Hc|].
      inversion IH as [|? ? Hw Hws]; subst.
      constructor; [|done]. simpl. by rewrite Hc, Hw.
Qed.

Lemma index_last_elem {A : Type} (l : list A) (x : A) :
  index_last l = Ok x → x ∈ l.
Proof.
  unfold index_last. induction l as [|a l IH]; simpl; [done|].
  destruct l as [|b l].
  - simpl. intros [= <-]. by left.
  - intros H. right. by apply IH.
Qed.

Lemma invocation_id_clean (trace inv : string) :
  GCP.invocation_id_of trace = Ok inv → contains "/" inv = false.
Proof.
  intros H. apply index_last_elem in H.
  pose proof (split_segments_clean "/" trace) as Hall.
  rewrite Forall_forall in Hall. by apply Hall.
Qed.

Lemma index0_split (sep : ascii) (s : string) :
  index0 (Py.split sep s) = Ok (hd s (Py.split sep s)).
Proof.
  pose proof (split_nonempty sep s). by destruct (Py.split sep s).
Qed.

End Segments.

Section GcpKeys.

Variable float : string → result Q.

(** An id that holds a [/] is out of the reach of the entry loop. *)
Lemma process_entries_keeps_slashed (id : string) (logs : list GCP.entry)
    (processed ids : gset (option string))
    (requests : gmap (option string) FunctionInvocationResult)
    (r : gset (option string) * gmap (option string) FunctionInvocationResult) :
  contains "/" id = true →
  GCP.process_entries float logs processed ids requests = Ok r →
  r.2 !! Some id = requests !! Some id ∧ (Some id ∉ processed → Some id ∉ r.1).
Proof.
  intros Hid. revert processed requests.
  induction logs as [|e logs IH]; intros processed requests H; simpl in H.
  - by injection H as <-.
  - destruct (GCP.is_LogEntry e); simpl in H; [|by apply IH].
    destruct (GCP.trace e) as [[|ch t]|]; [by apply IH| |by apply IH].
    destruct (GCP.invocation_id_of (String ch t)) as [inv|] eqn:Hinv;
      simpl in H; [|done].
    destruct (GCP.latency_of e) as [l|]; simpl in H; [|done].
    destruct (float (rstrip "s" l)) as [duration|]; simpl in H; [|done]. apply invocation_id_clean in Hinv.
    assert (Hne : inv ≠ id) by (intros ->; congruence).
    destruct (decide (Some inv ∈ ids)); [|by apply IH].
    destruct (requests !! Some inv) as [rec|]; [|done].
    apply IH in H as [H1 H2]. split.
    + rewrite H1. apply lookup_insert_ne. congruence.
    + intros Hnot. apply H2. set_solver.
Qed.

End GcpKeys.

(** C7, as amended: on GCP the stored request id is the
    [X-Cloud-Trace-Context] header up to its first [;], and the id that the
    reconciler computes from a trace is its last [/]-separated segment,
    which holds no [/]. Hence, whenever the part of the header before the
    first [;] holds a [/], the stored id differs from every id that the
    reconciler can compute, and whatever the log entries are,
    [enrich_metrics] returns the record under that id as it was. *)
Theorem gcp_stored_id_never_matches
    (json_loads : string → option JSON) (float : string → result Q)
    (headers : string → option string) (h data : string) (t0 t1 : Z) :
  headers "X-Cloud-Trace-Context" = Some h →
  contains "/" (RunnerSpec.before_semicolon h) = true →
  ∃ r,
    Benchmarker.invoke_function json_loads "gcp"
      (Benchmarker.HttpResponse headers data t0 t1) = Ok r ∧
    request_id r = Some (RunnerSpec.before_semicolon h) ∧
    (∀ trace inv, GCP.invocation_id_of trace = Ok inv →
       contains "/" inv = false ∧ Some inv ≠ request_id r) ∧
    (∀ logs requests requests' tr,
       GCP.enrich_metrics float logs requests = Ok (requests', tr) →
       requests' !! request_id r = requests !! request_id r).
Proof.
  intros Hh Hslash.
  eexists. split.
  { unfold Benchmarker.invoke_function, Benchmarker._get_request_id. simpl.
    rewrite Hh, index0_split. simpl. reflexivity. }
  simpl. split; [done|]. split.
  - intros trace inv Hinv. apply invocation_id_clean in Hinv. split; [done|].
    intros [= ->]. unfold RunnerSpec.before_semicolon in Hslash. congruence.
  - intros logs requests requests' tr H. unfold GCP.enrich_metrics in H.
    destruct logs as [[|e logs]|]; try by injection H as <-.
    destruct (GCP.process_entries float (e :: logs) ∅ (dom requests) requests)
      as [r|] eqn:Hr; [|done].
    simpl in H.
    apply (process_entries_keeps_slashed float (RunnerSpec.before_semicolon h))
      in Hr as [Hkeep _]; [|done].
    destruct (size r.1 <? len r.2)%nat; injection H as <- _; exact Hkeep.
Qed.

(** A trace header as Cloud Run answers it. *)
Lemma gcp_stored_id_never_matches_witness :
  ∃ r,
    Benchmarker.invoke_function Examples.json_loads "gcp"
      (Benchmarker.HttpResponse (Examples.gcp_headers "trace-1/17;o=1")
         Examples.cold_body 2000000 2900000) = Ok r ∧
    request_id r = Some "trace-1/17" ∧
    GCP.invocation_id_of "projects/p/traces/trace-1" = Ok "trace-1".
Proof.
  destruct (gcp_stored_id_never_matches Examples.json_loads Examples.float
              (Examples.gcp_headers "trace-1/17;o=1") "trace-1/17;o=1"
              Examples.cold_body 2000000 2900000 eq_refl eq_refl)
    as (r & Hr & Hid & _).
  exists r. split; [exact Hr|]. split; [exact Hid|reflexivity].
Defined.

(** C7 as stated fails for a header whose only [/] comes after the first
    [;]: the stored id is then the bare trace id, the reconciler computes the
    same id from the entry's trace, and the record is enriched. *)
Lemma gcp_slash_after_semicolon_matches :
  contains "/" "trace-1;o=1/0" = true ∧
  request_id <$> Benchmarker.invoke_function Examples.json_loads "gcp"
                   (Benchmarker.HttpResponse (Examples.gcp_headers "trace-1;o=1/0")
                      Examples.cold_body 2000000 2900000)
    = Ok (Some "trace-1") ∧
  GCP.invocation_id_of "projects/p/traces/trace-1" = Ok "trace-1" ∧
  (λ r, provider_time <$> r.1 !! Some "trace-1")
    <$> GCP.enrich_metrics Examples.float
          (Some [Examples.gcp_entry "projects/p/traces/trace-1"])
          {[Some "trace-1" := Examples.record_of "trace-1"]}
    = Ok (Some (Some (25 # 100))).
Proof. repeat split; vm_compute; reflexivity. Qed.

(** ** REPORT lines on AWS *)

Section AwsReport.

Variable float : string → result Q.

Lemma assign_keeps_missing (aws_vals : gmap string string) (rid : string)
    (key : option string)
    (d d' : gmap (option string) FunctionInvocationResult) :
  AWS.assign_provider_time float aws_vals rid d = Ok d' →
  d !! key = None → d' !! key = None.
Proof.
  unfold AWS.assign_provider_time. intros H Hkey.
  destruct (AWS.getitem aws_vals "Duration") as [x|]; simpl in H; [|done].
  destruct (float x) as [t|]; simpl in H; [|done].
  destruct (d !! Some rid) as [r|] eqn:Hr; [|done].
  injection H as <-. rewrite lookup_insert_ne; [done|]. congruence.
Qed.

(** A dict argument comes back as a dict with the same keys absent. *)
Lemma parse_dict_keeps_missing (log : string) (key : option string)
    (d : gmap (option string) FunctionInvocationResult)
    (r : string * AWS.requests_arg) :
  AWS.parse_aws_report float log (AWS.ReqDict d) = Ok r →
  d !! key = None → AWS.dict_after r.2 d !! key = None.
Proof.
  unfold AWS.parse_aws_report. intros H Hkey.
  destruct (AWS.parse_aws_vals log) as [aws_vals|]; simpl in H; [|done].
  destruct (AWS.report_request_id aws_vals) as [rid|]; simpl in H; [|done].
  destruct (AWS.assign_provider_time float aws_vals rid d) as [d'|] eqn:Hd;
    simpl in H; [|done].
  injection H as <-. simpl. by eapply assign_keeps_missing.
Qed.

Section MissingId.

Variable log : string.
Variable aws_vals : gmap string string.
Variable rid d : string.
Variable t : Q.
Hypothesis Hvals : AWS.parse_aws_vals log = Ok aws_vals.
Hypothesis Hrid : AWS.report_request_id aws_vals = Ok rid.
Hypothesis Hd : aws_vals !! "Duration" = Some d.
Hypothesis Ht : float d = Ok t.

Lemma parse_dict_raises (requests : gmap (option string) FunctionInvocationResult) :
  requests !! Some rid = None →
  AWS.parse_aws_report float log (AWS.ReqDict requests) = Raise (KeyError (Some rid)).
Proof.
  intros Hmiss. unfold AWS.parse_aws_report. rewrite Hvals. simpl. rewrite Hrid. simpl.
  unfold AWS.assign_provider_time, AWS.getitem. rewrite Hd. simpl. rewrite Ht. simpl.
  by rewrite Hmiss.
Qed.

Lemma parse_mapping_skips
    (m : gmap (option string) (gmap (option string) FunctionInvocationResult)) :
  m !! Some rid = None →
  AWS.parse_aws_report float log (AWS.ReqMapping m) = Ok (rid, AWS.ReqMapping m).
Proof.
  intros Hmiss. unfold AWS.parse_aws_report. rewrite Hvals. simpl. rewrite Hrid. simpl.
  by rewrite Hmiss.
Qed.

(** The inner loop returns only if no [@message] part holds the line. *)
Lemma process_parts_missing (val : list AWS.result_part) (st : AWS.pq_state) :
  AWS.pq_requests st !! Some rid = None →
  match AWS.process_parts float val st with
  | Ok st' =>
      AWS.pq_requests st' !! Some rid = None ∧
      ∀ part, part ∈ val → AWS.field part = "@message" → AWS.value part ≠ log
  | Raise _ => True
  end.
Proof.
  revert st. induction val as [|part val IH]; intros st Hmiss; simpl.
  - split; [done|]. intros part Hin. by apply elem_of_nil in Hin.
  - destruct (String.eqb (AWS.field part) "@message") eqn:Hf.
    + destruct (AWS.parse_aws_report float (AWS.value part)
                  (AWS.ReqDict (AWS.pq_requests st))) as [r|] eqn:Hparse; simpl; [|done].
      assert (Hlog : AWS.value part ≠ log).
      { intros Heq. rewrite Heq, (parse_dict_raises _ Hmiss) in Hparse. done. }
      pose proof (parse_dict_keeps_missing _ _ _ _ Hparse Hmiss) as Hmiss'.
      destruct (decide (Some r.1 ∈ dom (AWS.dict_after r.2 (AWS.pq_requests st)))).
      * destruct (AWS.set_remove (Some r.1) (AWS.requests_ids st)) as [ids|];
          simpl; [|done].
        specialize (IH (AWS.mkPq (S (AWS.results_processed st)) ids
                          (AWS.dict_after r.2 (AWS.pq_requests st))) Hmiss').
        destruct (AWS.process_parts float val _) as [st'|]; [|done].
        destruct IH as [IH1 IH2]. split; [done|].
        intros p Hin Hp. apply elem_of_cons in Hin as [->|Hin]; [done|by apply IH2].
      * specialize (IH (AWS.mkPq (AWS.results_processed st) (AWS.requests_ids st)
                          (AWS.dict_after r.2 (AWS.pq_requests st))) Hmiss').
        destruct (AWS.process_parts float val _) as [st'|]; [|done].
        destruct IH as [IH1 IH2]. split; [done|].
        intros p Hin Hp. apply elem_of_cons in Hin as [->|Hin]; [done|by apply IH2].
    + specialize (IH st Hmiss).
      destruct (AWS.process_parts float val st) as [st'|]; [|done].
      destruct IH as [IH1 IH2]. split; [done|].
      intros p Hin Hp. apply elem_of_cons in Hin as [->|Hin]; [|by apply IH2].
      apply String.eqb_neq in Hf. done.
Qed.

Lemma process_rows_missing (results : list (list AWS.result_part)) (st : AWS.pq_state) :
  AWS.pq_requests st !! Some rid = None →
  match AWS.process_rows float results st with
  | Ok st' =>
      AWS.pq_requests st' !! Some rid = None ∧
      ∀ val part, val ∈ results → part ∈ val →
        AWS.field part = "@message" → AWS.value part ≠ log
  | Raise _ => True
  end.
Proof.
  revert st. induction results as [|val results IH]; intros st Hmiss; simpl.
  - split; [done|]. intros val part Hin. by apply elem_of_nil in Hin.
  - pose proof (process_parts_missing val st Hmiss) as Hval.
    destruct (AWS.process_parts float val st) as [st1|]; simpl; [|done].
    destruct Hval as [Hmiss1 Hval].
    specialize (IH st1 Hmiss1).
    destruct (AWS.process_rows float results st1) as [st'|]; [|done].
    destruct IH as [IH1 IH2]. split; [done|].
    intros v p Hin Hp Hf. apply elem_of_cons in Hin as [->|Hin]; [by apply Hval|].
    by eapply IH2.
Qed.

(** Parts of other fields are passed over. *)
Lemma process_parts_skip (before rest : list AWS.result_part) (st : AWS.pq_state) :
  Forall (λ p, AWS.field p ≠ "@message") before →
  AWS.process_parts float (before ++ rest) st = AWS.process_parts float rest st.
Proof.
  induction 1 as [|p before Hp _ IH]; simpl; [done|].
  apply String.eqb_neq in Hp. by rewrite Hp.
Qed.

End MissingId.

End AwsReport.

(** C8: the call in [process_query_results] passes the requests
    dictionary itself, a [dict], so [parse_aws_report] takes the branch
    [output = requests] and the guard of the other branch is never
    consulted. For a REPORT line that parses (a request id, a [Duration]
    that is a number) and whose id is not a key of [requests], the assignment
    therefore raises [KeyError] on that id, where the guarded branch would
    have returned the id and left the argument alone; and
    [process_query_results] raises as well: the same [KeyError] when the line
    is in the first [@message] part, and in no case does it return when the
    line is in some [@message] part of the results. *)
Theorem parse_aws_report_missing_id_raises
    (float : string → result Q) (log : string) (aws_vals : gmap string string)
    (rid d : string) (t : Q)
    (requests : gmap (option string) FunctionInvocationResult) :
  AWS.parse_aws_vals log = Ok aws_vals →
  AWS.report_request_id aws_vals = Ok rid →
  aws_vals !! "Duration" = Some d →
  float d = Ok t →
  requests !! Some rid = None →
  AWS.isinstance_dict (AWS.ReqDict requests) = true ∧
  AWS.parse_aws_report float log (AWS.ReqDict requests) = Raise (KeyError (Some rid)) ∧
  (∀ m, m !! Some rid = None →
     AWS.parse_aws_report float log (AWS.ReqMapping m) = Ok (rid, AWS.ReqMapping m)) ∧
  (∀ before after rest,
     Forall (λ p, AWS.field p ≠ "@message") before →
     AWS.process_query_results float
       ((before ++ AWS.mkPart "@message" log :: after) :: rest) requests
     = Raise (KeyError (Some rid))) ∧
  (∀ results val part,
     val ∈ results → part ∈ val →
     AWS.field part = "@message" → AWS.value part = log →
     is_ok (AWS.process_query_results float results requests) = false).
Proof.
  intros Hvals Hrid Hd Ht Hmiss.
  split; [done|]. split; [by eapply parse_dict_raises|].
  split; [intros m Hm; by eapply parse_mapping_skips|]. split.
  - intros before after rest Hbefore.
    unfold AWS.process_query_results. simpl.
    rewrite process_parts_skip by done. simpl.
    by rewrite (parse_dict_raises float log aws_vals rid d t Hvals Hrid Hd Ht).
  - intros results val part Hval Hpart Hfield Hvalue.
    unfold AWS.process_query_results.
    pose proof (process_rows_missing float log aws_vals rid d t Hvals Hrid Hd Ht
                  results (AWS.mkPq 0 (dom requests) requests) Hmiss) as H.
    destruct (AWS.process_rows float results _) as [st'|]; [|done].
    destruct H as [_ H]. by destruct (H val part).
Qed.

(** ** Reconciliation without a match *)

Section AzureUnmatched.

Import ReconcilerSpec.

Variable float : string → result Q.
Variable query : nat → list Azure.row.
Variable retry_interval : Z.

Lemma azure_rows_unmatched (rows : list Azure.row) (processed : gset (option string))
    (requests : gmap (option string) FunctionInvocationResult) :
  (∀ row, row ∈ rows → requests !! Azure.invocation_id row = None) →
  Azure.process_rows float rows processed requests = Ok (processed, requests).
Proof.
  induction rows as [|row rows IH]; intros Hrows; simpl; [done|].
  rewrite (Hrows row) by left. apply IH. intros r Hr. apply Hrows. by right.
Qed.

Lemma len_empty_iff (requests : gmap (option string) FunctionInvocationResult) :
  len requests = 0%nat ↔ requests = ∅.
Proof. unfold len. apply map_size_empty_iff. Qed.

Lemma concat_replicate_S {A : Type} (k : nat) (x : list A) :
  concat (replicate (S k) x) = x ++ concat (replicate k x).
Proof. reflexivity. Qed.

(** The loop, one attempt unfolded. *)
Lemma retry_loop_S (remaining retries : nat)
    (processed to_process : gset (option string))
    (requests : gmap (option string) FunctionInvocationResult) (trace : list event) :
  Azure.retry_loop float query retry_interval (S remaining) retries processed to_process
    requests trace
  = if (size processed <? len requests)%nat then
      r ← Azure.process_rows float (query retries) processed requests;
      let trace' := trace ++ [EvQuery; EvLogInfoFound (size r.1) (len r.2)] in
      if (size r.1 <? len r.2)%nat then
        Azure.retry_loop float query retry_interval remaining (S retries) r.1 to_process
          r.2 (trace' ++ [EvLogInfoMissing (to_process ∖ r.1); EvSleep retry_interval])
      else Ok (r.1, r.2, trace')
    else Ok (processed, requests, trace).
Proof. reflexivity. Qed.

Lemma bind_ok {A B : Type} (a : A) (k : A → result B) : (Ok a ≫= k) = k a.
Proof. reflexivity. Qed.

Lemma azure_loop_unmatched (requests : gmap (option string) FunctionInvocationResult)
    (remaining retries : nat) (trace : list event) :
  (∀ n row, row ∈ query n → requests !! Azure.invocation_id row = None) →
  Azure.retry_loop float query retry_interval remaining retries ∅ (dom requests)
    requests trace
  = Ok (∅, requests,
        trace ++ concat (replicate (unmatched_attempts remaining requests)
                           (unmatched_round (dom requests) (len requests)
                              retry_interval))).
Proof.
  intros Hq. unfold unmatched_attempts.
  destruct (decide (requests = ∅)) as [Hempty|Hne].
  - simpl concat. rewrite app_nil_r. destruct remaining; [done|].
    rewrite retry_loop_S, size_empty. apply len_empty_iff in Hempty. by rewrite Hempty.
  - assert (Hlt : (0 <? len requests)%nat = true).
    { apply Nat.ltb_lt. rewrite <- len_empty_iff in Hne. lia. }
    revert retries trace. induction remaining as [|remaining IH]; intros retries trace.
    + simpl. by rewrite app_nil_r.
    + rewrite retry_loop_S, size_empty, Hlt.
      rewrite (azure_rows_unmatched _ _ _ (Hq retries)), bind_ok.
      cbn [fst snd]. rewrite size_empty, Hlt, IH. f_equal.
      rewrite difference_empty_L, concat_replicate_S.
      rewrite <- !app_assoc. reflexivity.
Qed.

Lemma queries_unmatched_rounds (ids : gset (option string)) (total k : nat) :
  count_events is_query (concat (replicate k (unmatched_round ids total retry_interval)))
  = k.
Proof.
  induction k as [|k IH]; [done|].
  rewrite concat_replicate_S, count_events_app, IH. reflexivity.
Qed.

Lemma slept_unmatched_rounds (ids : gset (option string)) (total k : nat) :
  slept (concat (replicate k (unmatched_round ids total retry_interval)))
  = Z.of_nat k * retry_interval.
Proof.
  induction k as [|k IH]; [done|].
  rewrite concat_replicate_S, slept_app, IH. simpl slept. lia.
Qed.

End AzureUnmatched.

(** ** Reconciliation with a partial match *)

Section Matched.

Import ReconcilerSpec.

Variable float : string → result Q.

(** The entry loop in terms of what it reads from the first entry. *)
Lemma process_entries_cons (e : GCP.entry) (logs : list GCP.entry)
    (processed ids : gset (option string))
    (requests : gmap (option string) FunctionInvocationResult) :
  GCP.process_entries float (e :: logs) processed ids requests
  = match gcp_read_entry float e with
    | Raise x => Raise x
    | Ok None => GCP.process_entries float logs processed ids requests
    | Ok (Some (inv, duration)) =>
        if decide (Some inv ∈ ids) then
          match requests !! Some inv with
          | Some r =>
              GCP.process_entries float logs ({[Some inv]} ∪ processed) ids
                (<[Some inv := set_provider_time duration r]> requests)
          | None => Raise (KeyError (Some inv))
          end
        else GCP.process_entries float logs processed ids requests
    end.
Proof.
  unfold gcp_read_entry. simpl GCP.process_entries.
  destruct (GCP.is_LogEntry e); simpl negb; cbn iota; [|done].
  destruct (GCP.trace e) as [[|ch t]|]; [done| |done].
  destruct (GCP.invocation_id_of (String ch t)) as [inv|]; [|done].
  rewrite !bind_ok.
  destruct (GCP.latency_of e) as [l|]; [|done]. rewrite !bind_ok.
  destruct (float (rstrip "s" l)) as [duration|]; [|done]. by rewrite !bind_ok.
Qed.

Lemma gcp_matched_cons (e : GCP.entry) (logs : list GCP.entry)
    (ids : gset (option string)) :
  gcp_matched float (e :: logs) ids
  = match gcp_match float ids e with
    | Some k => {[k]} ∪ gcp_matched float logs ids
    | None => gcp_matched float logs ids
    end.
Proof. unfold gcp_matched. simpl. by destruct (gcp_match float ids e). Qed.

(** The entry loop of GCP on entries that it can read: it returns, the
    processed set grows by the matched ids, a matched record is the old one
    with a provider time, and every other record is untouched. *)
Lemma gcp_entries_spec (logs : list GCP.entry) (processed ids : gset (option string))
    (requests : gmap (option string) FunctionInvocationResult) :
  Forall (λ e, is_ok (gcp_read_entry float e) = true) logs →
  dom requests = ids →
  ∃ requests',
    GCP.process_entries float logs processed ids requests
      = Ok (processed ∪ gcp_matched float logs ids, requests') ∧
    dom requests' = ids ∧
    ∀ k, (k ∈ gcp_matched float logs ids →
          ∃ r r', requests !! k = Some r ∧ requests' !! k = Some r' ∧ enriched r r') ∧
         (k ∉ gcp_matched float logs ids → requests' !! k = requests !! k).
Proof.
  intros Hok. revert processed requests.
  induction Hok as [|e logs He _ IH]; intros processed requests Hdom.
  - exists requests. unfold gcp_matched. simpl. split; [f_equal; f_equal; set_solver|].
    split; [done|]. intros k. split; [set_solver|done].
  - rewrite process_entries_cons, gcp_matched_cons. unfold gcp_match.
    destruct (gcp_read_entry float e) as [[[inv duration]|]|]; [|by apply IH|done].
    destruct (decide (Some inv ∈ ids)) as [Hin|Hnin]; [|by apply IH].
    rewrite <- Hdom in Hin. apply elem_of_dom in Hin as [r0 Hr0]. rewrite Hr0.
    destruct (IH ({[Some inv]} ∪ processed)
                 (<[Some inv := set_provider_time duration r0]> requests))
      as (requests' & Hrun & Hdom' & Hk).
    { rewrite dom_insert_L, <- Hdom. apply elem_of_dom_2 in Hr0. set_solver. }
    exists requests'. split; [|split; [done|]].
    + rewrite Hrun. f_equal. f_equal. set_solver.
    + intros k. destruct (Hk k) as [Hk1 Hk2]. split.
      * intros Hkin.
        destruct (decide (k ∈ gcp_matched float logs ids)) as [Hm|Hm].
        -- destruct (Hk1 Hm) as (r & r' & Hr & Hr' & [t' ->]).
           destruct (decide (k = Some inv)) as [->|Hne].
           ++ rewrite lookup_insert_eq in Hr. injection Hr as <-.
              exists r0, (set_provider_time t' r0). repeat split; try done.
              by exists t'.
           ++ rewrite lookup_insert_ne in Hr by done.
              exists r, (set_provider_time t' r). repeat split; try done. by exists t'.
        -- assert (k = Some inv) as -> by set_solver.
           rewrite (Hk2 Hm), lookup_insert_eq.
           exists r0, (set_provider_time duration r0). repeat split; try done.
           by exists duration.
      * intros Hkout. rewrite Hk2 by set_solver.
        apply lookup_insert_ne. set_solver.
Qed.

Lemma azure_matched_cons (row : Azure.row) (rows : list Azure.row)
    (ids : gset (option string)) :
  azure_matched (row :: rows) ids
  = if decide (Azure.invocation_id row ∈ ids)
    then {[Azure.invocation_id row]} ∪ azure_matched rows ids
    else azure_matched rows ids.
Proof.
  unfold azure_matched. simpl. destruct (decide (Azure.invocation_id row ∈ ids)).
  - by rewrite bool_decide_eq_true_2.
  - by rewrite bool_decide_eq_false_2.
Qed.

(** The row loop of Azure on rows that it can process. *)
Lemma azure_rows_spec (rows : list Azure.row) (processed ids : gset (option string))
    (requests : gmap (option string) FunctionInvocationResult) :
  Forall (λ row, azure_row_ok float ids row = true) rows →
  dom requests = ids →
  ∃ requests',
    Azure.process_rows float rows processed requests
      = Ok (processed ∪ azure_matched rows ids, requests') ∧
    dom requests' = ids ∧
    ∀ k, (k ∈ azure_matched rows ids →
          ∃ r r', requests !! k = Some r ∧ requests' !! k = Some r' ∧ enriched r r') ∧
         (k ∉ azure_matched rows ids → requests' !! k = requests !! k).
Proof.
  intros Hok. revert processed requests.
  induction Hok as [|row rows Hrow _ IH]; intros processed requests Hdom.
  - exists requests. unfold azure_matched. simpl.
    split; [f_equal; f_equal; set_solver|].
    split; [done|]. intros k. split; [set_solver|done].
  - rewrite azure_matched_cons. simpl Azure.process_rows.
    unfold azure_row_ok in Hrow.
    destruct (decide (Azure.invocation_id row ∈ ids)) as [Hin|Hnin].
    2:{ rewrite <- Hdom in Hnin. apply not_elem_of_dom in Hnin. rewrite Hnin.
        by apply IH. }
    pose proof Hin as Hin'.
    rewrite <- Hdom in Hin'. apply elem_of_dom in Hin' as [r0 Hr0]. rewrite Hr0.
    destruct (Azure.func_exec_time row) as [s|]; [|done].
    destruct (float s) as [t|]; [|done]. rewrite bind_ok.
    destruct (IH ({[Azure.invocation_id row]} ∪ processed)
                 (<[Azure.invocation_id row := set_provider_time (t / 1000)%Q r0]>
                    requests))
      as (requests' & Hrun & Hdom' & Hk).
    { rewrite dom_insert_L, <- Hdom. apply elem_of_dom_2 in Hr0. set_solver. }
    exists requests'. split; [|split; [done|]].
    + rewrite Hrun. f_equal. f_equal. set_solver.
    + intros k. destruct (Hk k) as [Hk1 Hk2]. split.
      * intros Hkin.
        destruct (decide (k ∈ azure_matched rows ids)) as [Hm|Hm].
        -- destruct (Hk1 Hm) as (r & r' & Hr & Hr' & [t' ->]).
           destruct (decide (k = Azure.invocation_id row)) as [->|Hne].
           ++ rewrite lookup_insert_eq in Hr. injection Hr as <-.
              exists r0, (set_provider_time t' r0). repeat split; try done.
              by exists t'.
           ++ rewrite lookup_insert_ne in Hr by done.
              exists r, (set_provider_time t' r). repeat split; try done. by exists t'.
        -- assert (k = Azure.invocation_id row) as -> by set_solver.
           rewrite (Hk2 Hm), lookup_insert_eq.
           exists r0, (set_provider_time (t / 1000)%Q r0). repeat split; try done.
           by exists (t / 1000)%Q.
      * intros Hkout. rewrite Hk2 by set_solver.
        apply lookup_insert_ne. set_solver.
Qed.

End Matched.

Section Three.

Import ReconcilerSpec.






End Three.

Section PartialMatch.

Import ReconcilerSpec.

Variable float : string → result Q.

Lemma gcp_enrich_cons (e : GCP.entry) (logs : list GCP.entry)
    (requests : gmap (option string) FunctionInvocationResult) :
  GCP.enrich_metrics float (Some (e :: logs)) requests
  = r ← GCP.process_entries float (e :: logs) ∅ (dom requests) requests;
    if (size r.1 <? len r.2)%nat then
      Ok (r.2, [EvSleep 60; EvQuery; EvLogInfoFound (size r.1) (len r.2);
                EvLogInfoMissing (dom requests ∖ r.1)])
    else Ok (r.2, [EvSleep 60; EvQuery; EvLogInfoFound (size r.1) (len r.2)]).
Proof. reflexivity. Qed.


End PartialMatch.




(** The same scenario on Azure with one attempt: the closing warning
    counts one invocation. *)
Lemma azure_partial_match_one_attempt :
  snd <$> Azure.enrich_metrics_with Examples.float Examples.azure_rows_ab 1 10
            (ReconcilerSpec.three "a" "b" "c" (Examples.record_of "a")
               (Examples.record_of "b") (Examples.record_of "c"))
    = Ok [EvSleep 100; EvQuery; EvLogInfoFound 2 3; EvLogInfoMissing {[Some "c"]};
          EvSleep 10; EvLogWarning 1 1].
Proof. vm_compute. reflexivity. Qed.

(** A REPORT line of an earlier run inside the query window. *)
Lemma parse_aws_report_missing_id_raises_witness :
  AWS.parse_aws_report Examples.float (Examples.report_line "r-old")
    (AWS.ReqDict {[Some "r-1" := Examples.record_of "r-1"]})
  = Raise (KeyError (Some "r-old")).
Proof.
  apply (parse_aws_report_missing_id_raises Examples.float
           (Examples.report_line "r-old") (Examples.report_vals "r-old")
           "r-old" "12.34" (1234 # 100)
           {[Some "r-1" := Examples.record_of "r-1"]});
    vm_compute; reflexivity.
Defined.

(** ** AWS: the loop without a bound *)

Section AwsLoop.

Variable float : string → result Q.
Variable query : nat → list (list AWS.result_part).

(** As long as the queries return nothing, the loop of AWS goes on: with a
    pending record, no amount of fuel brings it to an end. *)
Lemma aws_query_loop_unbounded (fuel attempt : nat)
    (requests : gmap (option string) FunctionInvocationResult) (trace : list event) :
  (∀ n, query n = []) →
  requests ≠ ∅ →
  AWS.query_loop float query fuel attempt (len requests) 0 requests trace = None.
Proof.
  intros Hq Hne.
  assert (Hlt : (0 <? len requests)%nat = true).
  { apply Nat.ltb_lt. rewrite <- len_empty_iff in Hne. lia. }
  revert attempt trace. induction fuel as [|fuel IH]; intros attempt trace; simpl.
  - by rewrite Hlt.
  - rewrite Hlt, Hq. unfold AWS.process_query_results. simpl. rewrite Hlt. apply IH.
Qed.

Lemma aws_enrich_metrics_unbounded (fuel : nat)
    (requests : gmap (option string) FunctionInvocationResult) :
  (∀ n, query n = []) →
  requests ≠ ∅ →
  AWS.enrich_metrics float query fuel requests = None.
Proof. intros Hq Hne. unfold AWS.enrich_metrics. by apply aws_query_loop_unbounded. Qed.

End AwsLoop.

(** ** Reconciliation without a match: the bound *)

(** C2, as amended: Azure's reconciler runs under a bounded policy
    ([max_retries] attempts, [retry_interval] between them; 10 and 10 s in
    the code). When no row that a query returns belongs to a pending record,
    the call returns: it makes [max_retries] queries (none for an empty
    record set), logs the whole key set as missing after each, and sleeps
    the opening delay of 100 s and [retry_interval] after each query, that
    is at most [100 + max_retries * retry_interval] in all; the records come
    back as they were, and the closing warning counts every id. The
    reconciler of AWS has no attempt cap: while its queries return nothing
    it does not return. *)
Theorem azure_unmatched_terminates
    (float : string → result Q) (query : nat → list Azure.row)
    (max_retries : nat) (retry_interval : Z)
    (requests : gmap (option string) FunctionInvocationResult) :
  ((∀ n row, row ∈ query n → requests !! Azure.invocation_id row = None) →
   ∃ k tr,
     (k ≤ max_retries)%nat ∧
     k = ReconcilerSpec.unmatched_attempts max_retries requests ∧
     Azure.enrich_metrics_with float query max_retries retry_interval requests
       = Ok (requests, tr) ∧
     tr = [EvSleep 100]
          ++ concat (replicate k (ReconcilerSpec.unmatched_round (dom requests)
                                    (len requests) retry_interval))
          ++ ReconcilerSpec.unmatched_warning max_retries requests ∧
     count_events is_query tr = k ∧
     slept tr = 100 + Z.of_nat k * retry_interval ∧
     (0 ≤ retry_interval → slept tr ≤ 100 + Z.of_nat max_retries * retry_interval)) ∧
  (∀ aws_query : nat → list (list AWS.result_part),
     requests ≠ ∅ → (∀ n, aws_query n = []) →
     ∀ fuel, AWS.enrich_metrics float aws_query fuel requests = None).
Proof.
  split.
  - intros Hq.
    pose proof (azure_loop_unmatched float query retry_interval requests max_retries 0
                  [EvSleep 100] Hq) as Hloop.
    assert (Hk : (ReconcilerSpec.unmatched_attempts max_retries requests
                  ≤ max_retries)%nat).
    { unfold ReconcilerSpec.unmatched_attempts. destruct (decide _); lia. }
    assert (Hw : count_events is_query (ReconcilerSpec.unmatched_warning max_retries
                                          requests) = 0%nat
                 ∧ slept (ReconcilerSpec.unmatched_warning max_retries requests) = 0).
    { unfold ReconcilerSpec.unmatched_warning. by destruct (decide _). }
    destruct Hw as [Hwq Hws].
    exists (ReconcilerSpec.unmatched_attempts max_retries requests),
      ([EvSleep 100]
       ++ concat (replicate (ReconcilerSpec.unmatched_attempts max_retries requests)
                    (ReconcilerSpec.unmatched_round (dom requests) (len requests)
                       retry_interval))
       ++ ReconcilerSpec.unmatched_warning max_retries requests).
    split; [exact Hk|]. split; [reflexivity|]. split; [|split].
    + unfold Azure.enrich_metrics_with. rewrite Hloop, bind_ok. cbn [fst snd].
      unfold ReconcilerSpec.unmatched_warning.
      rewrite size_empty. destruct (decide (requests = ∅)) as [->|Hne].
      * reflexivity.
      * assert (Hlt : (0 <? len requests)%nat = true).
        { apply Nat.ltb_lt. rewrite <- len_empty_iff in Hne. lia. }
        rewrite Hlt, difference_empty_L, size_dom, <- app_assoc. reflexivity.
    + reflexivity.
    + rewrite !count_events_app, !slept_app, queries_unmatched_rounds,
        slept_unmatched_rounds, Hwq, Hws.
      split; [unfold count_events; simpl; lia|].
      split; [simpl slept; lia|].
      intros Hi. simpl slept. nia.
  - intros aws_query Hne Hq fuel. by apply aws_enrich_metrics_unbounded.
Qed.

(** The policy of the code, ten attempts 10 s apart, one pending record and
    rows of another run only. *)
Lemma azure_unmatched_terminates_witness :
  ∃ tr,
    Azure.enrich_metrics_with Examples.float Examples.foreign_rows 10 10
      {[Some "r-1" := Examples.record_of "r-1"]}
    = Ok ({[Some "r-1" := Examples.record_of "r-1"]}, tr) ∧
    count_events is_query tr = 10%nat ∧
    slept tr = 200.
Proof.
  destruct (proj1 (azure_unmatched_terminates Examples.float Examples.foreign_rows 10 10
                     {[Some "r-1" := Examples.record_of "r-1"]}))
    as (k & tr & _ & Hk & Hrun & _ & Hq & Hs & _).
  - intros n row Hrow. unfold Examples.foreign_rows in Hrow.
    apply elem_of_cons in Hrow as [->|Hrow]; [reflexivity|].
    apply elem_of_cons in Hrow as [->|Hrow]; [reflexivity|].
    by apply elem_of_nil in Hrow.
  - exists tr. split; [exact Hrun|].
    assert (Hten : k = 10%nat) by (rewrite Hk; vm_compute; reflexivity).
    rewrite Hq, Hs, Hten. split; reflexivity.
Defined.

(** C2 as stated fails on the code. With the constants of the code and
    one pending record that no row matches, Azure's reconciler makes its ten
    attempts and sleeps 200 s, not the 100 s of [maxAttempts * interval]:
    the opening delay comes on top. And the reconciler of AWS, given queries
    that return nothing, does not return however long it is followed. *)
Lemma unmatched_reconciliation_outlasts_budget :
  (∃ tr,
     Azure.enrich_metrics Examples.float Examples.foreign_rows
       {[Some "r-1" := Examples.record_of "r-1"]}
     = Ok ({[Some "r-1" := Examples.record_of "r-1"]}, tr) ∧
     count_events is_query tr = 10%nat ∧
     slept tr = 200 ∧
     ¬ slept tr ≤ 10 * 10) ∧
  (∀ fuel,
     AWS.enrich_metrics Examples.float (λ _, []) fuel
       {[Some "r-1" := Examples.record_of "r-1"]} = None).
Proof.
  split.
  - eexists. split; [vm_compute; reflexivity|].
    split; [vm_compute; reflexivity|]. split; [vm_compute; reflexivity|].
    vm_compute. intros H. by apply H.
  - intros fuel. apply aws_enrich_metrics_unbounded; [done|].
    apply insert_non_empty.
Qed.

(** ** Strings: numerals, cutting and joining *)

Lemma uint_chars (d : Decimal.uint) (c : ascii) :
  contains c (NilEmpty.string_of_uint d) = true →
  (48 ≤ nat_of_ascii c ≤ 57)%nat.
Proof.
  induction d as [|d IH|d IH|d IH|d IH|d IH|d IH|d IH|d IH|d IH|d IH];
    cbn [NilEmpty.string_of_uint contains]; intros H; try discriminate;
    apply orb_true_iff in H as [H|H]; auto;
    apply Ascii.eqb_eq in H; subst c; split; apply Nat.leb_le; reflexivity.
Qed.

Lemma str_chars (n : Z) (c : ascii) :
  contains c (str n) = true → c = "-"%char ∨ (48 ≤ nat_of_ascii c ≤ 57)%nat.
Proof.
  unfold str, NilZero.string_of_int, NilZero.string_of_uint.
  destruct (Z.to_int n) as [d|d].
  - destruct d; cbn [contains]; intros H; right;
      try (apply orb_true_iff in H as [H|H];
           [apply Ascii.eqb_eq in H; subst c; split; apply Nat.leb_le; reflexivity | by apply uint_chars in H]).
    apply orb_true_iff in H as [H|H]; [|discriminate].
    apply Ascii.eqb_eq in H; subst c; split; apply Nat.leb_le; reflexivity.
  - cbn [contains]. intros H. apply orb_true_iff in H as [H|H].
    + left. by apply Ascii.eqb_eq in H.
    + right. destruct d; cbn [contains] in H;
        try (apply orb_true_iff in H as [H|H];
             [apply Ascii.eqb_eq in H; subst c; split; apply Nat.leb_le; reflexivity | by apply uint_chars in H]).
      apply orb_true_iff in H as [H|H]; [|discriminate].
      apply Ascii.eqb_eq in H; subst c; split; apply Nat.leb_le; reflexivity.
Qed.

Lemma str_without (n : Z) (c : ascii) :
  c ≠ "-"%char → ¬ (48 ≤ nat_of_ascii c ≤ 57)%nat → contains c (str n) = false.
Proof.
  intros Hm Hd. destruct (contains c (str n)) eqn:E; [|reflexivity].
  apply str_chars in E as [E|E]; contradiction.
Qed.

Lemma str_inj (a b : Z) : str a = str b → a = b.
Proof.
  intros H. assert (Hab : int (str a) = int (str b)) by (by rewrite H).
  rewrite !int_str in Hab. by injection Hab.
Qed.

Lemma contains_app (c : ascii) (a b : string) :
  contains c (a ++ b) = contains c a || contains c b.
Proof.
  induction a as [|x a IH]; simpl; [reflexivity|].
  by rewrite IH, orb_assoc.
Qed.

Lemma cut_at_char (c : ascii) (a a' x x' : string) :
  contains c a = false → contains c a' = false →
  (a ++ String c x = a' ++ String c x')%string → a = a' ∧ x = x'.
Proof.
  revert a'. induction a as [|y a IH]; intros [|y' a'] Ha Ha' H; simpl in *.
  - by injection H.
  - injection H as -> _. by rewrite Ascii.eqb_refl in Ha'.
  - injection H as -> _. by rewrite Ascii.eqb_refl in Ha.
  - injection H as -> H.
    apply orb_false_iff in Ha as [_ Ha]. apply orb_false_iff in Ha' as [_ Ha'].
    destruct (IH a' Ha Ha' H) as [-> ->]. done.
Qed.

Lemma split_cons_sep (sep : ascii) (s : string) :
  Py.split sep (String sep s) = EmptyString :: Py.split sep s.
Proof. simpl. by rewrite Ascii.eqb_refl. Qed.

Lemma split_app (sep : ascii) (a b : string) :
  Py.split sep (a ++ String sep b) = Py.split sep a ++ Py.split sep b.
Proof.
  induction a as [|c a IH].
  - simpl. by rewrite Ascii.eqb_refl.
  - simpl. rewrite IH. destruct (Ascii.eqb c sep); [reflexivity|].
    destruct (Py.split sep a) as [|w ws] eqn:E; [|reflexivity].
    by apply split_nonempty in E.
Qed.

Lemma split_without (sep : ascii) (s : string) :
  contains sep s = false → Py.split sep s = [s].
Proof.
  induction s as [|c s IH]; simpl; [reflexivity|].
  intros H. apply orb_false_iff in H as [Hc Hs].
  rewrite Hc, (IH Hs). reflexivity.
Qed.

Lemma split_app_without (sep : ascii) (a b : string) :
  contains sep a = false →
  Py.split sep (a ++ String sep b) = a :: Py.split sep b.
Proof. intros H. by rewrite split_app, (split_without _ _ H). Qed.

Lemma join_split (sep : ascii) (s : string) :
  join (String sep EmptyString) (Py.split sep s) = s.
Proof.
  induction s as [|c s IH]; [reflexivity|].
  cbn [Py.split]. destruct (Ascii.eqb_spec c sep) as [->|Hne].
  - cbn [join]. destruct (Py.split sep s) as [|w ws] eqn:E.
    + by apply split_nonempty in E.
    + by rewrite IH.
  - destruct (Py.split sep s) as [|w ws] eqn:E.
    + by apply split_nonempty in E.
    + rewrite <- IH. cbn [join]. by destruct ws.
Qed.

Lemma string_app_cons (x : ascii) (a b : string) :
  (String x a ++ b)%string = String x (a ++ b).
Proof. reflexivity. Qed.

Lemma string_app_assoc (a b c : string) : ((a ++ b) ++ c = a ++ (b ++ c))%string.
Proof.
  induction a as [|x a IH]; [reflexivity|].
  by rewrite !string_app_cons, IH.
Qed.

Lemma string_app_nil_r (a : string) : (a ++ "")%string = a.
Proof.
  induction a as [|x a IH]; [reflexivity|].
  by rewrite string_app_cons, IH.
Qed.

Lemma split_join (sep : ascii) (segs : list string) :
  segs ≠ [] → Forall (λ w, contains sep w = false) segs →
  Py.split sep (join (String sep EmptyString) segs) = segs.
Proof.
  induction segs as [|x rest IH]; [done|]. intros _ Hall.
  inversion Hall as [|? ? Hx Hrest]; subst.
  destruct rest as [|y rest].
  - simpl. by apply split_without.
  - change (join (String sep "") (x :: y :: rest))
      with (x ++ String sep (join (String sep "") (y :: rest)))%string.
    rewrite split_app_without by exact Hx.
    by rewrite IH.
Qed.


(** ** The runner: calls that never count, calls without an id *)

Lemma cold_loop_all_warm
    (json_loads : string → option JSON) (prov : string) (native : bool)
    (repetitions : Z) (outcomes : list Benchmarker.HttpOutcome)
    (st : Benchmarker.run_state) :
  Benchmarker.cold_start_counter st < repetitions →
  RunnerSpec.well_configured (Benchmarker.run_cloud st) →
  Forall (λ o, ∃ r, RunnerSpec.verdict json_loads prov o = Some (r, false)) outcomes →
  Benchmarker.cold_loop json_loads prov native repetitions outcomes st = None.
Proof.
  revert st. induction outcomes as [|o rest IH]; intros st Hlt Hwc Hall.
  - simpl. by rewrite (proj2 (Z.ltb_lt _ _) Hlt).
  - rewrite cold_loop_cons, (proj2 (Z.ltb_lt _ _) Hlt).
    destruct (enforce_ok prov native _ Hwc) as (c' & -> & Hwc').
    inversion Hall as [|? ? [r Hv] Hrest]; subst.
    unfold RunnerSpec.verdict in Hv.
    destruct (Benchmarker.invoke_function json_loads prov o) as [r0|]; [|discriminate].
    destruct (get (response_body r0) "is_cold") as [v|]; [|discriminate].
    injection Hv as _ Ht. rewrite Ht. simpl.
    apply IH; simpl; auto.
Qed.

(** X1. The cold loop of [start_run] has no attempt cap: as long as every
    answer fails the cold check (its body is a JSON object whose [is_cold] is
    absent or falsy, an empty body included), the loop asks for another call
    after each of them, whatever their number, and the run never reaches the
    reconciliation. *)
Theorem cold_loop_never_gives_up
    (json_loads : string → option JSON) (prov : string) (native : bool)
    (repetitions : Z) (c : Benchmarker.cloud)
    (outcomes : list Benchmarker.HttpOutcome) :
  0 < repetitions →
  RunnerSpec.well_configured c →
  Forall (λ o, ∃ r, RunnerSpec.verdict json_loads prov o = Some (r, false)) outcomes →
  Benchmarker.cold_run json_loads prov native repetitions c outcomes = None.
Proof.
  intros Hrep Hwc Hall. unfold Benchmarker.cold_run.
  apply cold_loop_all_warm; simpl; auto.
Qed.

Lemma cold_loop_never_gives_up_witness :
  Benchmarker.cold_run Examples.json_loads "aws" false 1 RunnerSpec.fresh_cloud
    [Examples.warm_call "r-1";
     Benchmarker.HttpResponse (Examples.aws_headers "r-2") "" 1300000 1400000] = None.
Proof.
  apply cold_loop_never_gives_up;
    [lia | apply fresh_cloud_well_configured | repeat constructor; eexists; vm_compute; reflexivity].
Defined.

(** X2. A response without its provider's request id header: for gcp the
    missing header makes [_get_request_id] fail on [None.split], which
    [invoke_function] turns into [exit(-1)], so a cold run ends there; for
    aws, azure and knative the call succeeds and the record carries the
    request id [None]. *)
Theorem invoke_function_without_id_header
    (json_loads : string → option JSON) (headers : string → option string)
    (data : string) (t0 t1 : Z) :
  (∀ name, headers name = None) →
  Benchmarker.invoke_function json_loads "gcp"
    (Benchmarker.HttpResponse headers data t0 t1) = Raise (SystemExit (-1)) ∧
  (∀ native repetitions c c' rest,
     0 < repetitions →
     Benchmarker.enforce_cold_start "gcp" native c = Ok c' →
     Benchmarker.cold_run json_loads "gcp" native repetitions c
       (Benchmarker.HttpResponse headers data t0 t1 :: rest)
     = Some (Raise (SystemExit (-1)))) ∧
  (∀ prov, prov = "aws" ∨ prov = "azure" ∨ prov = "knative" →
     ∃ r, Benchmarker.invoke_function json_loads prov
            (Benchmarker.HttpResponse headers data t0 t1) = Ok r ∧
          request_id r = None ∧ client_begin r = t0 ∧ client_end r = t1).
Proof.
  intros Hnone.
  assert (Hgcp : Benchmarker.invoke_function json_loads "gcp"
            (Benchmarker.HttpResponse headers data t0 t1) = Raise (SystemExit (-1))).
  { unfold Benchmarker.invoke_function, Benchmarker._get_request_id. simpl.
    by rewrite Hnone. }
  split; [exact Hgcp|]. split.
  - intros native repetitions c c' rest Hrep Henf.
    unfold Benchmarker.cold_run. rewrite cold_loop_cons, Hgcp. simpl.
    by rewrite (proj2 (Z.ltb_lt _ _) Hrep), Henf.
  - intros prov [-> | [-> | ->]];
      unfold Benchmarker.invoke_function, Benchmarker._get_request_id; simpl;
      rewrite Hnone; eexists; (split; [reflexivity|]); simpl; auto.
Qed.

Lemma invoke_function_without_id_header_witness :
  Benchmarker.invoke_function Examples.json_loads "gcp"
    (Benchmarker.HttpResponse Examples.no_headers Examples.cold_body 2000000 2900000)
  = Raise (SystemExit (-1)).
Proof.
  apply (invoke_function_without_id_header Examples.json_loads Examples.no_headers
           Examples.cold_body 2000000 2900000).
  reflexivity.
Defined.

(** ** Result files: their names, and reading the names back *)

Lemma startswith_without (ch : ascii) (s : string) :
  contains ch s = false → startswith ch s = false.
Proof.
  destruct s as [|c s]; simpl; [reflexivity|].
  intros H. by apply orb_false_iff in H as [-> _].
Qed.

Lemma endswith_cons (ch c : ascii) (s : string) :
  s ≠ EmptyString → endswith ch (String c s) = endswith ch s.
Proof. destruct s as [|c' s]; [done|]. reflexivity. Qed.

Lemma endswith_app (ch : ascii) (a b : string) :
  b ≠ EmptyString → endswith ch (a ++ b) = endswith ch b.
Proof.
  intros Hb. induction a as [|c a IH]; [reflexivity|].
  rewrite string_app_cons, endswith_cons; [exact IH|].
  destruct a; [exact Hb|discriminate].
Qed.

Lemma endswith_contains (ch : ascii) (s : string) :
  endswith ch s = true → contains ch s = true.
Proof.
  induction s as [|c s IH]; [discriminate|].
  destruct s as [|c' s].
  - unfold endswith. simpl. intros ->. reflexivity.
  - rewrite endswith_cons by discriminate. intros H.
    change (contains ch (String c (String c' s)))
      with (Ascii.eqb c ch || contains ch (String c' s)).
    rewrite (IH H). apply orb_true_r.
Qed.

Lemma endswith_without (ch : ascii) (a b : string) :
  b ≠ EmptyString → contains ch b = false → endswith ch (a ++ b) = false.
Proof.
  intros Hb Hc. rewrite endswith_app by exact Hb.
  destruct (endswith ch b) eqn:E; [|reflexivity].
  apply endswith_contains in E. congruence.
Qed.

Lemma string_app_not_nil (a b : string) : b ≠ EmptyString → (a ++ b)%string ≠ EmptyString.
Proof. destruct a; [done|discriminate]. Qed.

(** [os.path.join] with a relative second argument: what stands between
    the two depends on the first one only. *)
Lemma path_join_relative (a b : string) :
  startswith "/" b = false →
  path_join a b
  = (a ++ (if String.eqb a "" || endswith "/" a then "" else "/") ++ b)%string.
Proof.
  intros Hb. unfold path_join. rewrite Hb.
  by destruct (String.eqb a "" || endswith "/" a).
Qed.

Lemma path_join_open (a b : string) :
  a ≠ EmptyString → endswith "/" a = false → contains "/" b = false →
  path_join a b = (a ++ String "/" b)%string.
Proof.
  intros Ha He Hb. rewrite path_join_relative by by apply startswith_without.
  rewrite He. destruct (String.eqb_spec a ""); [done|reflexivity].
Qed.

Lemma path_join_stays_open (a b : string) :
  b ≠ EmptyString → contains "/" b = false →
  path_join a b ≠ EmptyString ∧ endswith "/" (path_join a b) = false.
Proof.
  intros Hb Hc. rewrite path_join_relative by by apply startswith_without.
  rewrite <- string_app_assoc. split.
  - by apply string_app_not_nil.
  - by apply endswith_without.
Qed.

Lemma name_without_underscore (p : Benchmarker.LoadProfile) :
  contains "_" (Benchmarker.name p) = false ∧
  startswith "/" (Benchmarker.name p) = false.
Proof. by destruct p. Qed.

Lemma name_inj (p q : Benchmarker.LoadProfile) :
  Benchmarker.name p = Benchmarker.name q → p = q.
Proof. by destruct p, q. Qed.

Lemma memory_label_chars (memory : option Z) (c : ascii) :
  c ≠ "-"%char → ¬ (48 ≤ nat_of_ascii c ≤ 57)%nat →
  contains c "default" = false →
  contains c (Benchmarker.memory_label memory) = false.
Proof.
  intros Hm Hd Hc. unfold Benchmarker.memory_label.
  destruct memory as [m|]; [|exact Hc].
  destruct (m =? 0); [exact Hc|]. by apply str_without.
Qed.

Lemma str_not_default (m : Z) : str m ≠ "default".
Proof.
  intros H. assert (Hc : contains "d" (str m) = contains "d" "default") by by rewrite H.
  rewrite str_without in Hc; [discriminate|discriminate|].
  intros [Hlo Hhi]. apply Nat.leb_le in Hhi. discriminate.
Qed.

Lemma memory_label_eq (m m' : option Z) :
  Benchmarker.memory_label m = Benchmarker.memory_label m'
  ↔ m = m' ∨ ((m = None ∨ m = Some 0) ∧ (m' = None ∨ m' = Some 0)).
Proof.
  unfold Benchmarker.memory_label. split.
  - destruct m as [a|], m' as [b|];
      repeat match goal with
             | |- context [?x =? 0] => destruct (Z.eqb_spec x 0) as [->|?]
             end; intros H;
      try (by apply str_not_default in H);
      try (symmetry in H; by apply str_not_default in H);
      try (left; f_equal; by apply str_inj); auto 6.
  - intros [->|[[->| ->] [->| ->]]]; reflexivity.
Qed.

(** The file name inside the directory of a target. *)
Lemma results_file_split (root prov runtime bench : string)
    (lp : Benchmarker.LoadProfile) (reps : Z) (m : option Z) :
  ∃ sep,
    (sep = EmptyString ∨ sep = "/") ∧
    (∀ lp' reps' m',
       Benchmarker.results_file root prov runtime bench lp' reps' m'
       = (Benchmarker.results_dir root prov runtime bench ++ sep
          ++ Benchmarker.name lp'
          ++ String "_" (str reps' ++ String "_" (Benchmarker.memory_label m' ++ ".json")))%string).
Proof.
  exists (if String.eqb (Benchmarker.results_dir root prov runtime bench) ""
             || endswith "/" (Benchmarker.results_dir root prov runtime bench)
          then "" else "/").
  split; [destruct (_ || _); auto|].
  intros lp' reps' m'. unfold Benchmarker.results_file.
  rewrite path_join_relative.
  - reflexivity.
  - by destruct lp'.
Qed.

(** X3. Inside the directory of a target the name of the result file
    determines the load profile, the number of repetitions and the memory
    size: two runs write to the same file exactly when these agree, the
    memory sizes [None] and [0] counting as the same one (both give the label
    [default]). *)
Theorem results_file_injective
    (root prov runtime bench : string) (lp lp' : Benchmarker.LoadProfile)
    (reps reps' : Z) (m m' : option Z) :
  Benchmarker.results_file root prov runtime bench lp reps m
    = Benchmarker.results_file root prov runtime bench lp' reps' m'
  ↔ lp = lp' ∧ reps = reps' ∧
    (m = m' ∨ ((m = None ∨ m = Some 0) ∧ (m' = None ∨ m' = Some 0))).
Proof.
  split.
  - destruct (results_file_split root prov runtime bench lp reps m) as (sep & _ & Hs).
    rewrite !Hs. intros H.
    apply String.app_inj in H. apply String.app_inj in H.
    apply cut_at_char in H as [Hn H]; try apply name_without_underscore.
    apply name_inj in Hn.
    apply cut_at_char in H as [Hr H];
      try (apply str_without; [discriminate|];
           intros [Hlo Hhi]; apply Nat.leb_le in Hhi; discriminate).
    apply str_inj in Hr.
    change (Benchmarker.memory_label m ++ String "." "json"
            = Benchmarker.memory_label m' ++ String "." "json")%string in H.
    apply cut_at_char in H as [Hl _];
      try (apply memory_label_chars; [discriminate| |reflexivity];
           intros [Hlo Hhi]; apply Nat.leb_le in Hlo; discriminate).
    by apply memory_label_eq in Hl.
  - intros (-> & -> & Hm). apply memory_label_eq in Hm.
    unfold Benchmarker.results_file. by rewrite Hm.
Qed.

Lemma string_length_app (a b : string) :
  String.length (a ++ b) = (String.length a + String.length b)%nat.
Proof.
  induction a as [|c a IH]; [reflexivity|].
  rewrite string_app_cons. simpl. by rewrite IH.
Qed.

Lemma substring_all (s : string) : substring 0 (String.length s) s = s.
Proof. induction s as [|c s IH]; simpl; [reflexivity|by rewrite IH]. Qed.

Lemma substring_skip (a b : string) (m : nat) :
  substring (String.length a) m (a ++ b) = substring 0 m b.
Proof. induction a as [|c a IH]; [reflexivity|]. rewrite string_app_cons. exact IH. Qed.

Lemma endswith_str_app (a p : string) : endswith_str p (a ++ p) = true.
Proof.
  unfold endswith_str. rewrite string_length_app.
  apply andb_true_iff. split; [apply Nat.leb_le; lia|].
  replace (String.length a + String.length p - String.length p)%nat
    with (String.length a) by lia.
  rewrite substring_skip, substring_all. apply String.eqb_refl.
Qed.

Lemma replace_json_suffix (label : string) :
  contains "." label = false →
  replace ".json" "" (label ++ ".json") = label.
Proof.
  unfold replace. induction label as [|c label IH]; [reflexivity|].
  intros H. cbn [contains] in H. apply orb_false_iff in H as [Hc Hl].
  rewrite string_app_cons.
  change (replace_from ".json" "" 0 (String c (label ++ ".json")))
    with (if String.prefix ".json" (String c (label ++ ".json"))
          then ("" ++ replace_from ".json" "" 4 (label ++ ".json"))%string
          else String c (replace_from ".json" "" 0 (label ++ ".json"))).
  assert (Hp : String.prefix ".json" (String c (label ++ ".json")) = false).
  { cbn [String.prefix]. destruct (ascii_dec "." c) as [<-|Hne]; [|reflexivity].
    by rewrite Ascii.eqb_refl in Hc. }
  by rewrite Hp, (IH Hl).
Qed.

Lemma index_from_end_3 {A : Type} (l : list A) (x y z : A) :
  index_from_end 3 (l ++ [x; y; z]) = Ok x ∧
  index_from_end 2 (l ++ [x; y; z]) = Ok y ∧
  index_from_end 1 (l ++ [x; y; z]) = Ok z.
Proof. unfold index_from_end. by rewrite rev_app_distr. Qed.

(** The directory of a target, written out. *)
Lemma results_dir_open (root prov runtime bench : string) :
  prov ≠ "" → contains "/" prov = false →
  runtime ≠ "" → contains "/" runtime = false →
  bench ≠ "" → contains "/" bench = false →
  Benchmarker.results_dir root prov runtime bench
    = (((path_join root "benchmark_results" ++ String "/" prov)
          ++ String "/" runtime) ++ String "/" bench)%string ∧
  Benchmarker.results_dir root prov runtime bench ≠ "" ∧
  endswith "/" (Benchmarker.results_dir root prov runtime bench) = false.
Proof.
  intros Hp Hpc Hr Hrc Hb Hbc. unfold Benchmarker.results_dir.
  destruct (path_join_stays_open root "benchmark_results") as [H0 H0'];
    [discriminate|reflexivity|].
  destruct (path_join_stays_open (path_join root "benchmark_results") prov Hp Hpc)
    as [H1 H1'].
  destruct (path_join_stays_open
              (path_join (path_join root "benchmark_results") prov) runtime Hr Hrc)
    as [H2 H2'].
  destruct (path_join_stays_open
              (path_join (path_join (path_join root "benchmark_results") prov) runtime)
              bench Hb Hbc) as [H3 H3'].
  split; [|split; assumption].
  rewrite (path_join_open _ bench H2 H2' Hbc), (path_join_open _ runtime H1 H1' Hrc),
    (path_join_open _ prov H0 H0' Hpc).
  reflexivity.
Qed.

(** X4. The plotter reads back what the runner wrote into the path: for
    a provider, a runtime and a benchmark name that are not empty and hold
    no [/], the result file lies in the target's directory, has a name
    ending in [.json], and [read_json_files] takes from its path the
    benchmark as the function, the provider, the runtime as the execution
    type, and as memory the label that the runner put into the name. *)
Theorem ploter_reads_back_labels
    (root_path prov runtime bench_name : string) (load_profile : Benchmarker.LoadProfile)
    (repetitions : Z) (memory : option Z) :
  prov ≠ "" → contains "/" prov = false →
  runtime ≠ "" → contains "/" runtime = false →
  bench_name ≠ "" → contains "/" bench_name = false →
  ∃ file,
    Benchmarker.results_file root_path prov runtime bench_name load_profile repetitions
      memory
    = (Benchmarker.results_dir root_path prov runtime bench_name ++ "/" ++ file)%string ∧
    Ploter.file_labels (Benchmarker.results_dir root_path prov runtime bench_name) file
    = Some (Ok (Ploter.mkLabels bench_name prov (Benchmarker.memory_label memory) runtime)).
Proof.
  intros Hp Hpc Hr Hrc Hb Hbc.
  destruct (results_dir_open root_path prov runtime bench_name Hp Hpc Hr Hrc Hb Hbc)
    as (Hdir & Hne & Hend).
  exists (Benchmarker.name load_profile
          ++ String "_" (str repetitions
                         ++ String "_" (Benchmarker.memory_label memory ++ ".json")))%string.
  split.
  - unfold Benchmarker.results_file.
    rewrite path_join_relative by by destruct load_profile.
    rewrite Hend. destruct (String.eqb_spec
      (Benchmarker.results_dir root_path prov runtime bench_name) ""); [done|reflexivity].
  - unfold Ploter.file_labels.
    assert (Hjson :
      endswith_str ".json"
        (Benchmarker.name load_profile
         ++ String "_" (str repetitions
                        ++ String "_" (Benchmarker.memory_label memory ++ ".json")))
      = true).
    { change (String "_" (str repetitions
                ++ String "_" (Benchmarker.memory_label memory ++ ".json")))
        with ("_" ++ (str repetitions
                ++ ("_" ++ (Benchmarker.memory_label memory ++ ".json"))))%string.
      rewrite <- !string_app_assoc. apply endswith_str_app. }
    rewrite Hjson.
    assert (Hdot : contains "." (Benchmarker.memory_label memory) = false).
    { apply memory_label_chars; [discriminate| |reflexivity].
      intros [Hlo Hhi]. apply Nat.leb_le in Hlo. discriminate. }
    assert (Hund : contains "_" (Benchmarker.memory_label memory ++ ".json") = false).
    { rewrite contains_app, memory_label_chars; [reflexivity|discriminate| |reflexivity].
      intros [Hlo Hhi]. apply Nat.leb_le in Hhi. discriminate. }
    rewrite split_app_without by apply name_without_underscore.
    rewrite split_app_without
      by (apply str_without; [discriminate|];
          intros [Hlo Hhi]; apply Nat.leb_le in Hhi; discriminate).
    rewrite (split_without _ _ Hund).
    change (index_last [Benchmarker.name load_profile; str repetitions;
                        (Benchmarker.memory_label memory ++ ".json")%string])
      with (@Ok string (Benchmarker.memory_label memory ++ ".json")%string).
    rewrite bind_ok, (replace_json_suffix _ Hdot).
    rewrite Hdir, !split_app, (split_without _ _ Hpc), (split_without _ _ Hrc),
      (split_without _ _ Hbc), <- !app_assoc.
    cbn [app].
    destruct (index_from_end_3 (Py.split "/" (path_join root_path "benchmark_results"))
                prov runtime bench_name) as (-> & -> & ->).
    by rewrite !bind_ok.
Qed.

Lemma ploter_reads_back_labels_witness :
  ∃ file,
    Benchmarker.results_file "/bench" "aws" "jvm" "echo" Benchmarker.COLD 10 (Some 512)
    = (Benchmarker.results_dir "/bench" "aws" "jvm" "echo" ++ "/" ++ file)%string ∧
    Ploter.file_labels (Benchmarker.results_dir "/bench" "aws" "jvm" "echo") file
    = Some (Ok (Ploter.mkLabels "echo" "aws" (Benchmarker.memory_label (Some 512)) "jvm")).
Proof.
  apply (ploter_reads_back_labels "/bench" "aws" "jvm" "echo" Benchmarker.COLD 10
           (Some 512)); (discriminate || reflexivity).
Defined.

(** ** Azure: the timeout, the settings, the resource group *)

Lemma string_of_uint_not_nil (d : Decimal.uint) : NilZero.string_of_uint d ≠ "".
Proof. by destruct d. Qed.

Lemma str_not_nil (n : Z) : str n ≠ "".
Proof.
  unfold str, NilZero.string_of_int. destruct (Z.to_int n); [|discriminate].
  apply string_of_uint_not_nil.
Qed.

Lemma str_negative_long (n : Z) : n < 0 → (2 ≤ String.length (str n))%nat.
Proof.
  destruct n as [|p|p]; try lia. intros _.
  unfold str, NilZero.string_of_int. cbn [Z.to_int].
  pose proof (string_of_uint_not_nil (Pos.to_uint p)) as H.
  destruct (NilZero.string_of_uint (Pos.to_uint p)); [done|]. simpl. lia.
Qed.

(** A numeral with a zero in front reads as the same number. *)
Lemma int_zero_str (n : Z) : 0 ≤ n → int (String "0" (str n)) = Ok n.
Proof.
  intros Hn. destruct n as [|p|p]; [reflexivity| |lia].
  unfold str, NilZero.string_of_int. cbn [Z.to_int].
  pose proof (DecimalPos.Unsigned.to_uint_nonnil p) as Hnil.
  assert (Hs : NilZero.string_of_uint (Pos.to_uint p)
               = NilEmpty.string_of_uint (Pos.to_uint p))
    by (by destruct (Pos.to_uint p)).
  rewrite Hs.
  destruct (int_digits (String "0" (NilEmpty.string_of_uint (Pos.to_uint p)))
              (Decimal.D0 (Pos.to_uint p))) as [-> _].
  - discriminate.
  - cbn [list_ascii_of_string forallb]. by rewrite uint_digits.
  - cbn [NilEmpty.uint_of_string Ascii.eqb Bool.eqb]. by rewrite NilEmpty.usu.
  - change (Z.of_uint (Decimal.D0 (Pos.to_uint p)))
      with (Z.of_int (Z.to_int (Z.pos p))).
    by rewrite DecimalZ.of_to.
Qed.

Lemma format_02_int (n : Z) : int (format_02 n) = Ok n.
Proof.
  unfold format_02. destruct (Nat.ltb_spec (String.length (str n)) 2) as [Hlt|Hge].
  - apply int_zero_str. destruct (Z.lt_ge_cases n 0) as [Hneg|]; [|done].
    apply str_negative_long in Hneg. lia.
  - apply int_str.
Qed.

Lemma format_02_without (n : Z) (c : ascii) :
  c ≠ "-"%char → ¬ (48 ≤ nat_of_ascii c ≤ 57)%nat → contains c (format_02 n) = false.
Proof.
  intros Hm Hd. unfold format_02.
  destruct (String.length (str n) <? 2)%nat; [|by apply str_without].
  change ("0" ++ str n)%string with (String "0" (str n)).
  cbn [contains]. rewrite str_without by done.
  destruct (Ascii.eqb_spec "0" c) as [<-|]; [|reflexivity].
  exfalso. apply Hd. split; apply Nat.leb_le; reflexivity.
Qed.

Lemma format_02_long (n : Z) : (2 ≤ String.length (format_02 n))%nat.
Proof.
  unfold format_02. destruct (Nat.ltb_spec (String.length (str n)) 2) as [Hlt|Hge]; [|done].
  pose proof (str_not_nil n). destruct (str n); [done|]. simpl. lia.
Qed.

Lemma format_02_two (k : Z) : 0 ≤ k < 60 → String.length (format_02 k) = 2%nat.
Proof.
  intros Hk.
  assert (Hall : forallb (λ i, Nat.eqb (String.length (format_02 (Z.of_nat i))) 2)
                   (seq 0 60) = true) by (vm_compute; reflexivity).
  rewrite forallb_forall in Hall.
  specialize (Hall (Z.to_nat k)).
  rewrite Z2Nat.id in Hall by lia.
  apply Nat.eqb_eq, Hall, in_seq. lia.
Qed.

(** X5. [_convert_seconds] writes a number of seconds as three colon
    separated fields that read back as integers [H], [M] and [S] with
    [H * 3600 + M * 60 + S] the number given and [M], [S] below 60; the
    minutes and the seconds take two characters each, the hours at least two.
    This holds for a negative number as well, for which the hours carry the
    sign and the other two fields count up from it. *)
Theorem convert_seconds_reads_back (seconds : Z) :
  ∃ h m s : string,
    Azure._convert_seconds seconds = (h ++ ":" ++ m ++ ":" ++ s)%string ∧
    Py.split ":" (Azure._convert_seconds seconds) = [h; m; s] ∧
    (2 ≤ String.length h)%nat ∧ String.length m = 2%nat ∧ String.length s = 2%nat ∧
    ∃ H M S : Z,
      int h = Ok H ∧ int m = Ok M ∧ int s = Ok S ∧
      0 ≤ M < 60 ∧ 0 ≤ S < 60 ∧
      H * 3600 + M * 60 + S = seconds.
Proof.
  exists (format_02 (seconds / 3600)), (format_02 ((seconds mod 3600) / 60)),
    (format_02 (seconds mod 60)).
  assert (Hcolon : ∀ n, contains ":" (format_02 n) = false).
  { intros n. apply format_02_without; [discriminate|].
    intros [Hlo Hhi]. apply Nat.leb_le in Hhi. discriminate. }
  assert (HM : 0 ≤ (seconds mod 3600) / 60 < 60).
  { pose proof (Z.mod_pos_bound seconds 3600 ltac:(lia)).
    split; [apply Z.div_pos; lia|apply Z.div_lt_upper_bound; lia]. }
  assert (HS : 0 ≤ seconds mod 60 < 60) by (apply Z.mod_pos_bound; lia).
  split; [reflexivity|]. split.
  { change (Py.split ":"
              (format_02 (seconds / 3600)
               ++ String ":" (format_02 ((seconds mod 3600) / 60)
                              ++ String ":" (format_02 (seconds mod 60))))
            = [format_02 (seconds / 3600); format_02 ((seconds mod 3600) / 60);
               format_02 (seconds mod 60)]).
    rewrite split_app_without by apply Hcolon.
    rewrite split_app_without by apply Hcolon.
    by rewrite split_without by apply Hcolon. }
  split; [apply format_02_long|].
  split; [by apply format_02_two|]. split; [by apply format_02_two|].
  exists (seconds / 3600), ((seconds mod 3600) / 60), (seconds mod 60).
  rewrite !format_02_int. repeat split; try lia.
  pose proof (Z.div_mod seconds 3600 ltac:(lia)) as H1.
  pose proof (Z.div_mod (seconds mod 3600) 60 ltac:(lia)) as H2.
  assert (H3 : (seconds mod 3600) mod 60 = seconds mod 60).
  { pose proof (Z.mod_pos_bound (seconds mod 3600) 60 ltac:(lia)).
    apply (Z.mod_unique_pos seconds 60
             (60 * (seconds / 3600) + (seconds mod 3600) / 60)); lia. }
  lia.
Qed.

Lemma split1_app_without (sep : ascii) (a b : string) :
  contains sep a = false → split1 sep (a ++ String sep b) = [a; b].
Proof.
  induction a as [|c a IH]; intros H.
  - simpl. by rewrite Ascii.eqb_refl.
  - cbn [contains] in H. apply orb_false_iff in H as [Hc Ha].
    rewrite string_app_cons. cbn [split1]. by rewrite Hc, (IH Ha).
Qed.

Lemma split1_two (sep : ascii) (s : string) :
  contains sep s = true → ∃ a b, split1 sep s = [a; b].
Proof.
  induction s as [|c s IH]; [discriminate|].
  cbn [contains split1]. destruct (Ascii.eqb c sep); [by eauto|].
  intros H. destruct (IH H) as (a & b & ->). eauto.
Qed.

Lemma prefix_contains (c : ascii) (p s : string) :
  String.prefix p s = true → contains c p = true → contains c s = true.
Proof.
  revert p. induction s as [|b s IH]; intros [|a p]; try discriminate.
  cbn [String.prefix contains]. destruct (ascii_dec a b) as [->|]; [|discriminate].
  intros Hp Hc. apply orb_true_iff in Hc as [->|Hc]; [reflexivity|].
  rewrite (IH p Hp Hc). apply orb_true_r.
Qed.

(** Whether a part is the one for a key. *)
Lemma startswith_key (key k v : string) :
  contains "=" key = false → contains "=" k = false →
  startswith_str (key ++ "=") (k ++ String "=" v) = String.eqb k key.
Proof.
  unfold startswith_str. revert k.
  induction key as [|c key IH]; intros [|c' k] Hkey Hk.
  - change (String.prefix "=" (String "=" v) = true).
    cbn [String.prefix]. destruct (ascii_dec "=" "="); [by destruct v|done].
  - cbn [contains] in Hk. apply orb_false_iff in Hk as [Hc _].
    change (String.prefix "=" (String c' (k ++ String "=" v)) = false).
    cbn [String.prefix]. destruct (ascii_dec "=" c') as [<-|]; [|reflexivity].
    by rewrite Ascii.eqb_refl in Hc.
  - cbn [contains] in Hkey. apply orb_false_iff in Hkey as [Hc _].
    change (String.prefix (String c (key ++ "=")) (String "=" v) = false).
    cbn [String.prefix]. destruct (ascii_dec c "=") as [->|]; [|reflexivity].
    by rewrite Ascii.eqb_refl in Hc.
  - cbn [contains] in Hkey, Hk.
    apply orb_false_iff in Hkey as [_ Hkey]. apply orb_false_iff in Hk as [_ Hk].
    change (String.prefix (String c (key ++ "=")) (String c' (k ++ String "=" v))
            = String.eqb (String c' k) (String c key)).
    cbn [String.prefix String.eqb].
    destruct (ascii_dec c c') as [->|Hne].
    + rewrite Ascii.eqb_refl. by apply IH.
    + destruct (Ascii.eqb_spec c' c) as [->|]; [done|reflexivity].
Qed.

Lemma first_part_find (key : string) (parts : list (string * string)) :
  contains "=" key = false →
  Forall (λ kv, contains "=" kv.1 = false) parts →
  Azure.first_part key ((λ kv : string * string, (kv.1 ++ "=" ++ kv.2)%string) <$> parts)
  = Ok (snd <$> List.find (λ kv, String.eqb kv.1 key) parts).
Proof.
  intros Hkey. induction parts as [|[k v] rest IH]; intros Hall; [reflexivity|].
  inversion Hall as [|? ? Hk Hrest]; subst. simpl in Hk.
  cbn [fmap list_fmap Azure.first_part List.find fst snd].
  change (k ++ "=" ++ v)%string with (k ++ String "=" v)%string.
  rewrite (startswith_key key k v Hkey Hk).
  destruct (String.eqb k key).
  - by rewrite (split1_app_without "=" k v Hk).
  - by apply IH.
Qed.

(** X6. Reading a value out of a connection string gives back what was
    put in: for a string made of [key=value] parts joined by [;], with keys
    that hold no [=] and no [;] and values that hold no [;], the value found
    for a key is the value of the first part with that key, [=] signs in the
    value included (a storage account key ends in them), and [None] when no
    part has the key. *)
Theorem connection_string_value_round_trip
    (parts : list (string * string)) (key : string) :
  Forall (λ kv, contains "=" kv.1 = false ∧ contains ";" kv.1 = false
                ∧ contains ";" kv.2 = false) parts →
  contains "=" key = false →
  Azure.extract_value_from_connection_string
    (join ";" ((λ kv : string * string, (kv.1 ++ "=" ++ kv.2)%string) <$> parts)) key
  = Ok (snd <$> List.find (λ kv, String.eqb kv.1 key) parts).
Proof.
  intros Hall Hkey. unfold Azure.extract_value_from_connection_string.
  destruct parts as [|kv rest].
  - simpl. unfold startswith_str. by destruct key.
  - rewrite split_join.
    + apply first_part_find; [exact Hkey|].
      eapply Forall_impl; [exact Hall|]. by intros ? (? & _).
    + discriminate.
    + apply Forall_fmap. eapply Forall_impl; [exact Hall|].
      intros [k v] (_ & Hk & Hv). simpl in *.
      change (k ++ "=" ++ v)%string with (k ++ String "=" v)%string.
      rewrite contains_app. cbn [contains]. by rewrite Hk, Hv.
Qed.

Lemma connection_string_value_round_trip_witness :
  Azure.extract_value_from_connection_string
    (join ";" ((λ kv : string * string, (kv.1 ++ "=" ++ kv.2)%string)
                 <$> [("DefaultEndpointsProtocol", "https"); ("AccountName", "bench1");
                      ("AccountKey", "q0k9==");
                      ("EndpointSuffix", "core.windows.net")])) "AccountKey"
  = Ok (snd <$> List.find (λ kv : string * string, String.eqb kv.1 "AccountKey")
                  [("DefaultEndpointsProtocol", "https"); ("AccountName", "bench1");
                   ("AccountKey", "q0k9==");
                   ("EndpointSuffix", "core.windows.net")]).
Proof.
  apply connection_string_value_round_trip; [|reflexivity].
  repeat constructor.
Defined.

(** [extract_value_from_connection_string] never raises. *)
Lemma first_part_total (key : string) (parts : list string) :
  ∃ o, Azure.first_part key parts = Ok o.
Proof.
  induction parts as [|part rest IH]; [by eexists|].
  cbn [Azure.first_part]. destruct (startswith_str (key ++ "=") part) eqn:E; [|exact IH].
  unfold startswith_str in E.
  assert (Hc : contains "=" part = true).
  { eapply prefix_contains; [exact E|].
    rewrite contains_app. simpl. apply orb_true_r. }
  destruct (split1_two "=" part Hc) as (a & b & ->). by eexists.
Qed.

Lemma extract_value_total (connection_string key : string) :
  ∃ o, Azure.extract_value_from_connection_string connection_string key = Ok o.
Proof. apply first_part_total. Qed.

Lemma last_filter_cons {A : Type} (P : A → Prop) `{∀ x, Decision (P x)}
    (x : A) (l : list A) :
  last (filter P (x :: l))
  = match last (filter P l) with
    | Some y => Some y
    | None => if decide (P x) then Some x else None
    end.
Proof.
  rewrite filter_cons. destruct (decide (P x)); [|by destruct (last (filter P l))].
  destruct (filter P l) as [|y l'] eqn:E; [reflexivity|].
  rewrite last_cons. by destruct (last (y :: l')).
Qed.

Lemma extract_items_last_wins (items : list JSON) (settings : list (string * JSON))
    (acc : Azure.appsettings) :
  Forall2 (λ item kv, ∃ fields, item = JDict fields
                                ∧ assoc "name" fields = Some (JStr kv.1)
                                ∧ assoc "value" fields = Some kv.2) items settings →
  Forall (λ kv, kv.1 = "AzureWebJobsStorage" → ∃ cs, kv.2 = JStr cs) settings →
  ∃ n k,
    Azure.extract_items items acc
    = Ok (Azure.mkSettings n k
            (default (Azure.app_insights_instrumentation_key acc)
               (snd <$> last (filter (λ kv, kv.1 = "APPINSIGHTS_INSTRUMENTATIONKEY")
                               settings)))) ∧
    match snd <$> last (filter (λ kv, kv.1 = "AzureWebJobsStorage") settings) with
    | Some (JStr cs) =>
        Azure.extract_value_from_connection_string cs "AccountName" = Ok n ∧
        Azure.extract_value_from_connection_string cs "AccountKey" = Ok k
    | Some _ => False
    | None => n = Azure.account_name acc ∧ k = Azure.account_key acc
    end.
Proof.
  intros Hitems. revert acc.
  induction Hitems as [|item [name v] items settings (fields & -> & Hname & Hvalue) _ IH];
    intros acc Hcs.
  - exists (Azure.account_name acc), (Azure.account_key acc). by destruct acc.
  - inversion Hcs as [|? ? Hcs1 Hcs2]; subst. simpl in Hname, Hvalue, Hcs1.
    cbn [Azure.extract_items getitem_json]. rewrite Hname, Hvalue, !bind_ok.
    cbn [eq_str]. rewrite !last_filter_cons. cbn [fst].
    destruct (String.eqb_spec name "APPINSIGHTS_INSTRUMENTATIONKEY") as [->|Hn1].
    + rewrite ?bind_ok.
      destruct (IH (Azure.mkSettings (Azure.account_name acc) (Azure.account_key acc) v)
                  Hcs2) as (n & k & -> & Hnk).
      exists n, k. cbn [Azure.app_insights_instrumentation_key Azure.account_name
                        Azure.account_key] in *.
      split.
      * f_equal. f_equal.
        destruct (last (filter _ settings)) as [[? ?]|]; [reflexivity|].
        by rewrite decide_True.
      * destruct (last (filter (λ kv, kv.1 = "AzureWebJobsStorage") settings))
          as [[? ?]|]; [exact Hnk|].
        rewrite decide_False by discriminate. exact Hnk.
    + destruct (String.eqb_spec name "AzureWebJobsStorage") as [->|Hn2].
      * rewrite ?bind_ok. destruct (Hcs1 eq_refl) as [cs ->].
        destruct (extract_value_total cs "AccountName") as [n0 Hn0].
        destruct (extract_value_total cs "AccountKey") as [k0 Hk0].
        rewrite Hn0, Hk0, !bind_ok.
        destruct (IH (Azure.mkSettings n0 k0 (Azure.app_insights_instrumentation_key acc))
                    Hcs2) as (n & k & -> & Hnk).
        exists n, k. cbn [Azure.app_insights_instrumentation_key Azure.account_name
                          Azure.account_key] in *.
        split.
        -- f_equal. f_equal.
           destruct (last (filter (λ kv, kv.1 = "APPINSIGHTS_INSTRUMENTATIONKEY")
                             settings)) as [[? ?]|]; [reflexivity|].
           by rewrite decide_False by discriminate.
        -- destruct (last (filter (λ kv, kv.1 = "AzureWebJobsStorage") settings))
             as [[? ?]|]; [exact Hnk|].
           rewrite decide_True by reflexivity. cbn [fmap option_fmap option_map snd].
           destruct Hnk as [-> ->]. done.
      * destruct (IH acc Hcs2) as (n & k & -> & Hnk).
        exists n, k. split.
        -- f_equal. f_equal.
           destruct (last (filter (λ kv, kv.1 = "APPINSIGHTS_INSTRUMENTATIONKEY")
                             settings)) as [[? ?]|]; [reflexivity|].
           by rewrite decide_False.
        -- destruct (last (filter (λ kv, kv.1 = "AzureWebJobsStorage") settings))
             as [[? ?]|]; [exact Hnk|].
           by rewrite decide_False.
Qed.

(** X7. [_extract_appsettings] goes through the listed settings in order
    and the last one of a name wins: for a list of objects that each have a
    name and a value, the instrumentation key is the value of the last
    setting named [APPINSIGHTS_INSTRUMENTATIONKEY] ([None] without one), and
    the account name and key are read from the connection string of the last
    setting named [AzureWebJobsStorage] (both [None] without one); every
    other setting is passed over, and the call does not raise. *)
Theorem extract_appsettings_last_wins
    (items : list JSON) (settings : list (string * JSON)) :
  Forall2 (λ item kv, ∃ fields, item = JDict fields
                                ∧ assoc "name" fields = Some (JStr kv.1)
                                ∧ assoc "value" fields = Some kv.2) items settings →
  Forall (λ kv, kv.1 = "AzureWebJobsStorage" → ∃ cs, kv.2 = JStr cs) settings →
  ∃ n k,
    Azure._extract_appsettings (JList items)
    = Ok (Azure.mkSettings n k
            (default JNull
               (snd <$> last (filter (λ kv, kv.1 = "APPINSIGHTS_INSTRUMENTATIONKEY")
                               settings)))) ∧
    match snd <$> last (filter (λ kv, kv.1 = "AzureWebJobsStorage") settings) with
    | Some (JStr cs) =>
        Azure.extract_value_from_connection_string cs "AccountName" = Ok n ∧
        Azure.extract_value_from_connection_string cs "AccountKey" = Ok k
    | Some _ => False
    | None => n = None ∧ k = None
    end.
Proof.
  intros Hitems Hcs. unfold Azure._extract_appsettings. cbn [iter]. rewrite bind_ok.
  apply (extract_items_last_wins items settings (Azure.mkSettings None None JNull)
           Hitems Hcs).
Qed.

Lemma extract_appsettings_last_wins_witness :
  ∃ n k,
    Azure._extract_appsettings
      (JList [JDict [("name", JStr "FUNCTIONS_EXTENSION_VERSION");
                     ("slotSetting", JBool false); ("value", JStr "~4")];
              JDict [("name", JStr "AzureWebJobsStorage"); ("slotSetting", JBool false);
                     ("value", JStr "AccountName=bench1;AccountKey=q0k9==")];
              JDict [("name", JStr "APPINSIGHTS_INSTRUMENTATIONKEY");
                     ("slotSetting", JBool false); ("value", JStr "ik-1")]])
    = Ok (Azure.mkSettings n k
            (default JNull
               (snd <$> last (filter (λ kv : string * JSON,
                                        kv.1 = "APPINSIGHTS_INSTRUMENTATIONKEY")
                               [("FUNCTIONS_EXTENSION_VERSION", JStr "~4");
                                ("AzureWebJobsStorage",
                                 JStr "AccountName=bench1;AccountKey=q0k9==");
                                ("APPINSIGHTS_INSTRUMENTATIONKEY", JStr "ik-1")])))) ∧
    match snd <$> last (filter (λ kv : string * JSON, kv.1 = "AzureWebJobsStorage")
                          [("FUNCTIONS_EXTENSION_VERSION", JStr "~4");
                           ("AzureWebJobsStorage",
                            JStr "AccountName=bench1;AccountKey=q0k9==");
                           ("APPINSIGHTS_INSTRUMENTATIONKEY", JStr "ik-1")]) with
    | Some (JStr cs) =>
        Azure.extract_value_from_connection_string cs "AccountName" = Ok n ∧
        Azure.extract_value_from_connection_string cs "AccountKey" = Ok k
    | Some _ => False
    | None => n = None ∧ k = None
    end.
Proof.
  apply extract_appsettings_last_wins.
  - repeat constructor; eexists; (split; [reflexivity|split; reflexivity]).
  - repeat constructor; simpl; intros; try discriminate; by eexists.
Defined.

(** X8. The resource group is read under two different keys: [deploy]
    takes it from [resource-group] and lists the settings of the function
    app in that group, while [enforce_cold_start] and [enrich_metrics] take
    it from [resource_group] and fall back to [quarkus]. With only
    [resource-group] configured, as [deploy] wants it, the enforcement asks
    for the function app in [quarkus]. *)
Theorem azure_resource_group_keys_differ
    (azure : list (string * JSON)) (function_name g : string) :
  assoc "resource-group" azure = Some (JStr g) →
  assoc "resource_group" azure = None →
  Azure.deploy_resource_group (JDict azure) = Ok (JStr g) ∧
  Azure.appSettingsCmd function_name JNull (JStr g)
    = Ok ["az"; "functionapp"; "config"; "appsettings"; "list"; "--name"; function_name;
          "--resource-group"; g] ∧
  Azure.runtime_resource_group (JDict azure) = Ok (JStr "quarkus") ∧
  Azure.enforce_list_command (JDict azure) function_name
    = Ok (JStr <$> ["az"; "functionapp"; "config"; "appsettings"; "list"; "--name";
                    function_name; "--resource-group"; "quarkus"]).
Proof.
  intros Hdash Hunder.
  unfold Azure.deploy_resource_group, Azure.enforce_list_command,
    Azure.runtime_resource_group, get.
  rewrite Hdash, Hunder. repeat split; reflexivity.
Qed.

Lemma azure_resource_group_keys_differ_witness :
  Azure.enforce_list_command
    (JDict [("region", JStr "westeurope"); ("resource-group", JStr "bench-rg")]) "echo-fn"
  = Ok (JStr <$> ["az"; "functionapp"; "config"; "appsettings"; "list"; "--name";
                  "echo-fn"; "--resource-group"; "quarkus"]).
Proof.
  apply (azure_resource_group_keys_differ
           [("region", JStr "westeurope"); ("resource-group", JStr "bench-rg")]
           "echo-fn" "bench-rg"); reflexivity.
Defined.

(** ** AWS: reading a REPORT line *)

Lemma index0_error {A : Type} (l : list A) (e : exn) : index0 l = Raise e → e = IndexError.
Proof. destruct l; [by intros [= <-]|discriminate]. Qed.

Lemma index1_error {A : Type} (l : list A) (e : exn) : index1 l = Raise e → e = IndexError.
Proof. destruct l as [|? [|? ?]]; try discriminate; by intros [= <-]. Qed.

Lemma parse_lines_cons (line : string) (rest : list string) (aws_vals : gmap string string) :
  AWS.parse_lines (line :: rest) aws_vals
  = if isspace line then AWS.parse_lines rest aws_vals
    else
      k ← index0 (Py.split ":" line);
      v ← index1 (Py.split ":" line);
      w ← index0 (split_ws v);
      AWS.parse_lines rest (<[k := w]> aws_vals).
Proof. reflexivity. Qed.

Lemma parse_lines_error (lines : list string) (aws_vals : gmap string string) (e : exn) :
  AWS.parse_lines lines aws_vals = Raise e → e = IndexError.
Proof.
  revert aws_vals. induction lines as [|line rest IH]; intros aws_vals; [discriminate|].
  rewrite parse_lines_cons. destruct (isspace line); [apply IH|].
  destruct (index0 (Py.split ":" line)) as [k|e0] eqn:E0;
    [|intros [= <-]; by apply index0_error in E0].
  rewrite bind_ok.
  destruct (index1 (Py.split ":" line)) as [v|e1] eqn:E1;
    [|intros [= <-]; by apply index1_error in E1].
  rewrite bind_ok.
  destruct (index0 (split_ws v)) as [w|e2] eqn:E2;
    [|intros [= <-]; by apply index0_error in E2].
  rewrite bind_ok. apply IH.
Qed.

Lemma parse_lines_without_colon (lines : list string) (aws_vals : gmap string string)
    (seg : string) :
  seg ∈ lines → isspace seg = false → contains ":" seg = false →
  AWS.parse_lines lines aws_vals = Raise IndexError.
Proof.
  intros Hin Hsp Hc. revert aws_vals.
  induction lines as [|line rest IH]; intros aws_vals; [by apply elem_of_nil in Hin|].
  destruct (AWS.parse_lines (line :: rest) aws_vals) as [m|e] eqn:E;
    [|by rewrite (parse_lines_error _ _ _ E)].
  exfalso. rewrite parse_lines_cons in E.
  apply elem_of_cons in Hin as [<-|Hin].
  - rewrite Hsp, (split_without _ _ Hc) in E. discriminate.
  - destruct (isspace line); [by rewrite (IH Hin) in E|].
    destruct (index0 (Py.split ":" line)); [|discriminate]. rewrite bind_ok in E.
    destruct (index1 (Py.split ":" line)); [|discriminate]. rewrite bind_ok in E.
    destruct (index0 (split_ws _)); [|discriminate]. rewrite bind_ok in E.
    by rewrite (IH Hin) in E.
Qed.

Lemma parse_aws_report_vals_error (float : string → result Q) (log : string)
    (requests : AWS.requests_arg) (e : exn) :
  AWS.parse_aws_vals log = Raise e → AWS.parse_aws_report float log requests = Raise e.
Proof. unfold AWS.parse_aws_report. by intros ->. Qed.

(** X9. One piece of a log line, in ASCII, that is neither blank nor
    holds a colon makes [parse_aws_report] raise [IndexError] ([split[1]] of
    a one-element list), whatever the rest of the line and whatever the
    requests; the empty piece counts, so the empty log, a log that ends in a
    tab and a log with two tabs in a row all raise. No other exception comes
    out of the loop that fills [aws_vals]. *)
Theorem parse_aws_report_index_error (float : string → result Q) :
  (∀ log seg requests,
     seg ∈ Py.split "009" log → isascii seg = true →
     isspace seg = false → contains ":" seg = false →
     AWS.parse_aws_report float log requests = Raise IndexError) ∧
  (∀ requests, AWS.parse_aws_report float "" requests = Raise IndexError) ∧
  (∀ log requests,
     AWS.parse_aws_report float (log ++ String "009" "") requests = Raise IndexError) ∧
  (∀ before after requests,
     AWS.parse_aws_report float (before ++ String "009" (String "009" after)) requests
     = Raise IndexError) ∧
  (∀ log e, AWS.parse_aws_vals log = Raise e → e = IndexError).
Proof.
  assert (Hgen : ∀ log seg requests,
     seg ∈ Py.split "009" log → isascii seg = true →
     isspace seg = false → contains ":" seg = false →
     AWS.parse_aws_report float log requests = Raise IndexError).
  { intros log seg requests Hin _ Hsp Hc. apply parse_aws_report_vals_error.
    unfold AWS.parse_aws_vals. by apply (parse_lines_without_colon _ _ seg). }
  split; [exact Hgen|]. split; [|split; [|split]].
  - intros requests. apply (Hgen "" ""); [|reflexivity..].
    simpl. by constructor.
  - intros log requests. apply (Hgen _ ""); [|reflexivity..].
    rewrite split_app. apply elem_of_app. right. simpl. by constructor.
  - intros before after requests. apply (Hgen _ ""); [|reflexivity..].
    rewrite split_app, split_cons_sep. apply elem_of_app. right. by constructor.
  - intros log e. unfold AWS.parse_aws_vals. apply parse_lines_error.
Qed.

Lemma nonspace_without_tab (v : string) :
  forallb (λ c, negb (space_char c)) (list_ascii_of_string v) = true →
  contains "009" v = false.
Proof.
  induction v as [|c v IH]; [reflexivity|].
  cbn [list_ascii_of_string forallb contains]. intros H.
  apply andb_true_iff in H as [Hc Hv]. rewrite (IH Hv), orb_false_r.
  destruct (Ascii.eqb_spec c "009") as [->|]; [discriminate|reflexivity].
Qed.

Lemma split_ws_word (v u : string) :
  v ≠ "" →
  forallb (λ c, negb (space_char c)) (list_ascii_of_string v) = true →
  (u = "" ∨ ∃ c u', u = String c u' ∧ space_char c = true) →
  split_ws (v ++ u) = v :: split_ws u.
Proof.
  intros Hne Hv Hu. induction v as [|c v IH]; [done|].
  cbn [list_ascii_of_string forallb] in Hv. apply andb_true_iff in Hv as [Hc Hv].
  apply negb_true_iff in Hc.
  rewrite string_app_cons. destruct v as [|c2 v].
  - change ("" ++ u)%string with u.
    destruct Hu as [->|(c' & u' & -> & Hc')].
    + simpl. by rewrite Hc.
    + cbn [split_ws]. by rewrite Hc, Hc'.
  - cbn [list_ascii_of_string forallb] in Hv.
    pose proof Hv as Hv'. apply andb_true_iff in Hv' as [Hc2 _].
    apply negb_true_iff in Hc2.
    rewrite string_app_cons. rewrite string_app_cons in IH.
    change (split_ws (String c (String c2 (v ++ u))))
      with (if space_char c then split_ws (String c2 (v ++ u))
            else if space_char c2 then String c EmptyString :: split_ws (String c2 (v ++ u))
                 else match split_ws (String c2 (v ++ u)) with
                      | w :: ws => String c w :: ws
                      | [] => [String c EmptyString]
                      end).
    rewrite Hc, Hc2, IH; [reflexivity|discriminate|exact Hv].
Qed.

Lemma foldl_insert_reverse (pairs : list (string * string)) (m : gmap string string) :
  foldl (λ acc kv, <[kv.1 := kv.2]> acc) m pairs
  = foldr (λ kv acc, <[kv.1 := kv.2]> acc) m (reverse pairs).
Proof.
  revert m. induction pairs as [|kv pairs IH]; intros m; [reflexivity|].
  rewrite reverse_cons, foldr_app. simpl. apply IH.
Qed.

Lemma parse_lines_fields (fields : list (string * string * string))
    (rest : list string) (aws_vals : gmap string string) :
  Forall (λ f, contains ":" f.1.1 = false ∧
               f.1.2 ≠ "" ∧
               forallb (λ c, negb (space_char c)) (list_ascii_of_string f.1.2) = true ∧
               contains ":" f.1.2 = false ∧
               contains ":" f.2 = false ∧
               (f.2 = "" ∨ ∃ c u', f.2 = String c u' ∧ space_char c = true)) fields →
  AWS.parse_lines
    (((λ f : string * string * string, (f.1.1 ++ ": " ++ f.1.2 ++ f.2)%string) <$> fields)
     ++ rest) aws_vals
  = AWS.parse_lines rest
      (foldl (λ acc kv, <[kv.1 := kv.2]> acc) aws_vals (fst <$> fields)).
Proof.
  revert aws_vals. induction fields as [|[[k v] u] fields IH]; intros aws_vals Hall;
    [reflexivity|].
  inversion Hall as [|? ? (Hk & Hne & Hv & Hvc & Huc & Hu) Hrest]; subst.
  cbn [fst snd] in *.
  cbn [fmap list_fmap app fst snd foldl]. rewrite parse_lines_cons.
  change (k ++ ": " ++ v ++ u)%string with (k ++ String ":" (String " " (v ++ u)))%string.
  assert (Hsp : isspace (k ++ String ":" (String " " (v ++ u))) = false).
  { assert (Hall_sp : ∀ a b, all_space (a ++ String ":" b) = false).
    { intros a b. induction a as [|c a IHa]; [reflexivity|].
      rewrite string_app_cons. cbn [all_space]. rewrite IHa. apply andb_false_r. }
    destruct k; [reflexivity|]. exact (Hall_sp (String _ k) _). }
  rewrite Hsp, split_app_without by exact Hk.
  assert (Hrestc : contains ":" (String " " (v ++ u)) = false).
  { cbn [contains]. by rewrite contains_app, Hvc, Huc. }
  rewrite (split_without _ _ Hrestc).
  cbn [index0 index1]. rewrite !bind_ok.
  change (split_ws (String " " (v ++ u))) with (split_ws (v ++ u)).
  rewrite (split_ws_word v u Hne Hv Hu). cbn [index0]. rewrite bind_ok.
  apply (IH _ Hrest).
Qed.

(** X10. [parse_aws_report] reads a well-formed REPORT line field by
    field: for a line made of pieces [key: value unit] that are separated by
    tabs and followed by a last piece holding the newline, with keys that
    hold no colon or tab, values that are one word of ASCII text, and units
    that are empty or set off by a blank, the dictionary [aws_vals] maps
    every key to its value, a later field of the same key replacing an
    earlier one. *)
Theorem parse_aws_vals_reads_fields (fields : list (string * string * string)) :
  Forall (λ f, contains ":" f.1.1 = false ∧ contains "009" f.1.1 = false ∧
               f.1.2 ≠ "" ∧ isascii f.1.2 = true ∧
               forallb (λ c, negb (space_char c)) (list_ascii_of_string f.1.2) = true ∧
               contains ":" f.1.2 = false ∧
               contains ":" f.2 = false ∧ contains "009" f.2 = false ∧
               (f.2 = "" ∨ ∃ c u', f.2 = String c u' ∧ space_char c = true)) fields →
  AWS.parse_aws_vals
    (join (String "009" "")
       (((λ f : string * string * string, (f.1.1 ++ ": " ++ f.1.2 ++ f.2)%string)
           <$> fields) ++ [String "010" ""]))
  = Ok (list_to_map (reverse (fst <$> fields))).
Proof.
  intros Hall. unfold AWS.parse_aws_vals.
  rewrite split_join.
  - rewrite parse_lines_fields.
    + rewrite parse_lines_cons. cbn [isspace all_space AWS.parse_lines].
      change (space_char "010" && true) with true. cbv iota.
      by rewrite foldl_insert_reverse.
    + eapply Forall_impl; [exact Hall|].
      intros f (H1 & _ & H3 & _ & H4 & H5 & H6 & _ & H8). auto 8.
  - by destruct fields.
  - apply Forall_app. split; [|by repeat constructor].
    apply Forall_fmap. eapply Forall_impl; [exact Hall|].
    intros [[k v] u] (_ & Hk & _ & _ & Hv & _ & _ & Hu & _). unfold compose. cbn [fst snd] in *.
    change (k ++ ": " ++ v ++ u)%string with (k ++ String ":" (String " " (v ++ u)))%string.
    rewrite contains_app. cbn [contains].
    by rewrite Hk, contains_app, (nonspace_without_tab v Hv), Hu.
Qed.

Lemma parse_aws_vals_reads_fields_witness :
  AWS.parse_aws_vals
    (join (String "009" "")
       (((λ f : string * string * string, (f.1.1 ++ ": " ++ f.1.2 ++ f.2)%string)
           <$> [("REPORT RequestId", "r-1", ""); ("Duration", "12.34", " ms");
                ("Billed Duration", "13", " ms")]) ++ [String "010" ""]))
  = Ok (list_to_map (reverse (fst <$> [("REPORT RequestId", "r-1", "");
                                       ("Duration", "12.34", " ms");
                                       ("Billed Duration", "13", " ms")]))).
Proof.
  apply parse_aws_vals_reads_fields.
  repeat (apply List.Forall_cons;
          [repeat split; try discriminate; try reflexivity;
           first [by left | right; by eexists _, _] |]).
  apply List.Forall_nil.
Defined.

(** ** What every reconciler leaves alone *)

Section Frame.

Import ReconcilerInvariant.

Variable float : string → result Q.

Lemma keeps_refl (m : gmap (option string) FunctionInvocationResult) : keeps_records m m.
Proof.
  split; [reflexivity|]. intros k r r' H1 H2. rewrite H1 in H2. injection H2 as <-. done.
Qed.

Lemma keeps_trans (a b c : gmap (option string) FunctionInvocationResult) :
  keeps_records a b → keeps_records b c → keeps_records a c.
Proof.
  intros [Hd1 H1] [Hd2 H2]. split; [congruence|].
  intros k r r'' Ha Hc.
  assert (Hk : k ∈ dom b) by (rewrite Hd1; apply elem_of_dom; eauto).
  apply elem_of_dom in Hk as [r' Hb].
  destruct (H1 k r r' Ha Hb) as [E1 P1]. destruct (H2 k r' r'' Hb Hc) as [E2 P2].
  split; [congruence|auto].
Qed.

Lemma keeps_insert (m : gmap (option string) FunctionInvocationResult)
    (k : option string) (r : FunctionInvocationResult) (t : Q) :
  m !! k = Some r → keeps_records m (<[k := set_provider_time t r]> m).
Proof.
  intros Hk. split.
  - rewrite dom_insert_L. apply elem_of_dom_2 in Hk. set_solver.
  - intros k' r0 r' H0 H'. destruct (decide (k' = k)) as [->|Hne].
    + rewrite lookup_insert_eq in H'. injection H' as <-.
      rewrite Hk in H0. injection H0 as <-. split; [reflexivity|]. by eexists.
    + rewrite lookup_insert_ne in H' by done. rewrite H0 in H'. injection H' as <-. done.
Qed.

(** GCP *)
Lemma gcp_entries_keep (logs : list GCP.entry) (processed ids : gset (option string))
    (requests : gmap (option string) FunctionInvocationResult)
    (r : gset (option string) * gmap (option string) FunctionInvocationResult) :
  GCP.process_entries float logs processed ids requests = Ok r →
  keeps_records requests r.2.
Proof.
  revert processed requests. induction logs as [|e logs IH]; intros processed requests.
  - intros [= <-]. apply keeps_refl.
  - rewrite process_entries_cons.
    destruct (ReconcilerSpec.gcp_read_entry float e) as [[[inv duration]|]|];
      [|apply IH|discriminate].
    destruct (decide (Some inv ∈ ids)); [|apply IH].
    destruct (requests !! Some inv) as [r0|] eqn:E; [|discriminate].
    intros H. eapply keeps_trans; [by apply keeps_insert|]. by eapply IH.
Qed.

Lemma gcp_enrich_keeps (logs : option (list GCP.entry))
    (requests requests' : gmap (option string) FunctionInvocationResult)
    (tr : list event) :
  GCP.enrich_metrics float logs requests = Ok (requests', tr) →
  keeps_records requests requests'.
Proof.
  destruct logs as [[|e logs]|]; try (intros [= <- _]; apply keeps_refl).
  rewrite gcp_enrich_cons.
  destruct (GCP.process_entries float (e :: logs) ∅ (dom requests) requests)
    as [r|] eqn:E; [|discriminate].
  rewrite bind_ok. apply gcp_entries_keep in E.
  destruct (size r.1 <? len r.2)%nat; by intros [= <- _].
Qed.

(** Azure *)
Lemma azure_rows_keep (rows : list Azure.row) (processed : gset (option string))
    (requests : gmap (option string) FunctionInvocationResult)
    (r : gset (option string) * gmap (option string) FunctionInvocationResult) :
  Azure.process_rows float rows processed requests = Ok r →
  keeps_records requests r.2.
Proof.
  revert processed requests. induction rows as [|row rows IH]; intros processed requests.
  - intros [= <-]. apply keeps_refl.
  - cbn [Azure.process_rows].
    destruct (requests !! Azure.invocation_id row) as [r0|] eqn:E; [|apply IH].
    destruct (match Azure.func_exec_time row with
              | Some s => float s
              | None => Raise TypeError
              end) as [t|]; [|discriminate].
    rewrite bind_ok. intros H.
    eapply keeps_trans; [by apply keeps_insert|]. by eapply IH.
Qed.

Lemma azure_loop_keeps (query : nat → list Azure.row) (retry_interval : Z)
    (remaining retries : nat) (processed to_process : gset (option string))
    (requests : gmap (option string) FunctionInvocationResult) (trace : list event)
    (r : gset (option string) * gmap (option string) FunctionInvocationResult
         * list event) :
  Azure.retry_loop float query retry_interval remaining retries processed to_process
    requests trace = Ok r →
  keeps_records requests r.1.2.
Proof.
  revert retries processed requests trace.
  induction remaining as [|remaining IH]; intros retries processed requests trace.
  - intros [= <-]. apply keeps_refl.
  - rewrite retry_loop_S.
    destruct (size processed <? len requests)%nat; [|intros [= <-]; apply keeps_refl].
    destruct (Azure.process_rows float (query retries) processed requests)
      as [r0|] eqn:E; [|discriminate].
    rewrite bind_ok. apply azure_rows_keep in E.
    destruct (size r0.1 <? len r0.2)%nat.
    + intros H. eapply keeps_trans; [exact E|]. by eapply IH.
    + by intros [= <-].
Qed.

Lemma azure_enrich_keeps (query : nat → list Azure.row) (max_retries : nat)
    (retry_interval : Z)
    (requests requests' : gmap (option string) FunctionInvocationResult)
    (tr : list event) :
  Azure.enrich_metrics_with float query max_retries retry_interval requests
    = Ok (requests', tr) →
  keeps_records requests requests'.
Proof.
  unfold Azure.enrich_metrics_with.
  destruct (Azure.retry_loop float query retry_interval max_retries 0 ∅ (dom requests)
              requests [EvSleep 100]) as [r|] eqn:E; [|discriminate].
  rewrite bind_ok. apply azure_loop_keeps in E.
  destruct (size r.1.1 <? len r.1.2)%nat; by intros [= <- _].
Qed.

(** AWS *)
Lemma aws_assign_keeps (aws_vals : gmap string string) (rid : string)
    (d d' : gmap (option string) FunctionInvocationResult) :
  AWS.assign_provider_time float aws_vals rid d = Ok d' → keeps_records d d'.
Proof.
  unfold AWS.assign_provider_time.
  destruct (AWS.getitem aws_vals "Duration") as [x|]; [|discriminate]. rewrite bind_ok.
  destruct (float x) as [t|]; [|discriminate]. rewrite bind_ok.
  destruct (d !! Some rid) as [r|] eqn:E; [|discriminate].
  intros [= <-]. by apply keeps_insert.
Qed.

Lemma aws_parse_keeps (log : string) (d : gmap (option string) FunctionInvocationResult)
    (r : string * AWS.requests_arg) :
  AWS.parse_aws_report float log (AWS.ReqDict d) = Ok r →
  keeps_records d (AWS.dict_after r.2 d).
Proof.
  unfold AWS.parse_aws_report.
  destruct (AWS.parse_aws_vals log) as [aws_vals|]; [|discriminate]. rewrite bind_ok.
  destruct (AWS.report_request_id aws_vals) as [rid|]; [|discriminate]. rewrite bind_ok.
  destruct (AWS.assign_provider_time float aws_vals rid d) as [d'|] eqn:E; [|discriminate].
  rewrite bind_ok. intros [= <-]. simpl. by eapply aws_assign_keeps.
Qed.

Lemma aws_parts_keep (val : list AWS.result_part) (st st' : AWS.pq_state) :
  AWS.process_parts float val st = Ok st' →
  keeps_records (AWS.pq_requests st) (AWS.pq_requests st') ∧
  (AWS.results_processed st'
   ≤ AWS.results_processed st
     + length (List.filter (λ p, String.eqb (AWS.field p) "@message") val))%nat.
Proof.
  revert st. induction val as [|part val IH]; intros st.
  - intros [= <-]. split; [apply keeps_refl|simpl; lia].
  - cbn [AWS.process_parts List.filter].
    destruct (String.eqb (AWS.field part) "@message"); [|apply IH].
    destruct (AWS.parse_aws_report float (AWS.value part) (AWS.ReqDict (AWS.pq_requests st)))
      as [r|] eqn:E; [|discriminate].
    rewrite bind_ok. apply aws_parse_keeps in E.
    destruct (decide (Some r.1 ∈ dom (AWS.dict_after r.2 (AWS.pq_requests st)))).
    + destruct (AWS.set_remove (Some r.1) (AWS.requests_ids st)) as [ids|]; [|discriminate].
      rewrite bind_ok. intros H. apply IH in H as [H1 H2]. simpl in *.
      split; [by eapply keeps_trans|lia].
    + intros H. apply IH in H as [H1 H2]. simpl in *.
      split; [by eapply keeps_trans|lia].
Qed.

Lemma aws_rows_keep (results : list (list AWS.result_part)) (st st' : AWS.pq_state) :
  AWS.process_rows float results st = Ok st' →
  keeps_records (AWS.pq_requests st) (AWS.pq_requests st') ∧
  (AWS.results_processed st' ≤ AWS.results_processed st + messages results)%nat.
Proof.
  revert st. induction results as [|val results IH]; intros st.
  - intros [= <-]. split; [apply keeps_refl|lia].
  - cbn [AWS.process_rows].
    destruct (AWS.process_parts float val st) as [st1|] eqn:E; [|discriminate].
    rewrite bind_ok. apply aws_parts_keep in E as [E1 E2].
    intros H. apply IH in H as [H1 H2]. split; [by eapply keeps_trans|].
    unfold messages in *. cbn [concat]. rewrite List.filter_app, length_app. lia.
Qed.

Lemma aws_results_keep (results : list (list AWS.result_part))
    (requests requests' : gmap (option string) FunctionInvocationResult) (n : nat) :
  AWS.process_query_results float results requests = Ok (n, requests') →
  keeps_records requests requests' ∧ (n ≤ messages results)%nat.
Proof.
  unfold AWS.process_query_results.
  destruct (AWS.process_rows float results (AWS.mkPq 0 (dom requests) requests))
    as [st|] eqn:E; [|discriminate].
  rewrite bind_ok. intros [= <- <-]. apply aws_rows_keep in E. exact E.
Qed.

Lemma aws_loop_keeps (query : nat → list (list AWS.result_part))
    (fuel attempt results_count results_processed : nat)
    (requests requests' : gmap (option string) FunctionInvocationResult)
    (trace tr : list event) :
  AWS.query_loop float query fuel attempt results_count results_processed requests trace
    = Some (Ok (requests', tr)) →
  keeps_records requests requests'.
Proof.
  revert attempt results_processed requests trace.
  induction fuel as [|fuel IH]; intros attempt results_processed requests trace;
    cbn [AWS.query_loop];
    (destruct (results_processed <? results_count)%nat;
     [|intros [= <- _]; apply keeps_refl]); [discriminate|].
  destruct (AWS.process_query_results float (query attempt) requests)
    as [[n requests1]|] eqn:E; [|discriminate].
  apply aws_results_keep in E as [E _].
  destruct (n <? results_count)%nat; intros H; apply IH in H; by eapply keeps_trans.
Qed.

End Frame.

(** The dispatch on the provider keeps the records, whichever branch it
    takes. *)
Lemma provider_update_keeps
    (float : string → result Q) (aws_query : nat → list (list AWS.result_part))
    (azure_query : nat → list Azure.row) (gcp_logs : option (list GCP.entry))
    (fuel : nat) (provider : string)
    (results results' : gmap (option string) FunctionInvocationResult)
    (tr : list event) :
  Benchmarker.get_provider_time_and_update_results float aws_query azure_query gcp_logs
    fuel provider results = Some (Ok (Some results', tr)) →
  ReconcilerInvariant.keeps_records results results'.
Proof.
  intros H. unfold Benchmarker.get_provider_time_and_update_results in H.
  destruct (String.eqb provider "gcp").
  { destruct (GCP.enrich_metrics float gcp_logs results) as [[m t]|] eqn:E;
      [|discriminate].
    rewrite bind_ok in H. injection H as <- _. by eapply gcp_enrich_keeps. }
  destruct (String.eqb provider "aws").
  { destruct (AWS.enrich_metrics float aws_query fuel results) as [[[m t]|]|] eqn:E;
      try discriminate.
    rewrite bind_ok in H. injection H as <- _.
    unfold AWS.enrich_metrics in E. by eapply aws_loop_keeps. }
  destruct (String.eqb provider "azure").
  { destruct (Azure.enrich_metrics float azure_query results) as [[m t]|] eqn:E;
      [|discriminate].
    rewrite bind_ok in H. injection H as <- _.
    unfold Azure.enrich_metrics in E. by eapply azure_enrich_keeps. }
  destruct (String.eqb provider "knative"); [|discriminate].
  injection H as <- _. apply keeps_refl.
Qed.

(** X11. Reconciliation never loses, adds or rewrites a record: whatever
    the provider and whatever its log service answers, the dictionary that
    [__get_provider_time_and_update_results] returns has the keys it was
    given, and under each key a record with the same request id, client
    times and response body; a provider time that was set stays set. Only
    [provider_time] is ever assigned. *)
Theorem reconciliation_keeps_records
    (float : string → result Q) (aws_query : nat → list (list AWS.result_part))
    (azure_query : nat → list Azure.row) (gcp_logs : option (list GCP.entry))
    (fuel : nat) (provider : string)
    (results results' : gmap (option string) FunctionInvocationResult)
    (tr : list event) :
  Benchmarker.get_provider_time_and_update_results float aws_query azure_query gcp_logs
    fuel provider results = Some (Ok (Some results', tr)) →
  dom results' = dom results ∧
  ∀ k r r', results !! k = Some r → results' !! k = Some r' →
    request_id r' = request_id r ∧ client_begin r' = client_begin r ∧
    client_end r' = client_end r ∧ client_time r' = client_time r ∧
    response_body r' = response_body r ∧
    (is_Some (provider_time r) → is_Some (provider_time r')).
Proof.
  intros H.
  pose proof (provider_update_keeps float aws_query azure_query gcp_logs fuel provider
                results results' tr H) as Hk.
  destruct Hk as [Hd Hr]. split; [exact Hd|].
  intros k r r' H1 H2. destruct (Hr k r r' H1 H2) as [Hc Hp].
  unfold ReconcilerInvariant.client_side in Hc. injection Hc as E1 E2 E3 E4 E5.
  repeat split; assumption.
Qed.

Lemma reconciliation_keeps_records_witness :
  ∃ results' tr,
    Benchmarker.get_provider_time_and_update_results Examples.float (λ _, []) (λ _, [])
      (Some Examples.gcp_logs_ab) 0 "gcp"
      (ReconcilerSpec.three "a" "b" "c" (Examples.record_of "a") (Examples.record_of "b")
         (Examples.record_of "c"))
    = Some (Ok (Some results', tr)) ∧
    dom results'
    = dom (ReconcilerSpec.three "a" "b" "c" (Examples.record_of "a")
             (Examples.record_of "b") (Examples.record_of "c")).
Proof.
  destruct (Benchmarker.get_provider_time_and_update_results Examples.float (λ _, [])
              (λ _, []) (Some Examples.gcp_logs_ab) 0 "gcp"
              (ReconcilerSpec.three "a" "b" "c" (Examples.record_of "a")
                 (Examples.record_of "b") (Examples.record_of "c")))
    as [[[[results'|] tr]|]|] eqn:E.
  - exists results', tr. split; [reflexivity|].
    exact (proj1 (reconciliation_keeps_records _ _ _ _ _ _ _ _ _ E)).
  - vm_compute in E. discriminate.
  - vm_compute in E. discriminate.
  - vm_compute in E. discriminate.
Defined.


(** ** Saving the results of a target *)

(** C10: the results of a target go to one file whose path is composed
    from the root, the provider, the runtime and the benchmark name
    (directories) and from the load profile's name, the repetitions and the
    memory size, ["default"] standing for an absent memory size (file name).
    When the run of a target completes, that file holds the document that the
    reconciler returned for the records of the run (for the cold profile the
    records of the cold loop, for the other two none): a dictionary with the
    keys of those records, the request ids, and under each key the record
    with its client-side fields; no other file has changed. A second run of
    the same target leaves in the file the document of the second run alone:
    it ends with the same files whether or not the first run's file was
    there, and saving twice is saving the second document. *)
Theorem save_overwrites
    (json_loads : string → option JSON) (float : string → result Q)
    (aws_query : nat → list (list AWS.result_part)) (azure_query : nat → list Azure.row)
    (gcp_logs : option (list GCP.entry)) (fuel : nat)
    (root_path prov runtime bench_name : string) (load_profile : Benchmarker.LoadProfile)
    (repetitions : Z) (memory : option Z) :
  Benchmarker.results_file root_path prov runtime bench_name load_profile repetitions memory
    = path_join
        (path_join (path_join (path_join (path_join root_path "benchmark_results") prov)
                      runtime) bench_name)
        (Benchmarker.name load_profile ++ "_" ++ str repetitions ++ "_"
           ++ Benchmarker.memory_label memory ++ ".json") ∧
  Benchmarker.memory_label None = "default" ∧
  (∀ c c' files files' outcomes tr,
     Benchmarker.run_target json_loads float aws_query azure_query gcp_logs fuel
       root_path prov runtime bench_name load_profile repetitions memory c files outcomes
     = Some (Ok (c', files', tr)) →
     ∃ st document reconciled,
       match load_profile with
       | Benchmarker.COLD =>
           Benchmarker.cold_run json_loads prov (String.eqb runtime "native")
             repetitions c outcomes
       | _ => Some (Ok (Benchmarker.mkRun c 0 ∅ []))
       end = Some (Ok st) ∧
       Benchmarker.get_provider_time_and_update_results float aws_query azure_query
         gcp_logs fuel prov (Benchmarker.benchmark_results st)
       = Some (Ok (document, reconciled)) ∧
       (∀ d, document = Some d →
          ReconcilerInvariant.keeps_records (Benchmarker.benchmark_results st) d) ∧
       files' !! Benchmarker.results_file root_path prov runtime bench_name load_profile
                   repetitions memory
       = Some document ∧
       (∀ other : string,
          other ≠ Benchmarker.results_file root_path prov runtime bench_name load_profile
                    repetitions memory →
          files' !! other = files !! other)) ∧
  (∀ c c1 c2 files files1 files2 outcomes1 outcomes2 tr1 tr2,
     Benchmarker.run_target json_loads float aws_query azure_query gcp_logs fuel
       root_path prov runtime bench_name load_profile repetitions memory c files outcomes1
     = Some (Ok (c1, files1, tr1)) →
     Benchmarker.run_target json_loads float aws_query azure_query gcp_logs fuel
       root_path prov runtime bench_name load_profile repetitions memory c1 files1 outcomes2
     = Some (Ok (c2, files2, tr2)) →
     Benchmarker.run_target json_loads float aws_query azure_query gcp_logs fuel
       root_path prov runtime bench_name load_profile repetitions memory c1 files outcomes2
     = Some (Ok (c2, files2, tr2))) ∧
  (∀ files first second,
     Benchmarker.save
       (Benchmarker.save files root_path prov runtime bench_name load_profile repetitions
          memory first)
       root_path prov runtime bench_name load_profile repetitions memory second
     = Benchmarker.save files root_path prov runtime bench_name load_profile repetitions
         memory second).
Proof.
  split; [reflexivity|]. split; [reflexivity|]. split; [|split].
  - intros c c' files files' outcomes tr H. unfold Benchmarker.run_target in H.
    destruct (match load_profile with
              | Benchmarker.COLD => _
              | _ => _
              end) as [[st|]|] eqn:Einv; [|done..].
    destruct (Benchmarker.get_provider_time_and_update_results _ _ _ _ _ _ _)
      as [[[document reconciled]|]|] eqn:Erec; [|done..].
    injection H as <- <- <-.
    exists st, document, reconciled. split; [reflexivity|]. split; [exact Erec|].
    split; [|split].
    + intros d ->. by eapply provider_update_keeps.
    + unfold Benchmarker.save. apply lookup_insert_eq.
    + intros other Hother. unfold Benchmarker.save. by rewrite lookup_insert_ne.
  - intros c c1 c2 files files1 files2 outcomes1 outcomes2 tr1 tr2 H1 H2.
    apply run_target_saves in H1 as (doc1 & -> & _).
    apply run_target_saves in H2 as (doc2 & -> & H2).
    rewrite (H2 files). unfold Benchmarker.save. by rewrite insert_insert_eq.
  - intros files first second. unfold Benchmarker.save. apply insert_insert_eq.
Qed.

(** One cold call of an AWS function, answered cold and reported by the
    first CloudWatch query: the file of the target holds the one record. *)
Lemma save_overwrites_witness :
  ∃ c' files' tr d,
    Benchmarker.run_target Examples.json_loads Examples.float
      (λ _, [[AWS.mkPart "@message" (Examples.report_line "r-1")]]) (λ _, []) None 1
      "/bench" "aws" "jvm" "echo" Benchmarker.COLD 1 (Some 512)
      (Benchmarker.mkCloud {[cold_start_var := "41"]} ∅ ∅ []) ∅ [Examples.cold_call "r-1"]
    = Some (Ok (c', files', tr)) ∧
    files' !! "/bench/benchmark_results/aws/jvm/echo/COLD_1_512.json" = Some (Some d) ∧
    dom d = {[Some "r-1"]} ∧
    (∀ other : string,
       other ≠ "/bench/benchmark_results/aws/jvm/echo/COLD_1_512.json" →
       files' !! other = None).
Proof.
  assert (Hrun : match
                   Benchmarker.run_target Examples.json_loads Examples.float
                     (λ _, [[AWS.mkPart "@message" (Examples.report_line "r-1")]])
                     (λ _, []) None 1 "/bench" "aws" "jvm" "echo" Benchmarker.COLD 1
                     (Some 512) (Benchmarker.mkCloud {[cold_start_var := "41"]} ∅ ∅ [])
                     ∅ [Examples.cold_call "r-1"]
                 with
                 | Some (Ok _) => true
                 | _ => false
                 end = true)
    by (vm_compute; reflexivity).
  assert (Hcheck : match
                     Benchmarker.cold_run Examples.json_loads "aws"
                       (String.eqb "jvm" "native") 1
                       (Benchmarker.mkCloud {[cold_start_var := "41"]} ∅ ∅ [])
                       [Examples.cold_call "r-1"]
                   with
                   | Some (Ok st) =>
                       bool_decide (dom (Benchmarker.benchmark_results st)
                                    = {[Some "r-1"]})
                       && match
                            Benchmarker.get_provider_time_and_update_results
                              Examples.float
                              (λ _, [[AWS.mkPart "@message" (Examples.report_line "r-1")]])
                              (λ _, []) None 1 "aws" (Benchmarker.benchmark_results st)
                          with
                          | Some (Ok (Some _, _)) => true
                          | _ => false
                          end
                   | _ => false
                   end = true)
    by (vm_compute; reflexivity).
  destruct (Benchmarker.run_target Examples.json_loads Examples.float
              (λ _, [[AWS.mkPart "@message" (Examples.report_line "r-1")]]) (λ _, [])
              None 1 "/bench" "aws" "jvm" "echo" Benchmarker.COLD 1 (Some 512)
              (Benchmarker.mkCloud {[cold_start_var := "41"]} ∅ ∅ []) ∅
              [Examples.cold_call "r-1"])
    as [[[[c' files'] tr]|e]|] eqn:E; [|discriminate Hrun..].
  destruct (proj1 (proj2 (proj2
              (save_overwrites Examples.json_loads Examples.float
                 (λ _, [[AWS.mkPart "@message" (Examples.report_line "r-1")]])
                 (λ _, []) None 1 "/bench" "aws" "jvm" "echo" Benchmarker.COLD 1
                 (Some 512)))) _ _ _ _ _ _ E)
    as (st & document & reconciled & Hcold & Hrec & Hkeep & Hfile & Hother).
  rewrite Hcold, Hrec in Hcheck. apply andb_true_iff in Hcheck as [Hdom Hdoc].
  apply bool_decide_eq_true in Hdom.
  destruct document as [d|]; [|discriminate Hdoc].
  exists c', files', tr, d. split; [reflexivity|]. split; [exact Hfile|]. split.
  - destruct (Hkeep d eq_refl) as [-> _]. exact Hdom.
  - intros other Hne. by rewrite (Hother other Hne).
Defined.

(** ** AWS: the rows of a query *)

Section AwsRows.

Import ReconcilerInvariant.

Variable float : string → result Q.

Lemma process_parts_no_message (val : list AWS.result_part) (st : AWS.pq_state) :
  Forall (λ p, AWS.field p ≠ "@message") val →
  AWS.process_parts float val st = Ok st.
Proof.
  intros H. rewrite <- (app_nil_r val). by rewrite process_parts_skip.
Qed.

Lemma process_parts_report (row : list AWS.result_part) (rid : string) (t : Q)
    (st : AWS.pq_state) (r : FunctionInvocationResult) :
  reports float row rid t →
  AWS.pq_requests st !! Some rid = Some r →
  AWS.process_parts float row st
  = ids ← AWS.set_remove (Some rid) (AWS.requests_ids st);
    Ok (AWS.mkPq (S (AWS.results_processed st)) ids
          (<[Some rid := set_provider_time (t / 1000)%Q r]> (AWS.pq_requests st))).
Proof.
  intros (before & log & after & aws_vals & d & -> & Hb & Ha & Hv & Hr & Hd & Ht) Hreq.
  rewrite process_parts_skip by exact Hb.
  cbn [AWS.process_parts AWS.field AWS.value]. cbn [String.eqb Ascii.eqb Bool.eqb].
  unfold AWS.parse_aws_report. rewrite Hv, bind_ok, Hr, bind_ok.
  unfold AWS.assign_provider_time, AWS.getitem. rewrite Hd, bind_ok, Ht, bind_ok, Hreq.
  rewrite !bind_ok. cbn [fst snd AWS.dict_after].
  rewrite decide_True by (rewrite dom_insert_L; set_solver).
  destruct (AWS.set_remove (Some rid) (AWS.requests_ids st)) as [ids|e]; [|reflexivity].
  rewrite !bind_ok. by apply process_parts_no_message.
Qed.

Lemma process_rows_reports (rows : list (list AWS.result_part)) (lines : list (string * Q))
    (st : AWS.pq_state) :
  Forall2 (λ row l, reports float row l.1 l.2) rows lines →
  NoDup lines.*1 →
  (∀ rid, rid ∈ lines.*1 →
     Some rid ∈ AWS.requests_ids st ∧ is_Some (AWS.pq_requests st !! Some rid)) →
  ∃ st',
    AWS.process_rows float rows st = Ok st' ∧
    AWS.results_processed st' = (AWS.results_processed st + length lines)%nat ∧
    (∀ rid t, (rid, t) ∈ lines →
       ∃ r, AWS.pq_requests st !! Some rid = Some r ∧
            AWS.pq_requests st' !! Some rid = Some (set_provider_time (t / 1000)%Q r)) ∧
    (∀ k, k ∉ (Some <$> lines.*1) → AWS.pq_requests st' !! k = AWS.pq_requests st !! k).
Proof.
  intros Hrows. revert st.
  induction Hrows as [|row [rid t] rows lines Hrow _ IH]; intros st Hnd Hin.
  - exists st. split; [reflexivity|]. split; [simpl; lia|]. split; [|done].
    intros rid t H. by apply elem_of_nil in H.
  - cbn [fmap list_fmap fst snd] in *. apply NoDup_cons in Hnd as [Hfresh Hnd].
    destruct (Hin rid) as [Hid [r Hr]]; [by constructor|].
    cbn [AWS.process_rows]. rewrite (process_parts_report row rid t st r Hrow Hr).
    unfold AWS.set_remove. rewrite decide_True by exact Hid. rewrite !bind_ok.
    destruct (IH (AWS.mkPq (S (AWS.results_processed st))
                    (AWS.requests_ids st ∖ {[Some rid]})
                    (<[Some rid := set_provider_time (t / 1000)%Q r]> (AWS.pq_requests st)))
                Hnd) as (st' & Hrun & Hcount & Hset & Hother).
    { intros rid' Hrid'. destruct (Hin rid') as [Hid' Hreq']; [by constructor|].
      assert (rid' ≠ rid) by (intros ->; contradiction).
      cbn [AWS.requests_ids AWS.pq_requests]. split; [set_solver|].
      rewrite lookup_insert_ne by congruence. exact Hreq'. }
    exists st'. split; [exact Hrun|]. cbn [AWS.results_processed AWS.pq_requests] in *.
    split; [simpl; lia|]. split.
    + intros rid' t' H. apply elem_of_cons in H as [[= -> ->]|H].
      * exists r. split; [exact Hr|].
        rewrite Hother; [by rewrite lookup_insert_eq|].
        intros Hc. apply list_elem_of_fmap in Hc as (x & [= <-] & Hx). contradiction.
      * destruct (Hset rid' t' H) as (r' & Hr' & Hr'').
        assert (rid' ≠ rid).
        { intros ->. apply Hfresh. apply list_elem_of_fmap. by exists (rid, t'). }
        rewrite lookup_insert_ne in Hr' by congruence. eauto.
    + intros k Hk. rewrite Hother.
      * apply lookup_insert_ne. intros <-. apply Hk. by constructor.
      * intros Hc. apply Hk. by constructor.
Qed.

End AwsRows.


(** X12. The good case of the AWS reconciler: when the first CloudWatch
    query returns, for each pending request, one row whose REPORT line
    parses, and no two rows name the same request, [enrich_metrics] returns
    after that single query (and the fixed delay of 100 s) with every
    record's provider time set to the reported duration divided by 1000. *)
Theorem aws_enrich_metrics_single_query
    (float : string → result Q) (query : nat → list (list AWS.result_part))
    (fuel : nat) (requests : gmap (option string) FunctionInvocationResult)
    (lines : list (string * Q)) :
  Forall2 (λ row l, ReconcilerInvariant.reports float row l.1 l.2) (query 0%nat) lines →
  NoDup lines.*1 →
  lines ≠ [] →
  dom requests = list_to_set (Some <$> lines.*1) →
  ∃ requests',
    AWS.enrich_metrics float query (S fuel) requests
    = Some (Ok (requests',
                [EvSleep 100; EvQuery; EvLogInfoFound (length lines) (length lines)])) ∧
    dom requests' = dom requests ∧
    ∀ rid t, (rid, t) ∈ lines →
      ∃ r, requests !! Some rid = Some r ∧
           requests' !! Some rid = Some (set_provider_time (t / 1000)%Q r).
Proof.
  intros Hrows Hnd Hne Hdom.
  assert (Hlen : len requests = length lines).
  { unfold len. rewrite <- size_dom, Hdom.
    rewrite (proj2 (size_list_to_set_NoDup _)).
    - by rewrite !length_fmap.
    - apply NoDup_fmap_2; [|exact Hnd]. by intros ? ? [= ->]. }
  destruct (process_rows_reports float (query 0%nat) lines
              (AWS.mkPq 0 (dom requests) requests) Hrows Hnd)
    as (st' & Hrun & Hcount & Hset & Hother).
  { intros rid Hrid. cbn [AWS.requests_ids AWS.pq_requests].
    assert (Hin : Some rid ∈ dom requests).
    { rewrite Hdom. apply elem_of_list_to_set. by apply list_elem_of_fmap_2. }
    split; [exact Hin|]. by apply elem_of_dom. }
  cbn [AWS.results_processed AWS.pq_requests] in *.
  assert (Hq : AWS.process_query_results float (query 0%nat) requests
               = Ok (length lines, AWS.pq_requests st')).
  { unfold AWS.process_query_results. rewrite Hrun, bind_ok. by rewrite Hcount. }
  assert (Hpos : (0 < length lines)%nat) by (destruct lines; [done|simpl; lia]).
  exists (AWS.pq_requests st'). split; [|split; [|exact Hset]].
  - unfold AWS.enrich_metrics. rewrite Hlen. cbn [AWS.query_loop].
    rewrite (proj2 (Nat.ltb_lt _ _) Hpos), Hq, Nat.ltb_irrefl.
    destruct fuel; cbn [AWS.query_loop]; by rewrite Nat.ltb_irrefl.
  - apply aws_results_keep in Hq as [[Hd _] _]. exact Hd.
Qed.

Lemma aws_enrich_metrics_single_query_witness :
  ∃ requests',
    AWS.enrich_metrics Examples.float
      (λ _, [[AWS.mkPart "@timestamp" "2024-05-01 10:00:00.000";
              AWS.mkPart "@message" (Examples.report_line "r-1")]]) 1
      {[Some "r-1" := Examples.record_of "r-1"]}
    = Some (Ok (requests', [EvSleep 100; EvQuery; EvLogInfoFound 1 1])) ∧
    dom requests' = dom ({[Some "r-1" := Examples.record_of "r-1"]}
                         : gmap (option string) FunctionInvocationResult).
Proof.
  destruct (aws_enrich_metrics_single_query Examples.float
              (λ _, [[AWS.mkPart "@timestamp" "2024-05-01 10:00:00.000";
                      AWS.mkPart "@message" (Examples.report_line "r-1")]]) 0
              {[Some "r-1" := Examples.record_of "r-1"]} [("r-1", 1234 # 100)])
    as (requests' & Hrun & Hdom & _).
  - constructor; [|constructor].
    exists [AWS.mkPart "@timestamp" "2024-05-01 10:00:00.000"],
      (Examples.report_line "r-1"), [], (Examples.report_vals "r-1"), "12.34".
    repeat split; try (by repeat constructor); vm_compute; reflexivity.
  - repeat constructor. by intros H%elem_of_nil.
  - discriminate.
  - simpl. rewrite dom_singleton_L. set_solver.
  - exists requests'. split; [exact Hrun|exact Hdom].
Defined.

(** X13. A request reported twice in one result set ends the
    reconciliation: the second row finds its id already taken out of the set
    of pending ids, [requests_ids.remove] raises [KeyError] on it, and
    [enrich_metrics] lets the exception through. *)
Theorem process_query_results_duplicate_report
    (float : string → result Q) (row1 row2 : list AWS.result_part)
    (rest : list (list AWS.result_part)) (rid : string) (t1 t2 : Q)
    (requests : gmap (option string) FunctionInvocationResult) :
  ReconcilerInvariant.reports float row1 rid t1 →
  ReconcilerInvariant.reports float row2 rid t2 →
  is_Some (requests !! Some rid) →
  AWS.process_query_results float (row1 :: row2 :: rest) requests
    = Raise (KeyError (Some rid)) ∧
  ∀ query fuel,
    query 0%nat = row1 :: row2 :: rest →
    AWS.enrich_metrics float query (S fuel) requests = Some (Raise (KeyError (Some rid))).
Proof.
  intros H1 H2 [r Hr].
  assert (Hq : AWS.process_query_results float (row1 :: row2 :: rest) requests
               = Raise (KeyError (Some rid))).
  { unfold AWS.process_query_results. cbn [AWS.process_rows].
    rewrite (process_parts_report float row1 rid t1
               (AWS.mkPq 0 (dom requests) requests) r H1 Hr).
    cbn [AWS.requests_ids AWS.pq_requests AWS.results_processed].
    unfold AWS.set_remove at 1.
    rewrite decide_True by (apply elem_of_dom; eauto). rewrite !bind_ok.
    rewrite (process_parts_report float row2 rid t2
               (AWS.mkPq 1 (dom requests ∖ {[Some rid]})
                  (<[Some rid := set_provider_time (t1 / 1000)%Q r]> requests))
               (set_provider_time (t1 / 1000)%Q r) H2)
      by (cbn [AWS.pq_requests]; apply lookup_insert_eq).
    cbn [AWS.requests_ids]. unfold AWS.set_remove.
    rewrite decide_False by set_solver. reflexivity. }
  split; [exact Hq|].
  intros query fuel Hquery. unfold AWS.enrich_metrics. cbn [AWS.query_loop].
  assert (Hpos : (0 < len requests)%nat).
  { unfold len. destruct (decide (size requests = 0%nat)) as [Hz|]; [|lia].
    apply map_size_empty_iff in Hz. rewrite Hz in Hr. by rewrite lookup_empty in Hr. }
  by rewrite (proj2 (Nat.ltb_lt _ _) Hpos), Hquery, Hq.
Qed.

Lemma process_query_results_duplicate_report_witness :
  AWS.process_query_results Examples.float
    [[AWS.mkPart "@message" (Examples.report_line "r-1")];
     [AWS.mkPart "@message" (Examples.report_line "r-1")]]
    {[Some "r-1" := Examples.record_of "r-1"]}
  = Raise (KeyError (Some "r-1")).
Proof.
  apply (process_query_results_duplicate_report Examples.float
           [AWS.mkPart "@message" (Examples.report_line "r-1")]
           [AWS.mkPart "@message" (Examples.report_line "r-1")] [] "r-1"
           (1234 # 100) (1234 # 100)).
  - exists [], (Examples.report_line "r-1"), [], (Examples.report_vals "r-1"), "12.34".
    repeat split; try (by repeat constructor); vm_compute; reflexivity.
  - exists [], (Examples.report_line "r-1"), [], (Examples.report_vals "r-1"), "12.34".
    repeat split; try (by repeat constructor); vm_compute; reflexivity.
  - rewrite lookup_singleton_eq. by eexists.
Defined.

Lemma aws_loop_short_of_reports
    (float : string → result Q) (query : nat → list (list AWS.result_part))
    (results_count : nat) (fuel attempt results_processed : nat)
    (requests : gmap (option string) FunctionInvocationResult) (trace : list event)
    (r : gmap (option string) FunctionInvocationResult * list event) :
  (∀ n, (ReconcilerInvariant.messages (query n) < results_count)%nat) →
  (results_processed < results_count)%nat →
  AWS.query_loop float query fuel attempt results_count results_processed requests trace
    ≠ Some (Ok r).
Proof.
  intros Hshort. revert attempt results_processed requests trace.
  induction fuel as [|fuel IH]; intros attempt results_processed requests trace Hlt;
    cbn [AWS.query_loop]; rewrite (proj2 (Nat.ltb_lt _ _) Hlt); [discriminate|].
  destruct (AWS.process_query_results float (query attempt) requests)
    as [[n requests1]|] eqn:E; [|discriminate].
  apply aws_results_keep in E as [_ Hn].
  assert (Hn' : (n < results_count)%nat) by (specialize (Hshort attempt); lia).
  rewrite (proj2 (Nat.ltb_lt _ _) Hn'). by apply IH.
Qed.

(** X14. The AWS reconciler has no attempt cap and counts each query on
    its own: the number of processed results is what the last query
    matched, never more than its rows with a [@message] field. While every
    query returns fewer such rows than there are pending requests,
    [enrich_metrics] does not return normally, however many queries it is
    followed through. *)
Theorem aws_enrich_metrics_short_of_reports
    (float : string → result Q) (query : nat → list (list AWS.result_part))
    (requests : gmap (option string) FunctionInvocationResult) :
  (∀ n, (ReconcilerInvariant.messages (query n) < len requests)%nat) →
  ∀ fuel r, AWS.enrich_metrics float query fuel requests ≠ Some (Ok r).
Proof.
  intros Hshort fuel r. unfold AWS.enrich_metrics.
  apply aws_loop_short_of_reports; [exact Hshort|].
  specialize (Hshort 0%nat). lia.
Qed.

Lemma aws_enrich_metrics_short_of_reports_witness :
  AWS.enrich_metrics Examples.float
    (λ _, [[AWS.mkPart "@message" (Examples.report_line "r-1")]]) 25
    (<[Some "r-2" := Examples.record_of "r-2"]>
       {[Some "r-1" := Examples.record_of "r-1"]})
  ≠ Some (Ok (∅, [])).
Proof.
  apply aws_enrich_metrics_short_of_reports.
  intros n. vm_compute. lia.
Defined.

(** ** AWS: deployment and polling *)

Lemma assoc_setitem_ne (k k' : string) (v : JSON) (kvs : list (string * JSON)) :
  k ≠ k' → assoc k' (setitem k v kvs) = assoc k' kvs.
Proof.
  intros Hne. induction kvs as [|[k0 v0] kvs IH]; simpl.
  - destruct (String.eqb_spec k' k); [congruence|reflexivity].
  - destruct (String.eqb_spec k k0) as [->|]; simpl.
    + destruct (String.eqb_spec k' k0); [congruence|reflexivity].
    + destruct (String.eqb k' k0); [reflexivity|exact IH].
Qed.

Lemma assoc_setitem_eq (k : string) (v : JSON) (kvs : list (string * JSON)) :
  assoc k (setitem k v kvs) = Some v.
Proof.
  induction kvs as [|[k0 v0] kvs IH]; simpl.
  - by rewrite String.eqb_refl.
  - destruct (String.eqb_spec k k0) as [->|Hne]; simpl.
    + by rewrite String.eqb_refl.
    + destruct (String.eqb_spec k k0); [done|exact IH].
Qed.

(** X15. Deploying to AWS without a [lambda-role] in the configuration
    cannot succeed: the code creates a role and stores it under the key
    [role], then reads [lambda-role], which is still absent. Unless the
    storage check ends the process first, [deploy] raises [KeyError] for
    [lambda-role], after the role was created and before anything is built. *)
Theorem aws_deploy_without_lambda_role
    (aws : list (string * JSON)) (storage : bool) (arn : string) :
  assoc "lambda-role" aws = None →
  (AWS.deploy_role aws storage (Ok arn)).1 = true ∧
  (∀ r, (AWS.deploy_role aws storage (Ok arn)).2 ≠ Ok r) ∧
  (storage = false →
   (AWS.deploy_role aws storage (Ok arn)).2 = Raise (KeyError (Some "lambda-role"))).
Proof.
  intros Habsent. unfold AWS.deploy_role. rewrite Habsent. cbn [default fst snd].
  rewrite !bind_ok.
  assert (Hrole : getitem_json (JDict (setitem "role" (JStr arn) aws)) "lambda-role"
                  = Raise (KeyError (Some "lambda-role"))).
  { cbn [getitem_json]. rewrite assoc_setitem_ne by discriminate. by rewrite Habsent. }
  split; [reflexivity|]. split.
  - intros r. destruct (storage && _); [discriminate|]. by rewrite Hrole.
  - intros ->. cbn [andb]. by rewrite Hrole.
Qed.

Lemma aws_deploy_without_lambda_role_witness :
  (AWS.deploy_role [("region", JStr "eu-central-1")] false (Ok "arn:aws:iam::1:role/lambda-ex")).2
  = Raise (KeyError (Some "lambda-role")).
Proof.
  apply (aws_deploy_without_lambda_role [("region", JStr "eu-central-1")] false
           "arn:aws:iam::1:role/lambda-ex"); reflexivity.
Defined.

Lemma str_not_handler (n : Z) : str n ≠ "--handler".
Proof.
  intros H. assert (Hc : contains "h" (str n) = contains "h" "--handler") by by rewrite H.
  rewrite str_without in Hc; [discriminate|discriminate|].
  intros [Hlo Hhi]. apply Nat.leb_le in Hhi. discriminate.
Qed.

(** X16. The [create-function] command never carries a [--handler]
    option: in the source the value of [--ephemeral-storage] and the string
    ['--handler'] are adjacent literals with no comma between them, so the
    command has the single argument [{"Size": 1024}--handler] after
    [--ephemeral-storage] and the handler class follows as a stray
    argument. *)
Theorem deploy_lambda_command_has_no_handler_option
    (function_name : string) (memory timeout : Z) (submodule_path region role : string)
    (native storage : bool) (aws_access_key_id aws_secret_access_key : option string) :
  function_name ≠ "--handler" → role ≠ "--handler" → region ≠ "--handler" →
  ("--handler" ∉ AWS._deploy_lambda_command function_name memory timeout submodule_path
                   region role native storage aws_access_key_id aws_secret_access_key) ∧
  (AWS._deploy_lambda_command function_name memory timeout submodule_path
     region role native storage aws_access_key_id aws_secret_access_key) !! 9%nat
    = Some "--ephemeral-storage" ∧
  (AWS._deploy_lambda_command function_name memory timeout submodule_path
     region role native storage aws_access_key_id aws_secret_access_key) !! 10%nat
    = Some ("{" ++ dquote ++ "Size" ++ dquote ++ ": 1024}--handler")%string ∧
  (AWS._deploy_lambda_command function_name memory timeout submodule_path
     region role native storage aws_access_key_id aws_secret_access_key) !! 11%nat
    = Some (if native then "not.used.in.provided.runtime"
            else "io.quarkus.amazon.lambda.runtime.QuarkusStreamHandler::handleRequest").
Proof.
  intros Hf Hr Hg. split; [|by destruct native].
  unfold AWS._deploy_lambda_command. cbn [app].
  pose proof (str_not_handler memory). pose proof (str_not_handler timeout).
  rewrite !not_elem_of_cons. repeat split; try discriminate; try congruence;
    try (by destruct native); try (by apply not_elem_of_nil).
Qed.

Lemma deploy_lambda_command_has_no_handler_option_witness :
  "--handler" ∉ AWS._deploy_lambda_command "echo-fn" 512 30 "benchmarks/echo"
                  "eu-central-1" "arn:aws:iam::1:role/lambda-ex" false false None None.
Proof.
  apply deploy_lambda_command_has_no_handler_option; discriminate.
Defined.

Lemma lstrip_ws_app_space (b x : string) :
  all_space b = true → lstrip_ws (b ++ x) = lstrip_ws x.
Proof.
  induction b as [|c b IH]; [reflexivity|].
  cbn [all_space]. intros H. apply andb_true_iff in H as [Hc Hb].
  rewrite string_app_cons. cbn [lstrip_ws]. rewrite Hc. by apply IH.
Qed.

Lemma lstrip_ws_word (u x : string) :
  u ≠ "" →
  forallb (λ c, negb (space_char c)) (list_ascii_of_string u) = true →
  lstrip_ws (u ++ x) = (u ++ x)%string.
Proof.
  destruct u as [|c u]; [done|]. intros _ H.
  cbn [list_ascii_of_string forallb] in H. apply andb_true_iff in H as [Hc _].
  apply negb_true_iff in Hc. rewrite string_app_cons. cbn [lstrip_ws]. by rewrite Hc.
Qed.

Lemma rstrip_ws_space (a : string) : all_space a = true → rstrip_ws a = "".
Proof.
  induction a as [|c a IH]; [reflexivity|].
  cbn [all_space]. intros H. apply andb_true_iff in H as [Hc Ha].
  cbn [rstrip_ws]. by rewrite (IH Ha), Hc.
Qed.

Lemma rstrip_ws_word (u a : string) :
  forallb (λ c, negb (space_char c)) (list_ascii_of_string u) = true →
  all_space a = true →
  rstrip_ws (u ++ a) = u.
Proof.
  intros Hu Ha. induction u as [|c u IH]; [by apply rstrip_ws_space|].
  cbn [list_ascii_of_string forallb] in Hu. apply andb_true_iff in Hu as [Hc Hu].
  apply negb_true_iff in Hc.
  rewrite string_app_cons. cbn [rstrip_ws]. rewrite (IH Hu), Hc. by destruct u.
Qed.

Lemma nonspace_app (u v : string) :
  forallb (λ c, negb (space_char c)) (list_ascii_of_string u) = true →
  forallb (λ c, negb (space_char c)) (list_ascii_of_string v) = true →
  forallb (λ c, negb (space_char c)) (list_ascii_of_string (u ++ v)) = true.
Proof.
  intros Hu Hv. induction u as [|c u IH]; [exact Hv|].
  cbn [list_ascii_of_string forallb] in Hu. apply andb_true_iff in Hu as [Hc Hu].
  rewrite string_app_cons. cbn [list_ascii_of_string forallb]. by rewrite Hc, IH.
Qed.

Lemma drop_last_app (u : string) (c : ascii) : drop_last (u ++ String c "") = u.
Proof.
  induction u as [|x u IH]; [reflexivity|].
  rewrite string_app_cons. cbn [drop_last]. rewrite IH.
  by destruct u.
Qed.

Lemma endswith_snoc (ch : ascii) (u : string) : endswith ch (u ++ String ch "") = true.
Proof.
  rewrite endswith_app by discriminate. unfold endswith. simpl. apply Ascii.eqb_refl.
Qed.

(** X17. What [_create_function_url] returns for the text that the CLI
    printed: for a URL in ASCII without white space and without a slash at
    its end, surrounded by any ASCII white space, the URL itself, whether or
    not one slash follows it; of two slashes at the end only the last is
    taken off. *)
Theorem create_function_url_normalises (before u after : string) :
  all_space before = true → all_space after = true →
  u ≠ "" → isascii u = true →
  forallb (λ c, negb (space_char c)) (list_ascii_of_string u) = true →
  endswith "/" u = false →
  AWS._create_function_url (before ++ u ++ after) = u ∧
  AWS._create_function_url (before ++ (u ++ "/") ++ after) = u ∧
  AWS._create_function_url (before ++ (u ++ "//") ++ after) = (u ++ "/")%string.
Proof.
  intros Hb Ha Hne _ Hu Hend.
  assert (Hstrip : ∀ w,
    w ≠ "" → forallb (λ c, negb (space_char c)) (list_ascii_of_string w) = true →
    strip (before ++ w ++ after) = w).
  { intros w Hw Hws. unfold strip.
    rewrite (lstrip_ws_app_space _ _ Hb), (lstrip_ws_word _ _ Hw Hws).
    by apply rstrip_ws_word. }
  unfold AWS._create_function_url. split; [|split].
  - by rewrite (Hstrip u Hne Hu), Hend.
  - rewrite (Hstrip (u ++ "/")%string).
    + by rewrite endswith_snoc, drop_last_app.
    + by apply string_app_not_nil.
    + by apply nonspace_app.
  - replace (u ++ "//")%string with ((u ++ "/") ++ "/")%string
      by (by rewrite string_app_assoc).
    rewrite (Hstrip ((u ++ "/") ++ "/")%string).
    + by rewrite endswith_snoc, drop_last_app.
    + by apply string_app_not_nil.
    + apply nonspace_app; [by apply nonspace_app|reflexivity].
Qed.

Lemma create_function_url_normalises_witness :
  AWS._create_function_url
    (" " ++ ("https://abc.lambda-url.eu-central-1.on.aws" ++ "/") ++ String "010" "")
  = "https://abc.lambda-url.eu-central-1.on.aws".
Proof.
  apply (create_function_url_normalises " "
           "https://abc.lambda-url.eu-central-1.on.aws" (String "010" ""));
    (discriminate || reflexivity).
Defined.

Lemma poll_loop_running (poll : nat → AWS.query_response) (k : nat) (s : string)
    (rows : list (list AWS.result_part)) :
  (∀ i, (i < k)%nat → AWS.status (poll i) = Some "Running") →
  AWS.status (poll k) = Some s → s ≠ "Running" →
  AWS.results (poll k) = Some rows →
  ∀ d fuel n response trace,
    (n + d)%nat = k →
    (response = None
     ∨ ∃ r, response = Some r ∧ AWS.status r = Some "Running") →
    AWS.poll_loop poll (S d + fuel) n response trace
    = Some (Ok (rows, trace ++ replicate (S d) (EvSleep 1))).
Proof.
  intros Hrun Hs Hne Hrows.
  assert (Hstep : ∀ fuel n response trace,
    (response = None ∨ ∃ r, response = Some r ∧ AWS.status r = Some "Running") →
    AWS.poll_loop poll (S fuel) n response trace
    = AWS.poll_loop poll fuel (S n) (Some (poll n)) (trace ++ [EvSleep 1])).
  { intros fuel n response trace [->|(r & -> & Hr)]; cbn [AWS.poll_loop]; [reflexivity|].
    by rewrite Hr. }
  induction d as [|d IH]; intros fuel n response trace Hn Hresp.
  - rewrite Nat.add_0_r in Hn. subst n. change (1 + fuel)%nat with (S fuel).
    rewrite (Hstep _ _ _ _ Hresp).
    destruct fuel; cbn [AWS.poll_loop]; rewrite Hs, Hrows;
      (destruct (String.eqb_spec s "Running"); [done|reflexivity]).
  - change (S (S d) + fuel)%nat with (S (S d + fuel)).
    rewrite (Hstep _ _ _ _ Hresp).
    rewrite (IH fuel (S n) (Some (poll n)) (trace ++ [EvSleep 1])).
    + by rewrite <- app_assoc.
    + lia.
    + right. exists (poll n). split; [reflexivity|]. apply Hrun. lia.
Qed.

Lemma poll_loop_forever (poll : nat → AWS.query_response) :
  (∀ i, AWS.status (poll i) = Some "Running") →
  ∀ fuel n response trace,
    (response = None ∨ ∃ r, response = Some r ∧ AWS.status r = Some "Running") →
    AWS.poll_loop poll fuel n response trace = None.
Proof.
  intros Hrun. induction fuel as [|fuel IH]; intros n response trace [->|(r & -> & Hr)];
    cbn [AWS.poll_loop]; rewrite ?Hr; cbn [String.eqb Ascii.eqb Bool.eqb];
    try reflexivity; apply IH; right; eauto.
Qed.

Lemma slept_replicate (n : nat) (seconds : Z) :
  slept (replicate n (EvSleep seconds)) = Z.of_nat n * seconds.
Proof.
  induction n as [|n IH]; [reflexivity|].
  cbn [replicate slept]. rewrite IH. lia.
Qed.

(** X18. [get_aws_query_results] polls until the first answer whose
    status is not [Running] and returns the results of that answer: it
    pauses one second before every poll, the first one included, so after
    [k] running answers it has slept [k + 1] seconds. Any other status ends
    the wait, [Failed] or [Cancelled] as well as [Complete]. There is no
    bound on the polls: a query that stays [Running] is polled for ever. *)
Theorem get_aws_query_results_polls (poll : nat → AWS.query_response) :
  (∀ k s rows,
     (∀ i, (i < k)%nat → AWS.status (poll i) = Some "Running") →
     AWS.status (poll k) = Some s → s ≠ "Running" →
     AWS.results (poll k) = Some rows →
     (∀ fuel, (k < fuel)%nat →
        AWS.get_aws_query_results poll fuel
        = Some (Ok (rows, replicate (S k) (EvSleep 1)))) ∧
     slept (replicate (S k) (EvSleep 1)) = Z.of_nat k + 1) ∧
  ((∀ i, AWS.status (poll i) = Some "Running") →
   ∀ fuel, AWS.get_aws_query_results poll fuel = None).
Proof.
  split.
  - intros k s rows Hrun Hs Hne Hrows. split.
    + intros fuel Hfuel. unfold AWS.get_aws_query_results.
      replace fuel with (S k + (fuel - S k))%nat by lia.
      by rewrite (poll_loop_running poll k s rows Hrun Hs Hne Hrows k (fuel - S k)%nat
                    0%nat None [] eq_refl (or_introl eq_refl)).
    + rewrite slept_replicate. lia.
  - intros Hrun fuel. unfold AWS.get_aws_query_results.
    apply poll_loop_forever; [exact Hrun|by left].
Qed.

Lemma get_aws_query_results_polls_witness :
  AWS.get_aws_query_results
    (λ n, if (n <? 2)%nat then AWS.mkResponse (Some "Running") (Some [])
          else AWS.mkResponse (Some "Failed") (Some [])) 3
  = Some (Ok ([], replicate 3 (EvSleep 1))).
Proof.
  apply (proj1 (get_aws_query_results_polls _) 2%nat "Failed" []);
    try reflexivity; try discriminate; try lia.
  intros i Hi. destruct i as [|[|i]]; [reflexivity|reflexivity|lia].
Defined.

(** ** Azure: the retry loop on any answers *)

Section AzureLoop.

Import ReconcilerSpec.

Variable float : string → result Q.
Variable query : nat → list Azure.row.
Variable retry_interval : Z.

Lemma azure_loop_bounded (ids : gset (option string)) (remaining : nat) :
  0 ≤ retry_interval →
  (∀ n, Forall (λ row, azure_row_ok float ids row = true) (query n)) →
  ∀ retries processed to_process requests trace,
    dom requests = ids →
    ∃ processed' requests' tr,
      Azure.retry_loop float query retry_interval remaining retries processed to_process
        requests trace = Ok (processed', requests', trace ++ tr) ∧
      dom requests' = ids ∧
      (count_events is_query tr ≤ remaining)%nat ∧
      0 ≤ slept tr ≤ Z.of_nat remaining * retry_interval ∧
      count_events is_warning tr = 0%nat.
Proof.
  intros Hpos Hok.
  induction remaining as [|remaining IH]; intros retries processed to_process requests trace
    Hdom.
  - exists processed, requests, []. rewrite app_nil_r. simpl. repeat split; auto; lia.
  - rewrite retry_loop_S. destruct (size processed <? len requests)%nat.
    + destruct (azure_rows_spec float (query retries) processed ids requests (Hok retries)
                  Hdom) as (requests1 & -> & Hdom1 & _).
      rewrite bind_ok. cbn [fst snd].
      destruct (size (processed ∪ azure_matched (query retries) ids) <? len requests1)%nat.
      * destruct (IH (S retries) (processed ∪ azure_matched (query retries) ids)
                    to_process requests1
                    ((trace ++ [EvQuery;
                                EvLogInfoFound
                                  (size (processed ∪ azure_matched (query retries) ids))
                                  (len requests1)])
                     ++ [EvLogInfoMissing
                           (to_process ∖ (processed ∪ azure_matched (query retries) ids));
                         EvSleep retry_interval]) Hdom1)
          as (p' & r' & tr & -> & Hd' & Hq & Hs & Hw).
        eexists p', r', _. split; [by rewrite <- !app_assoc|].
        split; [exact Hd'|].
        rewrite !count_events_app, !slept_app. cbn [app slept].
        change (count_events is_query
                  [EvQuery;
                   EvLogInfoFound (size (processed ∪ azure_matched (query retries) ids))
                     (len requests1)]) with 1%nat.
        change (count_events is_query
                  [EvLogInfoMissing
                     (to_process ∖ (processed ∪ azure_matched (query retries) ids));
                   EvSleep retry_interval]) with 0%nat.
        change (count_events is_warning
                  [EvQuery;
                   EvLogInfoFound (size (processed ∪ azure_matched (query retries) ids))
                     (len requests1)]) with 0%nat.
        change (count_events is_warning
                  [EvLogInfoMissing
                     (to_process ∖ (processed ∪ azure_matched (query retries) ids));
                   EvSleep retry_interval]) with 0%nat.
        repeat split; lia.
      * eexists _, requests1, _. split; [reflexivity|]. split; [exact Hdom1|].
        change (count_events is_query
                  [EvQuery;
                   EvLogInfoFound (size (processed ∪ azure_matched (query retries) ids))
                     (len requests1)]) with 1%nat.
        cbn [slept]. repeat split; try lia; try reflexivity.
    + exists processed, requests, []. rewrite app_nil_r. unfold count_events. simpl.
      repeat split; auto; try lia; nia.
Qed.

End AzureLoop.

(** X19. Azure's reconciler comes to an end on any answers: if every
    returned row of a pending invocation carries a number as its execution
    time, [enrich_metrics] returns, whatever the queries match, after at most
    [max_retries] queries and at most [100 + max_retries * retry_interval]
    seconds of sleep (200 with the constants of the code), with at most one
    warning and the keys it was given. *)
Theorem azure_enrich_metrics_bounded
    (float : string → result Q) (query : nat → list Azure.row)
    (max_retries : nat) (retry_interval : Z)
    (requests : gmap (option string) FunctionInvocationResult) :
  0 ≤ retry_interval →
  (∀ n, Forall (λ row, ReconcilerSpec.azure_row_ok float (dom requests) row = true)
          (query n)) →
  ∃ requests' tr,
    Azure.enrich_metrics_with float query max_retries retry_interval requests
      = Ok (requests', tr) ∧
    dom requests' = dom requests ∧
    (count_events is_query tr ≤ max_retries)%nat ∧
    slept tr ≤ 100 + Z.of_nat max_retries * retry_interval ∧
    (count_events ReconcilerSpec.is_warning tr ≤ 1)%nat.
Proof.
  intros Hpos Hok. unfold Azure.enrich_metrics_with.
  destruct (azure_loop_bounded float query retry_interval (dom requests) max_retries
              Hpos Hok 0%nat ∅ (dom requests) requests [EvSleep 100] eq_refl)
    as (p' & r' & tr & -> & Hd & Hq & Hs & Hw).
  rewrite bind_ok. cbn [fst snd].
  destruct (size p' <? len r')%nat; eexists _, _; (split; [reflexivity|]);
    (split; [exact Hd|]);
    rewrite ?count_events_app, ?slept_app; cbn [slept];
    change (count_events is_query [EvSleep 100]) with 0%nat;
    change (count_events ReconcilerSpec.is_warning [EvSleep 100]) with 0%nat;
    try change (count_events is_query
                  [EvLogWarning (size (dom requests ∖ p')) max_retries]) with 0%nat;
    try change (count_events ReconcilerSpec.is_warning
                  [EvLogWarning (size (dom requests ∖ p')) max_retries]) with 1%nat;
    repeat split; lia.
Qed.

Lemma azure_enrich_metrics_bounded_witness :
  ∃ requests' tr,
    Azure.enrich_metrics_with Examples.float Examples.azure_rows_ab 10 10
      (ReconcilerSpec.three "a" "b" "c" (Examples.record_of "a") (Examples.record_of "b")
         (Examples.record_of "c"))
      = Ok (requests', tr) ∧
    (count_events is_query tr ≤ 10)%nat ∧ slept tr ≤ 200.
Proof.
  destruct (azure_enrich_metrics_bounded Examples.float Examples.azure_rows_ab 10 10
              (ReconcilerSpec.three "a" "b" "c" (Examples.record_of "a")
                 (Examples.record_of "b") (Examples.record_of "c")))
    as (requests' & tr & Hrun & _ & Hq & Hs & _).
  - lia.
  - intros n. repeat constructor.
  - exists requests', tr. split; [exact Hrun|]. split; [exact Hq|]. lia.
Defined.

(** ** Azure and GCP: matches that add up, rows that cannot be read *)

Section Reconcilers.

Import ReconcilerSpec.

Variable float : string → result Q.

Lemma azure_matched_subseteq (rows : list Azure.row) (ids : gset (option string)) :
  azure_matched rows ids ⊆ ids.
Proof.
  unfold azure_matched. intros k Hk. apply elem_of_list_to_set in Hk.
  apply list_elem_of_In, List.filter_In in Hk as [_ Hk]. by apply bool_decide_eq_true in Hk.
Qed.

Lemma enriched_has_time (r r' : FunctionInvocationResult) :
  enriched r r' → is_Some (provider_time r').
Proof. intros [t ->]. by eexists. Qed.

Lemma azure_process_rows_app (rows1 rows2 : list Azure.row)
    (processed : gset (option string))
    (requests : gmap (option string) FunctionInvocationResult) :
  Azure.process_rows float (rows1 ++ rows2) processed requests
  = r ← Azure.process_rows float rows1 processed requests;
    Azure.process_rows float rows2 r.1 r.2.
Proof.
  revert processed requests. induction rows1 as [|row rows1 IH]; intros processed requests.
  - reflexivity.
  - cbn [app Azure.process_rows].
    destruct (requests !! Azure.invocation_id row); [|apply IH].
    destruct (match Azure.func_exec_time row with
              | Some s => float s
              | None => Raise TypeError
              end); [|reflexivity].
    rewrite !bind_ok. apply IH.
Qed.

Lemma gcp_process_entries_app (logs1 logs2 : list GCP.entry)
    (processed ids : gset (option string))
    (requests : gmap (option string) FunctionInvocationResult) :
  GCP.process_entries float (logs1 ++ logs2) processed ids requests
  = r ← GCP.process_entries float logs1 processed ids requests;
    GCP.process_entries float logs2 r.1 ids r.2.
Proof.
  revert processed requests. induction logs1 as [|e logs1 IH]; intros processed requests.
  - reflexivity.
  - cbn [app]. rewrite !process_entries_cons.
    destruct (gcp_read_entry float e) as [[[inv duration]|]|]; [|apply IH|reflexivity].
    destruct (decide (Some inv ∈ ids)); [|apply IH].
    destruct (requests !! Some inv); [apply IH|reflexivity].
Qed.

End Reconcilers.

(** X20. Azure's reconciler adds up what its attempts find, and stops as
    soon as every pending invocation was found: when the first query matches
    them all it returns after that one query, with no pause beyond the fixed
    delay and no warning; when the first query matches only some and the
    second the rest, it returns after two queries and one pause. Either way
    every record then has a provider time. *)
Theorem azure_matches_add_up
    (float : string → result Q) (query : nat → list Azure.row)
    (max_retries : nat) (retry_interval : Z)
    (requests : gmap (option string) FunctionInvocationResult) :
  requests ≠ ∅ →
  Forall (λ row, ReconcilerSpec.azure_row_ok float (dom requests) row = true)
    (query 0%nat) →
  Forall (λ row, ReconcilerSpec.azure_row_ok float (dom requests) row = true)
    (query 1%nat) →
  ((1 ≤ max_retries)%nat →
   ReconcilerSpec.azure_matched (query 0%nat) (dom requests) = dom requests →
   ∃ requests',
     Azure.enrich_metrics_with float query max_retries retry_interval requests
     = Ok (requests',
           [EvSleep 100; EvQuery; EvLogInfoFound (len requests) (len requests)]) ∧
     ∀ k r, requests !! k = Some r →
       ∃ r', requests' !! k = Some r' ∧ is_Some (provider_time r')) ∧
  ((2 ≤ max_retries)%nat →
   ReconcilerSpec.azure_matched (query 0%nat) (dom requests) ≠ dom requests →
   ReconcilerSpec.azure_matched (query 0%nat) (dom requests)
     ∪ ReconcilerSpec.azure_matched (query 1%nat) (dom requests) = dom requests →
   ∃ requests',
     Azure.enrich_metrics_with float query max_retries retry_interval requests
     = Ok (requests',
           [EvSleep 100; EvQuery;
            EvLogInfoFound
              (size (ReconcilerSpec.azure_matched (query 0%nat) (dom requests)))
              (len requests);
            EvLogInfoMissing
              (dom requests ∖ ReconcilerSpec.azure_matched (query 0%nat) (dom requests));
            EvSleep retry_interval;
            EvQuery; EvLogInfoFound (len requests) (len requests)]) ∧
     ∀ k r, requests !! k = Some r →
       ∃ r', requests' !! k = Some r' ∧ is_Some (provider_time r')).
Proof.
  intros Hne Hok0 Hok1.
  assert (Hpos : (0 <? len requests)%nat = true).
  { apply Nat.ltb_lt. unfold len.
    destruct (decide (size requests = 0%nat)) as [Hz|]; [|lia].
    by apply map_size_empty_iff in Hz. }
  destruct (azure_rows_spec float (query 0%nat) ∅ (dom requests) requests Hok0 eq_refl)
    as (requests1 & Hrun1 & Hdom1 & Hspec1).
  rewrite union_empty_l_L in Hrun1.
  assert (Hlen1 : len requests1 = len requests).
  { unfold len. by rewrite <- !size_dom, Hdom1. }
  assert (Hsz : size (dom requests) = len requests) by apply size_dom.
  split.
  - intros Hmax Hall. exists requests1. split.
    + unfold Azure.enrich_metrics_with.
      destruct max_retries as [|m]; [lia|].
      rewrite retry_loop_S. rewrite size_empty, Hpos, Hrun1, bind_ok. cbn [fst snd].
      rewrite Hall, Hlen1, Hsz, Nat.ltb_irrefl.
      rewrite bind_ok. cbn [fst snd].
      by rewrite Hlen1, Hsz, Nat.ltb_irrefl.
    + intros k r Hk. destruct (Hspec1 k) as [Hin _].
      destruct Hin as (r0 & r' & _ & Hr' & Henr).
      { rewrite Hall. apply elem_of_dom. eauto. }
      exists r'. split; [exact Hr'|]. by eapply enriched_has_time.
  - intros Hmax Hsome Hboth.
    assert (Hok1' : Forall (λ row,
              ReconcilerSpec.azure_row_ok float (dom requests) row = true) (query 1%nat))
      by exact Hok1.
    destruct (azure_rows_spec float (query 1%nat)
                (ReconcilerSpec.azure_matched (query 0%nat) (dom requests))
                (dom requests) requests1 Hok1' Hdom1)
      as (requests2 & Hrun2 & Hdom2 & Hspec2).
    assert (Hlen2 : len requests2 = len requests).
    { unfold len. by rewrite <- !size_dom, Hdom2. }
    assert (Hlt : (size (ReconcilerSpec.azure_matched (query 0%nat) (dom requests))
                   <? len requests)%nat = true).
    { apply Nat.ltb_lt. unfold len. rewrite <- size_dom.
      apply subset_size. split; [apply azure_matched_subseteq|].
      intros Hsub. apply Hsome. apply set_eq. intros x. split.
      - apply azure_matched_subseteq.
      - apply Hsub. }
    exists requests2. split.
    + unfold Azure.enrich_metrics_with.
      destruct max_retries as [|[|m]]; [lia|lia|].
      rewrite retry_loop_S. rewrite size_empty, Hpos, Hrun1, bind_ok. cbn [fst snd].
      rewrite Hlen1, Hlt.
      rewrite retry_loop_S. rewrite Hlen1, Hlt, Hrun2, bind_ok. cbn [fst snd].
      rewrite Hboth, Hlen2, Hsz, Nat.ltb_irrefl.
      rewrite bind_ok. cbn [fst snd].
      by rewrite Hlen2, Hsz, Nat.ltb_irrefl.
    + intros k r Hk.
      destruct (decide (k ∈ ReconcilerSpec.azure_matched (query 1%nat) (dom requests)))
        as [Hin|Hout].
      * destruct (proj1 (Hspec2 k) Hin) as (r1 & r2 & _ & Hr2 & Henr).
        exists r2. split; [exact Hr2|]. by eapply enriched_has_time.
      * assert (Hin0 : k ∈ ReconcilerSpec.azure_matched (query 0%nat) (dom requests)).
        { assert (Hkd : k ∈ dom requests) by (apply elem_of_dom; eauto).
          rewrite <- Hboth in Hkd. set_solver. }
        destruct (proj1 (Hspec1 k) Hin0) as (r0 & r1 & _ & Hr1 & Henr).
        exists r1. split; [|by eapply enriched_has_time].
        rewrite (proj2 (Hspec2 k) Hout). exact Hr1.
Qed.

Lemma azure_matches_add_up_witness :
  ∃ requests',
    Azure.enrich_metrics_with Examples.float
      (λ n, match n with
            | O => [Azure.mkRow (Some "a") (Some "250")]
            | _ => [Azure.mkRow (Some "b") (Some "12.34")]
            end) 10 10
      (<[Some "a" := Examples.record_of "a"]> {[Some "b" := Examples.record_of "b"]})
    = Ok (requests',
          [EvSleep 100; EvQuery; EvLogInfoFound 1 2; EvLogInfoMissing {[Some "b"]};
           EvSleep 10; EvQuery; EvLogInfoFound 2 2]).
Proof.
  destruct (azure_matches_add_up Examples.float
              (λ n, match n with
                    | O => [Azure.mkRow (Some "a") (Some "250")]
                    | _ => [Azure.mkRow (Some "b") (Some "12.34")]
                    end) 10 10
              (<[Some "a" := Examples.record_of "a"]>
                 {[Some "b" := Examples.record_of "b"]})) as [_ Htwo].
  - intros H. apply (f_equal (λ m, m !! Some "a")) in H.
    by rewrite lookup_insert_eq, lookup_empty in H.
  - repeat constructor.
  - repeat constructor.
  - destruct Htwo as (requests' & Hrun & _).
    + lia.
    + intros H. apply (f_equal (λ s, bool_decide (Some "b" ∈ s))) in H.
      vm_compute in H. discriminate.
    + apply set_eq. intros x. vm_compute. set_solver.
    + exists requests'. rewrite Hrun. vm_compute. reflexivity.
Defined.

(** X21. One row is enough to end Azure's reconciliation: a row of a
    pending invocation whose execution time is [null] makes [float] raise
    [TypeError], one whose execution time is no number makes it raise
    [ValueError], and [enrich_metrics] lets either through, whatever the
    other rows are and although retries are left. *)
Theorem azure_unreadable_time_raises
    (float : string → result Q) (query : nat → list Azure.row)
    (max_retries : nat) (retry_interval : Z)
    (requests : gmap (option string) FunctionInvocationResult)
    (before after : list Azure.row) (row : Azure.row) (e : exn) :
  (0 < max_retries)%nat →
  query 0%nat = before ++ row :: after →
  Forall (λ row, ReconcilerSpec.azure_row_ok float (dom requests) row = true) before →
  is_Some (requests !! Azure.invocation_id row) →
  match Azure.func_exec_time row with
  | Some s => float s
  | None => Raise TypeError
  end = Raise e →
  Azure.enrich_metrics_with float query max_retries retry_interval requests = Raise e.
Proof.
  intros Hmax Hquery Hbefore [r Hr] Htime.
  assert (Hpos : (0 <? len requests)%nat = true).
  { apply Nat.ltb_lt. unfold len.
    destruct (decide (size requests = 0%nat)) as [Hz|]; [|lia].
    apply map_size_empty_iff in Hz. rewrite Hz in Hr. by rewrite lookup_empty in Hr. }
  destruct (azure_rows_spec float before ∅ (dom requests) requests Hbefore eq_refl)
    as (requests1 & Hrun1 & Hdom1 & _).
  assert (Hr1 : is_Some (requests1 !! Azure.invocation_id row)).
  { apply elem_of_dom. rewrite Hdom1. apply elem_of_dom. eauto. }
  destruct Hr1 as [r1 Hr1].
  unfold Azure.enrich_metrics_with. destruct max_retries as [|m]; [lia|].
  rewrite retry_loop_S, size_empty, Hpos, Hquery, azure_process_rows_app, Hrun1, bind_ok.
  cbn [fst snd Azure.process_rows]. rewrite Hr1, Htime. reflexivity.
Qed.

Lemma azure_unreadable_time_raises_witness :
  Azure.enrich_metrics_with Examples.float
    (λ _, [Azure.mkRow (Some "old-1") None; Azure.mkRow (Some "a") None]) 10 10
    {[Some "a" := Examples.record_of "a"]}
  = Raise TypeError.
Proof.
  apply (azure_unreadable_time_raises Examples.float _ 10 10 _
           [Azure.mkRow (Some "old-1") None] [] (Azure.mkRow (Some "a") None) TypeError).
  - lia.
  - reflexivity.
  - repeat constructor.
  - rewrite lookup_singleton_eq. by eexists.
  - reflexivity.
Defined.

(** X22. One log entry is enough to end GCP's reconciliation: a plain
    [LogEntry] that has a trace but no [httpRequest] (or an [httpRequest]
    without [latency]) raises [KeyError], because the latency is read before
    the entry's id is compared with the pending ones. The entry need not
    belong to the run. *)
Theorem gcp_entry_without_latency_raises
    (float : string → result Q)
    (requests : gmap (option string) FunctionInvocationResult)
    (before after : list GCP.entry) (e : GCP.entry) (c : ascii) (t : string) :
  Forall (λ e, is_ok (ReconcilerSpec.gcp_read_entry float e) = true) before →
  GCP.is_LogEntry e = true →
  GCP.trace e = Some (String c t) →
  (GCP.httpRequest e = None →
   GCP.enrich_metrics float (Some (before ++ e :: after)) requests
   = Raise (KeyError (Some "httpRequest"))) ∧
  (GCP.httpRequest e = Some None →
   GCP.enrich_metrics float (Some (before ++ e :: after)) requests
   = Raise (KeyError (Some "latency"))).
Proof.
  intros Hbefore Hlog Htrace.
  destruct (gcp_entries_spec float before ∅ (dom requests) requests Hbefore eq_refl)
    as (requests1 & Hrun1 & _).
  assert (Hinv : ∃ inv, GCP.invocation_id_of (String c t) = Ok inv).
  { unfold GCP.invocation_id_of, index_last.
    destruct (Py.split "/" (String c t)) as [|w ws] eqn:E; [by apply split_nonempty in E|].
    assert (Hl : ∀ (l : list string) (x : string),
              ∃ y, List.last (List.map Some (x :: l)) None = Some y).
    { induction l as [|z l IHl]; intros x; [by eexists|]. apply (IHl z). }
    destruct (Hl ws w) as [y ->]. by eexists. }
  destruct Hinv as [inv Hinv].
  assert (Hgen : ∀ key,
    GCP.latency_of e = Raise (KeyError (Some key)) →
    GCP.enrich_metrics float (Some (before ++ e :: after)) requests
    = Raise (KeyError (Some key))).
  { intros key Hlat.
    assert (Hloop : GCP.process_entries float (before ++ e :: after) ∅ (dom requests)
                      requests = Raise (KeyError (Some key))).
    { rewrite gcp_process_entries_app, Hrun1, bind_ok. cbn [fst snd].
      rewrite process_entries_cons. unfold ReconcilerSpec.gcp_read_entry.
      rewrite Hlog, Htrace. cbn [negb]. by rewrite Hinv, bind_ok, Hlat. }
    destruct before as [|b before'].
    - cbn [app] in *. by rewrite gcp_enrich_cons, Hloop.
    - cbn [app] in *. by rewrite gcp_enrich_cons, Hloop. }
  split; intros Hreq; apply Hgen; unfold GCP.latency_of; by rewrite Hreq.
Qed.

Lemma gcp_entry_without_latency_raises_witness :
  GCP.enrich_metrics Examples.float
    (Some ([Examples.gcp_entry "projects/p/traces/a"]
           ++ GCP.mkEntry true (Some "projects/p/traces/other-run") None :: []))
    {[Some "a" := Examples.record_of "a"]}
  = Raise (KeyError (Some "httpRequest")).
Proof.
  apply (proj1 (gcp_entry_without_latency_raises Examples.float
                  {[Some "a" := Examples.record_of "a"]}
                  [Examples.gcp_entry "projects/p/traces/a"] []
                  (GCP.mkEntry true (Some "projects/p/traces/other-run") None)
                  "p" "rojects/p/traces/other-run"
                  ltac:(repeat constructor) eq_refl eq_refl)).
  reflexivity.
Defined.

(** X23. GCP's reconciler asks for the logs once: whatever comes back,
    if every entry can be read it returns after the single fetch and the
    fixed 60 s, with the keys it was given; without entries (the listing
    failed or is empty) it logs an error and returns the records as they
    are. It never retries. *)
Theorem gcp_enrich_metrics_single_fetch
    (float : string → result Q) (logs : option (list GCP.entry))
    (requests : gmap (option string) FunctionInvocationResult) :
  (∀ entries, logs = Some entries →
     Forall (λ e, is_ok (ReconcilerSpec.gcp_read_entry float e) = true) entries) →
  ∃ requests' tr,
    GCP.enrich_metrics float logs requests = Ok (requests', tr) ∧
    dom requests' = dom requests ∧
    count_events is_query tr = 1%nat ∧
    slept tr = 60 ∧
    (logs = None ∨ logs = Some [] →
     requests' = requests ∧ tr = [EvSleep 60; EvQuery; EvLogError "No logs found"]).
Proof.
  intros Hok. destruct logs as [[|e entries]|].
  - exists requests, [EvSleep 60; EvQuery; EvLogError "No logs found"].
    repeat split; reflexivity.
  - destruct (gcp_entries_spec float (e :: entries) ∅ (dom requests) requests
                (Hok _ eq_refl) eq_refl) as (requests1 & Hrun & Hdom & _).
    rewrite gcp_enrich_cons, Hrun, bind_ok. cbn [fst snd].
    destruct (size _ <? len requests1)%nat; eexists _, _;
      (split; [reflexivity|]); (split; [exact Hdom|]);
      (split; [reflexivity|]); (split; [reflexivity|]);
      intros [H|H]; discriminate.
  - exists requests, [EvSleep 60; EvQuery; EvLogError "No logs found"].
    repeat split; reflexivity.
Qed.

Lemma gcp_enrich_metrics_single_fetch_witness :
  ∃ requests' tr,
    GCP.enrich_metrics Examples.float (Some Examples.gcp_logs_ab)
      (ReconcilerSpec.three "a" "b" "c" (Examples.record_of "a") (Examples.record_of "b")
         (Examples.record_of "c")) = Ok (requests', tr) ∧
    count_events is_query tr = 1%nat ∧ slept tr = 60.
Proof.
  destruct (gcp_enrich_metrics_single_fetch Examples.float (Some Examples.gcp_logs_ab)
              (ReconcilerSpec.three "a" "b" "c" (Examples.record_of "a")
                 (Examples.record_of "b") (Examples.record_of "c")))
    as (requests' & tr & Hrun & _ & Hq & Hs & _).
  - intros entries [= <-]. repeat constructor.
  - exists requests', tr. auto.
Defined.

(** ** Enforcement on a counter that is there, absent, or no number *)

Lemma int_error (s : string) (e : exn) : int s = Raise e → e = ValueError.
Proof.
  unfold int. destruct (numeral_digits _ ≫= NilEmpty.uint_of_string);
    [discriminate|by intros [= <-]].
Qed.

Lemma bump_env_spec (env : list (string * string)) :
  match RunnerSpec.env_lookup env with
  | None => GCP.bump_env env = Ok None
  | Some v =>
      match int v with
      | Ok n =>
          ∃ pre post,
            env = pre ++ (cold_start_var, v) :: post ∧
            RunnerSpec.env_lookup pre = None ∧
            GCP.bump_env env = Ok (Some (pre ++ (cold_start_var, str (n + 1)) :: post))
      | Raise e => GCP.bump_env env = Raise e
      end
  end.
Proof.
  induction env as [|[name value] env IH]; [reflexivity|].
  cbn [RunnerSpec.env_lookup GCP.bump_env].
  destruct (String.eqb_spec name cold_start_var) as [->|Hne].
  - destruct (int value) as [n|e]; [|reflexivity].
    exists [], env. repeat split; reflexivity.
  - destruct (RunnerSpec.env_lookup env) as [v|].
    + destruct (int v) as [n|e].
      * destruct IH as (pre & post & -> & Hpre & ->).
        exists ((name, value) :: pre), post. repeat split.
        cbn [RunnerSpec.env_lookup]. by destruct (String.eqb_spec name cold_start_var).
      * by rewrite IH.
    + by rewrite IH.
Qed.

(** X24. Enforcing a cold start on a Cloud Run service changes one
    variable and never fails: the other variables of the container keep
    their values and their order; a missing [cold_start_var] is appended with
    the value [1]; one that [int] reads is replaced in place by the successor
    of its number; and one, in ASCII, that [int] refuses leaves the whole
    environment as it was, the exception of [int] being caught and logged. *)
Theorem cloud_run_enforcement_changes_one_variable (env : list (string * string)) :
  (∀ k v, k ≠ cold_start_var →
     (k, v) ∈ GCP._enforce_cold_start_on_cloud_run env ↔ (k, v) ∈ env) ∧
  (RunnerSpec.env_lookup env = None →
   GCP._enforce_cold_start_on_cloud_run env = env ++ [(cold_start_var, "1")]) ∧
  (∀ v n, RunnerSpec.env_lookup env = Some v → int v = Ok n →
     ∃ pre post,
       env = pre ++ (cold_start_var, v) :: post ∧
       RunnerSpec.env_lookup pre = None ∧
       GCP._enforce_cold_start_on_cloud_run env
       = pre ++ (cold_start_var, str (n + 1)) :: post) ∧
  (∀ v, RunnerSpec.env_lookup env = Some v → isascii v = true →
     is_ok (int v) = false →
     GCP._enforce_cold_start_on_cloud_run env = env).
Proof.
  pose proof (bump_env_spec env) as Hspec.
  unfold GCP._enforce_cold_start_on_cloud_run.
  destruct (RunnerSpec.env_lookup env) as [v|] eqn:El.
  - destruct (int v) as [n|e] eqn:Ei.
    + destruct Hspec as (pre & post & -> & Hpre & ->).
      split; [|split; [done|split]].
      * intros k v' Hk. rewrite !elem_of_app, !elem_of_cons.
        split; (intros [?|[[= ? ?]|?]]; [by left|done|by right; right]).
      * intros v0 n0 [= <-] Hn0. rewrite Ei in Hn0. injection Hn0 as <-.
        by exists pre, post.
      * intros v0 [= <-] _ Hbad. by rewrite Ei in Hbad.
    + rewrite Hspec. split; [done|]. split; [done|]. split; [|done].
      intros v0 n0 [= <-] Hn0. by rewrite Ei in Hn0.
  - rewrite Hspec. split; [|split; [done|split; intros; discriminate]].
    intros k v Hk. rewrite elem_of_app, list_elem_of_singleton.
    split; [intros [?|[= ? ?]]; [done|done]|by left].
Qed.


(** X25. A stored counter, in ASCII, that [int] refuses (text that is no
    numeral once the white space around it and one sign are set aside) stops
    a cold run before its first call on AWS, on Azure and on a GCP Cloud
    Function: the enforcement raises the [ValueError] of [int], and
    [start_run] does not catch it. On a GCP Cloud Run service the same value
    is passed over: the enforcement returns with the configuration
    unchanged. *)
Theorem enforce_cold_start_non_numeric_counter
    (prov : string) (native : bool) (c : Benchmarker.cloud) (v : string) :
  RunnerSpec.stored_counter prov native c = Some v →
  isascii v = true →
  is_ok (int v) = false →
  (prov = "aws" ∨ prov = "azure" ∨ (prov = "gcp" ∧ native = false) →
   Benchmarker.enforce_cold_start prov native c = Raise ValueError ∧
   ∀ json_loads repetitions o outcomes,
     0 < repetitions →
     Benchmarker.cold_run json_loads prov native repetitions c (o :: outcomes)
     = Some (Raise ValueError)) ∧
  (prov = "gcp" ∧ native = true →
   Benchmarker.enforce_cold_start prov native c = Ok c).
Proof.
  intros Hstored _ Hbad.
  assert (Hint : int v = Raise ValueError).
  { destruct (int v) as [n|e] eqn:E; [discriminate|]. by rewrite (int_error _ _ E). }
  split.
  - intros Hprov.
    assert (Henf : Benchmarker.enforce_cold_start prov native c = Raise ValueError).
    { destruct Hprov as [->|[->|[-> ->]]];
        unfold RunnerSpec.stored_counter in Hstored; cbn in Hstored;
        unfold Benchmarker.enforce_cold_start; cbn [String.eqb Ascii.eqb Bool.eqb];
        unfold AWS.enforce_cold_start, Azure.enforce_cold_start,
          GCP.enforce_cold_start_function;
        rewrite Hstored; cbn [from_option id]; by rewrite Hint. }
    split; [exact Henf|].
    intros json_loads repetitions o outcomes Hrep.
    unfold Benchmarker.cold_run. rewrite cold_loop_cons. cbn [Benchmarker.cold_start_counter
      Benchmarker.run_cloud]. by rewrite (proj2 (Z.ltb_lt _ _) Hrep), Henf.
  - intros [-> ->]. unfold RunnerSpec.stored_counter in Hstored. cbn in Hstored.
    unfold Benchmarker.enforce_cold_start. cbn [String.eqb Ascii.eqb Bool.eqb].
    pose proof (bump_env_spec (Benchmarker.run_env c)) as Hspec.
    rewrite Hstored, Hint in Hspec.
    unfold GCP._enforce_cold_start_on_cloud_run. rewrite Hspec. by destruct c.
Qed.

Lemma enforce_cold_start_non_numeric_counter_witness :
  Benchmarker.enforce_cold_start "aws" false
    (Benchmarker.mkCloud {[cold_start_var := "seven"]} ∅ ∅ []) = Raise ValueError.
Proof.
  apply (enforce_cold_start_non_numeric_counter "aws" false
           (Benchmarker.mkCloud {[cold_start_var := "seven"]} ∅ ∅ []) "seven");
    [reflexivity|reflexivity|reflexivity|by left].
Defined.

(** ** GCP: enabling the APIs; the memory of a benchmark *)

Lemma necessary_apis_NoDup : NoDup GCP.necessary_apis.
Proof. apply (bool_decide_unpack _). vm_compute. reflexivity. Qed.

(** X26. [_enable_necessary_apis] enables what is missing, once: with a
    project configured and the APIs not yet marked, it runs [gcloud services
    enable] for exactly the necessary APIs that the listing does not show,
    each once, marks the configuration and changes no other key of it; a
    further call, whatever the listing shows then, runs nothing and leaves
    the configuration as it is. When the listing comes back empty nothing is
    enabled and nothing is marked. *)
Theorem enable_necessary_apis_once
    (gcp : list (string * JSON)) (enabled : list string) :
  truthy (default (JBool false) (assoc "apis_enabled" gcp)) = false →
  truthy (default JNull (assoc "project" gcp)) = true →
  ∃ gcp' apis,
    GCP._enable_necessary_apis gcp (Some enabled) = Ok (gcp', apis) ∧
    (∀ api, api ∈ GCP.necessary_apis → api ∈ enabled ∨ api ∈ apis) ∧
    (∀ api, api ∈ apis → api ∈ GCP.necessary_apis ∧ api ∉ enabled) ∧
    NoDup apis ∧
    (∀ k, k ≠ "apis_enabled" → assoc k gcp' = assoc k gcp) ∧
    (∀ listing, GCP._enable_necessary_apis gcp' listing = Ok (gcp', [])) ∧
    GCP._enable_necessary_apis gcp None = Ok (gcp, []).
Proof.
  intros Hflag Hproject.
  exists (setitem "apis_enabled" (JBool true) gcp),
    (List.filter (λ api, negb (bool_decide (api ∈ enabled))) GCP.necessary_apis).
  unfold GCP._enable_necessary_apis. rewrite Hflag, Hproject. cbn [negb].
  split; [reflexivity|]. split; [|split; [|split; [|split; [|split]]]].
  - intros api Hin. destruct (decide (api ∈ enabled)) as [|Hout]; [by left|right].
    apply list_elem_of_In, List.filter_In. split; [by apply list_elem_of_In|].
    by rewrite bool_decide_eq_false_2.
  - intros api Hin. apply list_elem_of_In, List.filter_In in Hin as [Hin Hout].
    split; [by apply list_elem_of_In|].
    apply negb_true_iff, bool_decide_eq_false in Hout. exact Hout.
  - apply NoDup_ListNoDup, List.NoDup_filter, NoDup_ListNoDup, necessary_apis_NoDup.
  - intros k Hk. apply assoc_setitem_ne. congruence.
  - intros listing. by rewrite assoc_setitem_eq.
  - reflexivity.
Qed.

Lemma enable_necessary_apis_once_witness :
  ∃ gcp' apis,
    GCP._enable_necessary_apis [("project", JStr "bench-1"); ("region", JStr "europe-west3")]
      (Some ["logging.googleapis.com"; "run.googleapis.com"; "compute.googleapis.com"])
    = Ok (gcp', apis) ∧
    length apis = 10%nat ∧
    GCP._enable_necessary_apis gcp' None = Ok (gcp', []).
Proof.
  destruct (enable_necessary_apis_once
              [("project", JStr "bench-1"); ("region", JStr "europe-west3")]
              ["logging.googleapis.com"; "run.googleapis.com"; "compute.googleapis.com"]
              eq_refl eq_refl)
    as (gcp' & apis & Hrun & _ & _ & _ & _ & Hagain & _).
  exists gcp', apis. split; [exact Hrun|]. split; [|apply Hagain].
  vm_compute in Hrun. by injection Hrun as <- <-.
Defined.

(** X27. A benchmark whose memory is one number, not a list, can be
    deployed but not run: [AWS.deploy] and [GCP.deploy] take the number as it
    is (and of a list its first element), while [start_run] iterates over the
    configured value for every provider but azure and so raises [TypeError];
    for azure the memory is never looked at and the one pass runs with
    [None]. *)
Theorem scalar_memory_deploys_but_does_not_run
    (benchmark : list (string * JSON)) (q : Q) :
  assoc "memory" benchmark = Some (JNum q) →
  AWS.deploy_memory (JDict benchmark) = Ok (JNum q) ∧
  (∀ prov, prov ≠ "azure" →
     Benchmarker.memory_sizes prov (JNum q) = Raise TypeError) ∧
  Benchmarker.memory_sizes "azure" (JNum q) = Ok [JNull] ∧
  (∀ first rest, AWS.deploy_memory (JDict [("memory", JList (first :: rest))]) = Ok first) ∧
  (∀ prov sizes, prov ≠ "azure" →
     Benchmarker.memory_sizes prov (JList sizes) = Ok sizes).
Proof.
  intros Hmem. split; [|split; [|split; [|split]]].
  - unfold AWS.deploy_memory, getitem_json. by rewrite Hmem.
  - intros prov Hne. unfold Benchmarker.memory_sizes.
    by destruct (String.eqb_spec prov "azure").
  - reflexivity.
  - reflexivity.
  - intros prov sizes Hne. unfold Benchmarker.memory_sizes.
    by destruct (String.eqb_spec prov "azure").
Qed.

Lemma scalar_memory_deploys_but_does_not_run_witness :
  AWS.deploy_memory (JDict [("name", JStr "echo"); ("memory", JNum 512);
                            ("timeout", JNum 30)]) = Ok (JNum 512) ∧
  Benchmarker.memory_sizes "aws" (JNum 512) = Raise TypeError.
Proof.
  destruct (scalar_memory_deploys_but_does_not_run
              [("name", JStr "echo"); ("memory", JNum 512); ("timeout", JNum 30)] 512
              eq_refl) as (Hdeploy & Hrun & _).
  split; [exact Hdeploy|]. by apply Hrun.
Defined.

(** ** The runner: what the configuration and the deployments select *)

Lemma key_eqb_str_trans (x : string) (k' k0 : JSON) :
  Benchmarker.key_eqb k' k0 = true →
  Benchmarker.key_eqb (JStr x) k0 = Benchmarker.key_eqb (JStr x) k'.
Proof.
  destruct k' as [|[]| | | |], k0 as [|[]| | | |]; cbn; try discriminate; try reflexivity.
  intros H. apply String.eqb_eq in H. by subst.
Qed.

Lemma key_eqb_str_both (x : string) (k' k0 : JSON) :
  Benchmarker.key_eqb (JStr x) k0 = true → Benchmarker.key_eqb (JStr x) k' = true →
  Benchmarker.key_eqb k' k0 = true.
Proof.
  destruct k' as [|[]| | | |], k0 as [|[]| | | |]; cbn; try discriminate.
  intros H1 H2. apply String.eqb_eq in H1, H2. subst. apply String.eqb_refl.
Qed.

Lemma info_lookup_set (x : string) (k' : JSON) (v : Benchmarker.benchmark_info)
    (d : list (JSON * Benchmarker.benchmark_info)) :
  Benchmarker.info_lookup (JStr x) (Benchmarker.info_set k' v d)
  = if Benchmarker.key_eqb (JStr x) k' then Some v
    else Benchmarker.info_lookup (JStr x) d.
Proof.
  induction d as [|[k0 v0] d IH].
  - reflexivity.
  - cbn [Benchmarker.info_set]. destruct (Benchmarker.key_eqb k' k0) eqn:E.
    + cbn [Benchmarker.info_lookup]. rewrite (key_eqb_str_trans x k' k0 E).
      by destruct (Benchmarker.key_eqb (JStr x) k').
    + cbn [Benchmarker.info_lookup]. rewrite IH.
      destruct (Benchmarker.key_eqb (JStr x) k0) eqn:E0; [|reflexivity].
      destruct (Benchmarker.key_eqb (JStr x) k') eqn:E'; [|reflexivity].
      by rewrite (key_eqb_str_both x k' k0 E0 E') in E.
Qed.

Lemma last_list_filter_cons {A : Type} (f : A → bool) (x : A) (l : list A) :
  last (List.filter f (x :: l))
  = match last (List.filter f l) with
    | Some y => Some y
    | None => if f x then Some x else None
    end.
Proof.
  cbn [List.filter]. destruct (f x); [|by destruct (last (List.filter f l))].
  destruct (List.filter f l) as [|y l'] eqn:E; [reflexivity|].
  rewrite last_cons. by destruct (last (y :: l')).
Qed.

Lemma load_benchmarks_last_wins (benchmarks : list (list (string * JSON))) (name : string)
    (d : list (JSON * Benchmarker.benchmark_info)) :
  Forall (λ b, Benchmarker.hashable (default JNull (assoc "name" b)) = true) benchmarks →
  name ≠ "" →
  ∃ info,
    Benchmarker.load_benchmarks (JDict <$> benchmarks) d = Ok info ∧
    Benchmarker.info_lookup (JStr name) info
    = match last (List.filter (λ b, eq_str (default JNull (assoc "name" b)) name)
                    benchmarks) with
      | Some b => Some (SelectionSpec.info_of b)
      | None => Benchmarker.info_lookup (JStr name) d
      end.
Proof.
  intros Hall Hname. revert d. induction Hall as [|b benchmarks Hb _ IH]; intros d.
  - exists d. split; reflexivity.
  - cbn [fmap list_fmap Benchmarker.load_benchmarks get]. rewrite bind_ok.
    rewrite last_list_filter_cons.
    destruct (truthy (default JNull (assoc "name" b))) eqn:Et.
    + rewrite !bind_ok, Hb.
      destruct (IH (Benchmarker.info_set (default JNull (assoc "name" b))
                      (Benchmarker.mkInfo (default JNull (assoc "endpoint" b))
                         (default JNull (assoc "request" b))
                         (default JNull (assoc "memory" b))) d))
        as (info & Hrun & Hlook).
      exists info. split; [exact Hrun|]. rewrite Hlook.
      destruct (last (List.filter _ benchmarks)); [reflexivity|].
      rewrite info_lookup_set.
      destruct (default JNull (assoc "name" b)) as [|[]| |y| |]; cbn; try reflexivity.
      rewrite String.eqb_sym. by destruct (y =? name)%string.
    + destruct (IH d) as (info & Hrun & Hlook).
      exists info. split; [exact Hrun|]. rewrite Hlook.
      destruct (last (List.filter _ benchmarks)); [reflexivity|].
      destruct (default JNull (assoc "name" b)) as [|[]| |y| |]; cbn in *;
        try reflexivity.
      destruct (String.eqb_spec y name) as [->|]; [|reflexivity].
      destruct (String.eqb_spec name ""); [done|discriminate].
Qed.

(** X28. [__load_benchmarks_info] keeps for a name the last benchmark of
    the configuration that carries it: looking up a name that is not empty
    gives the endpoint, the request and the memory of the last benchmark
    whose [name] is that string, each [None] when the benchmark does not have
    it, and nothing when no benchmark has the name. Benchmarks without a name
    are passed over. *)
Theorem load_benchmarks_info_last_wins
    (benchmarks : list (list (string * JSON))) (name : string) :
  Forall (λ b, Benchmarker.hashable (default JNull (assoc "name" b)) = true) benchmarks →
  name ≠ "" →
  ∃ info,
    Benchmarker.__load_benchmarks_info (JList (JDict <$> benchmarks)) = Ok info ∧
    Benchmarker.info_lookup (JStr name) info
    = SelectionSpec.info_of
        <$> last (List.filter (λ b, eq_str (default JNull (assoc "name" b)) name)
                    benchmarks).
Proof.
  intros Hall Hname. unfold Benchmarker.__load_benchmarks_info. cbn [iter].
  rewrite bind_ok.
  destruct (load_benchmarks_last_wins benchmarks name [] Hall Hname)
    as (info & Hrun & Hlook).
  exists info. split; [exact Hrun|]. rewrite Hlook.
  by destruct (last (List.filter _ benchmarks)).
Qed.

Lemma load_benchmarks_info_last_wins_witness :
  ∃ info,
    Benchmarker.__load_benchmarks_info
      (JList (JDict <$> [[("name", JStr "echo"); ("endpoint", JStr "/echo")];
                         [("endpoint", JStr "/nameless")];
                         [("name", JStr "echo"); ("endpoint", JStr "/echo2");
                          ("memory", JList [JNum 512])]]))
    = Ok info ∧
    Benchmarker.info_lookup (JStr "echo") info
    = Some (Benchmarker.mkInfo (JStr "/echo2") JNull (JList [JNum 512])).
Proof.
  destruct (load_benchmarks_info_last_wins
              [[("name", JStr "echo"); ("endpoint", JStr "/echo")];
               [("endpoint", JStr "/nameless")];
               [("name", JStr "echo"); ("endpoint", JStr "/echo2");
                ("memory", JList [JNum 512])]] "echo")
    as (info & Hrun & Hlook).
  - repeat constructor.
  - discriminate.
  - exists info. split; [exact Hrun|exact Hlook].
Defined.

Lemma skipped_false (filter : list string) (x : string) :
  Benchmarker.skipped filter x = false ↔ SelectionSpec.lets_through filter x.
Proof.
  unfold Benchmarker.skipped, SelectionSpec.lets_through.
  destruct filter as [|y l]; [naive_solver|].
  rewrite negb_false_iff, bool_decide_eq_true. naive_solver.
Qed.

Lemma find_upsert {V : Type} (k k' : string) (f : option V → V) (d : list (string * V)) :
  snd <$> List.find (λ kv, String.eqb k kv.1) (Benchmarker.upsert k' f d)
  = if String.eqb k k'
    then Some (f (snd <$> List.find (λ kv, String.eqb k' kv.1) d))
    else snd <$> List.find (λ kv, String.eqb k kv.1) d.
Proof.
  induction d as [|[k0 v] d IH]; cbn [Benchmarker.upsert List.find fst].
  - by destruct (String.eqb k k').
  - destruct (String.eqb_spec k' k0) as [->|Hne]; cbn [List.find fst].
    + by destruct (String.eqb k k0).
    + destruct (String.eqb_spec k k0) as [->|].
      * by destruct (String.eqb_spec k0 k') as [->|].
      * by rewrite IH.
Qed.

Lemma lookup_add_target (p r b p' r' b' : string) (t : Benchmarker.target)
    (results : list (string * list (string * list (string * Benchmarker.target)))) :
  Benchmarker.lookup_target p r b (Benchmarker.add_target p' r' b' t results)
  = if (String.eqb p p' && String.eqb r r' && String.eqb b b')%bool then Some t
    else Benchmarker.lookup_target p r b results.
Proof.
  unfold Benchmarker.lookup_target, Benchmarker.add_target.
  rewrite find_upsert.
  destruct (String.eqb_spec p p') as [->|]; [|reflexivity].
  cbn [mbind option_bind andb]. rewrite find_upsert.
  destruct (String.eqb_spec r r') as [->|]; cbn [mbind option_bind andb].
  - rewrite find_upsert.
    destruct (String.eqb b b'); [reflexivity|].
    destruct (snd <$> List.find (λ kv, String.eqb p' kv.1) results) as [rs|];
      [|reflexivity].
    unfold default. cbn [from_option id mbind option_bind].
    by destruct (snd <$> List.find (λ kv, String.eqb r' kv.1) rs).
  - destruct (snd <$> List.find (λ kv, String.eqb p' kv.1) results) as [rs|];
      reflexivity.
Qed.

Section Selection.

Variable str_of : JSON → string.
Variables providers benchmark_names : list string.
Variable benchmarks_info : list (JSON * Benchmarker.benchmark_info).

(** Whatever holds of the results before the loops and is kept by the
    storing of a target made from a deployed benchmark that passes both
    filters, holds after them. *)
Section Invariant.

Variable Dep : string → string → string → JSON → Prop.
Variable P : list (string * list (string * list (string * Benchmarker.target))) → Prop.
Hypothesis Hstep : ∀ results p r b details info t,
  Dep p r b details →
  Benchmarker.skipped providers p = false →
  Benchmarker.skipped benchmark_names b = false →
  Benchmarker.info_lookup (JStr b) benchmarks_info = Some info →
  SelectionSpec.made_from str_of details info t →
  P results → P (Benchmarker.add_target p r b t results).

Lemma for_benchmarks_inv (p r : string) (l : list (string * JSON))
    (results results' :
      list (string * list (string * list (string * Benchmarker.target)))) :
  Benchmarker.skipped providers p = false →
  (∀ b details, (b, details) ∈ l → Dep p r b details) →
  P results →
  Benchmarker.for_benchmarks str_of benchmark_names benchmarks_info p r l results
  = Ok results' →
  P results'.
Proof.
  intros Hp. revert results.
  induction l as [|[b details] l IH]; intros results Hdep HP Hrun;
    cbn [Benchmarker.for_benchmarks] in Hrun.
  - inversion Hrun; by subst.
  - assert (Hl : ∀ b0 d0, (b0, d0) ∈ l → Dep p r b0 d0)
      by (intros; apply Hdep; by constructor).
    destruct (Benchmarker.skipped benchmark_names b) eqn:Hb; [by eapply IH|].
    destruct (getitem_json details "function_name") as [f|] eqn:Hf; [|discriminate].
    destruct (getitem_json details "url") as [u|] eqn:Hu; [|discriminate].
    rewrite !bind_ok in Hrun.
    destruct (Benchmarker.info_lookup (JStr b) benchmarks_info) as [info|] eqn:Hi;
      [|by eapply IH].
    destruct (get (Benchmarker.info_request info) "method") as [m|] eqn:Hm;
      [|discriminate].
    destruct (get (Benchmarker.info_request info) "body") as [bd|] eqn:Hbd;
      [|discriminate].
    rewrite !bind_ok in Hrun.
    eapply IH; [exact Hl| |exact Hrun].
    eapply Hstep; try eassumption.
    + apply Hdep. by constructor.
    + repeat split; try assumption. by exists u.
Qed.

Lemma for_runtimes_inv (p : string) (l : list (string * JSON))
    (results results' :
      list (string * list (string * list (string * Benchmarker.target)))) :
  Benchmarker.skipped providers p = false →
  (∀ r bs b details, (r, JDict bs) ∈ l → (b, details) ∈ bs → Dep p r b details) →
  P results →
  Benchmarker.for_runtimes str_of benchmark_names benchmarks_info p l results
  = Ok results' →
  P results'.
Proof.
  intros Hp. revert results.
  induction l as [|[r bs] l IH]; intros results Hdep HP Hrun;
    cbn [Benchmarker.for_runtimes] in Hrun.
  - inversion Hrun; by subst.
  - destruct bs as [| | | | |bs]; try discriminate.
    cbn [Benchmarker.items] in Hrun. rewrite bind_ok in Hrun.
    destruct (Benchmarker.for_benchmarks _ _ _ p r bs results) as [results1|] eqn:H1;
      [|discriminate].
    rewrite bind_ok in Hrun.
    eapply IH; [| |exact Hrun].
    + intros r0 bs0 b0 d0 Hin. apply Hdep. by constructor.
    + eapply for_benchmarks_inv; [exact Hp| |exact HP|exact H1].
      intros b0 d0. apply Hdep. by constructor.
Qed.

Lemma for_providers_inv (l : list (string * JSON)) (results results' :
      list (string * list (string * list (string * Benchmarker.target)))) :
  (∀ p rs r bs b details,
     (p, JDict rs) ∈ l → (r, JDict bs) ∈ rs → (b, details) ∈ bs → Dep p r b details) →
  P results →
  Benchmarker.for_providers str_of providers benchmark_names benchmarks_info l results
  = Ok results' →
  P results'.
Proof.
  revert results.
  induction l as [|[p rs] l IH]; intros results Hdep HP Hrun;
    cbn [Benchmarker.for_providers] in Hrun.
  - inversion Hrun; by subst.
  - assert (Hl : ∀ p0 rs0 r bs b details,
               (p0, JDict rs0) ∈ l → (r, JDict bs) ∈ rs0 → (b, details) ∈ bs →
               Dep p0 r b details)
      by (intros p0 rs0 r bs b details Hin; apply Hdep; by constructor).
    destruct (Benchmarker.skipped providers p) eqn:Hp; [by eapply IH|].
    destruct rs as [| | | | |rs]; try discriminate.
    cbn [Benchmarker.items] in Hrun. rewrite bind_ok in Hrun.
    destruct (Benchmarker.for_runtimes _ _ _ p rs results) as [results1|] eqn:H1;
      [|discriminate].
    rewrite bind_ok in Hrun.
    eapply IH; [exact Hl| |exact Hrun].
    eapply for_runtimes_inv; [exact Hp| |exact HP|exact H1].
    intros r bs b details. apply Hdep. by constructor.
Qed.

End Invariant.

(** A stored target stays stored. *)
Lemma add_target_keeps (p0 r0 b0 p r b : string) (t : Benchmarker.target)
    (results :
      list (string * list (string * list (string * Benchmarker.target)))) :
  is_Some (Benchmarker.lookup_target p0 r0 b0 results) →
  is_Some (Benchmarker.lookup_target p0 r0 b0 (Benchmarker.add_target p r b t results)).
Proof.
  intros H. rewrite lookup_add_target.
  by destruct (String.eqb p0 p && String.eqb r0 r && String.eqb b0 b)%bool.
Qed.

Lemma add_target_stored (p r b : string) (t : Benchmarker.target) (results :
      list (string * list (string * list (string * Benchmarker.target)))) :
  Benchmarker.lookup_target p r b (Benchmarker.add_target p r b t results) = Some t.
Proof. rewrite lookup_add_target. by rewrite !String.eqb_refl. Qed.

Lemma for_benchmarks_complete (p r : string) (l : list (string * JSON))
    (results results' :
      list (string * list (string * list (string * Benchmarker.target)))) :
  Benchmarker.skipped providers p = false →
  Benchmarker.for_benchmarks str_of benchmark_names benchmarks_info p r l results
  = Ok results' →
  ∀ b details, (b, details) ∈ l →
    Benchmarker.skipped benchmark_names b = false →
    is_Some (Benchmarker.info_lookup (JStr b) benchmarks_info) →
    is_Some (Benchmarker.lookup_target p r b results').
Proof.
  intros Hp. revert results.
  induction l as [|[b0 d0] l IH]; intros results Hrun b details Hin Hb Hi.
  - by apply elem_of_nil in Hin.
  - cbn [Benchmarker.for_benchmarks] in Hrun.
    apply elem_of_cons in Hin as [Heq|Hin].
    + inversion Heq; subst b0 d0. rewrite Hb in Hrun.
      destruct (getitem_json details "function_name") as [f|]; [|discriminate].
      destruct (getitem_json details "url") as [u|]; [|discriminate].
      rewrite !bind_ok in Hrun. destruct Hi as [info Hi]. rewrite Hi in Hrun.
      destruct (get (Benchmarker.info_request info) "method") as [m|]; [|discriminate].
      destruct (get (Benchmarker.info_request info) "body") as [bd|]; [|discriminate].
      rewrite !bind_ok in Hrun.
      eapply (for_benchmarks_inv (λ _ _ _ _, True)
                (λ res, is_Some (Benchmarker.lookup_target p r b res)));
        [| exact Hp | done | | exact Hrun].
      * intros. by apply add_target_keeps.
      * rewrite add_target_stored. by eexists.
    + destruct (Benchmarker.skipped benchmark_names b0); [by eapply IH|].
      destruct (getitem_json d0 "function_name") as [f|]; [|discriminate].
      destruct (getitem_json d0 "url") as [u|]; [|discriminate].
      rewrite !bind_ok in Hrun.
      destruct (Benchmarker.info_lookup (JStr b0) benchmarks_info) as [info|];
        [|by eapply IH].
      destruct (get (Benchmarker.info_request info) "method") as [m|]; [|discriminate].
      destruct (get (Benchmarker.info_request info) "body") as [bd|]; [|discriminate].
      rewrite !bind_ok in Hrun. by eapply IH.
Qed.

Lemma for_runtimes_complete (p : string) (l : list (string * JSON))
    (results results' :
      list (string * list (string * list (string * Benchmarker.target)))) :
  Benchmarker.skipped providers p = false →
  Benchmarker.for_runtimes str_of benchmark_names benchmarks_info p l results
  = Ok results' →
  ∀ r bs b details, (r, JDict bs) ∈ l → (b, details) ∈ bs →
    Benchmarker.skipped benchmark_names b = false →
    is_Some (Benchmarker.info_lookup (JStr b) benchmarks_info) →
    is_Some (Benchmarker.lookup_target p r b results').
Proof.
  intros Hp. revert results.
  induction l as [|[r0 bs0] l IH]; intros results Hrun r bs b details Hin Hbs Hb Hi.
  - by apply elem_of_nil in Hin.
  - cbn [Benchmarker.for_runtimes] in Hrun.
    destruct bs0 as [| | | | |bs0]; try discriminate.
    cbn [Benchmarker.items] in Hrun. rewrite bind_ok in Hrun.
    destruct (Benchmarker.for_benchmarks _ _ _ p r0 bs0 results) as [results1|] eqn:H1;
      [|discriminate].
    rewrite bind_ok in Hrun.
    apply elem_of_cons in Hin as [Heq|Hin]; [|by eapply IH].
    inversion Heq; subst r0 bs0.
    eapply (for_runtimes_inv (λ _ _ _ _, True)
              (λ res, is_Some (Benchmarker.lookup_target p r b res)));
      [| exact Hp | done | | exact Hrun].
    + intros. by apply add_target_keeps.
    + by eapply for_benchmarks_complete.
Qed.

Lemma for_providers_complete (l : list (string * JSON)) (results results' :
      list (string * list (string * list (string * Benchmarker.target)))) :
  Benchmarker.for_providers str_of providers benchmark_names benchmarks_info l results
  = Ok results' →
  ∀ p rs r bs b details,
    (p, JDict rs) ∈ l → (r, JDict bs) ∈ rs → (b, details) ∈ bs →
    Benchmarker.skipped providers p = false →
    Benchmarker.skipped benchmark_names b = false →
    is_Some (Benchmarker.info_lookup (JStr b) benchmarks_info) →
    is_Some (Benchmarker.lookup_target p r b results').
Proof.
  revert results.
  induction l as [|[p0 rs0] l IH];
    intros results Hrun p rs r bs b details Hin Hrs Hbs Hp Hb Hi.
  - by apply elem_of_nil in Hin.
  - cbn [Benchmarker.for_providers] in Hrun.
    apply elem_of_cons in Hin as [Heq|Hin].
    + inversion Heq; subst p0 rs0. rewrite Hp in Hrun.
      cbn [Benchmarker.items] in Hrun. rewrite bind_ok in Hrun.
      destruct (Benchmarker.for_runtimes _ _ _ p rs results) as [results1|] eqn:H1;
        [|discriminate].
      rewrite bind_ok in Hrun.
      eapply (for_providers_inv (λ _ _ _ _, True)
                (λ res, is_Some (Benchmarker.lookup_target p r b res)));
        [| done | | exact Hrun].
      * intros. by apply add_target_keeps.
      * by eapply for_runtimes_complete.
    + destruct (Benchmarker.skipped providers p0); [by eapply IH|].
      destruct rs0 as [| | | | |rs0]; try discriminate.
      cbn [Benchmarker.items] in Hrun. rewrite bind_ok in Hrun.
      destruct (Benchmarker.for_runtimes _ _ _ p0 rs0 results) as [results1|];
        [|discriminate].
      rewrite bind_ok in Hrun. by eapply IH.
Qed.

(** The loops over benchmarks that are all left out change nothing. *)
Lemma for_benchmarks_left_out (p r : string) (l : list (string * JSON))
    (results :
      list (string * list (string * list (string * Benchmarker.target)))) :
  (∀ b details, (b, details) ∈ l →
     SelectionSpec.left_out benchmark_names benchmarks_info b details) →
  Benchmarker.for_benchmarks str_of benchmark_names benchmarks_info p r l results
  = Ok results.
Proof.
  induction l as [|[b details] l IH]; intros Hall; [reflexivity|].
  cbn [Benchmarker.for_benchmarks].
  assert (Hl : Benchmarker.for_benchmarks str_of benchmark_names benchmarks_info
                 p r l results = Ok results)
    by (apply IH; intros; apply Hall; by constructor).
  destruct (Hall b details) as [Hno|([f Hf] & [u Hu] & Hi)]; [by constructor| |].
  - destruct (Benchmarker.skipped benchmark_names b) eqn:Hb; [exact Hl|].
    by apply skipped_false in Hb.
  - destruct (Benchmarker.skipped benchmark_names b); [exact Hl|].
    rewrite Hf, Hu, !bind_ok, Hi. exact Hl.
Qed.

Lemma for_runtimes_left_out (p : string) (l : list (string * JSON)) (results :
      list (string * list (string * list (string * Benchmarker.target)))) :
  (∀ r bs, (r, bs) ∈ l →
     ∃ l', bs = JDict l' ∧
       ∀ b details, (b, details) ∈ l' →
         SelectionSpec.left_out benchmark_names benchmarks_info b details) →
  Benchmarker.for_runtimes str_of benchmark_names benchmarks_info p l results
  = Ok results.
Proof.
  induction l as [|[r bs] l IH]; intros Hall; [reflexivity|].
  cbn [Benchmarker.for_runtimes].
  destruct (Hall r bs) as (l' & -> & Hl'); [by constructor|].
  cbn [Benchmarker.items]. rewrite bind_ok, (for_benchmarks_left_out p r l' results Hl').
  rewrite bind_ok. apply IH. intros r0 bs0 Hin. apply (Hall r0). by constructor.
Qed.

Lemma for_providers_left_out (l : list (string * JSON)) (results :
      list (string * list (string * list (string * Benchmarker.target)))) :
  (∀ p rs, (p, rs) ∈ l → SelectionSpec.lets_through providers p →
     ∃ l', rs = JDict l' ∧
       ∀ r bs, (r, bs) ∈ l' →
         ∃ l'', bs = JDict l'' ∧
           ∀ b details, (b, details) ∈ l'' →
             SelectionSpec.left_out benchmark_names benchmarks_info b details) →
  Benchmarker.for_providers str_of providers benchmark_names benchmarks_info l results
  = Ok results.
Proof.
  induction l as [|[p rs] l IH]; intros Hall; [reflexivity|].
  cbn [Benchmarker.for_providers].
  assert (Hl : Benchmarker.for_providers str_of providers benchmark_names
                 benchmarks_info l results = Ok results)
    by (apply IH; intros p0 rs0 Hin Hp0; apply (Hall p0); [by constructor|done]).
  destruct (Benchmarker.skipped providers p) eqn:Hp; [exact Hl|].
  apply skipped_false in Hp.
  destruct (Hall p rs) as (l' & -> & Hl'); [by constructor|exact Hp|].
  cbn [Benchmarker.items].
  by rewrite bind_ok, (for_runtimes_left_out p l' results Hl'), bind_ok.
Qed.

End Selection.

(** X29. What [__get_benchmark_data] returns, when it returns: the
    deployments are a dict; at least one target is stored; every stored
    target belongs to a deployed benchmark that both filters let through and
    that the configuration knows, and is made from the details of that
    deployment and the configuration's endpoint, request and memory; every
    such deployed benchmark has a stored target; and the providers of the
    warning are the requested ones without deployments. *)
Theorem get_benchmark_data_selects (str_of : JSON → string)
    (providers benchmark_names : list string)
    (benchmarks_info : list (JSON * Benchmarker.benchmark_info)) (deployments : JSON)
    (results : list (string * list (string * list (string * Benchmarker.target))))
    (warned : gset string) :
  Benchmarker.__get_benchmark_data str_of providers benchmark_names benchmarks_info
    deployments = Ok (results, warned) →
  (∃ ds, deployments = JDict ds ∧
         ∀ p, p ∈ warned ↔ p ∈ providers ∧ p ∉ ds.*1) ∧
  (∃ p r b t, Benchmarker.lookup_target p r b results = Some t) ∧
  (∀ p r b t, Benchmarker.lookup_target p r b results = Some t →
     SelectionSpec.lets_through providers p ∧
     SelectionSpec.lets_through benchmark_names b ∧
     ∃ details info,
       SelectionSpec.deployed deployments p r b details ∧
       Benchmarker.info_lookup (JStr b) benchmarks_info = Some info ∧
       SelectionSpec.made_from str_of details info t) ∧
  (∀ p r b details,
     SelectionSpec.deployed deployments p r b details →
     SelectionSpec.lets_through providers p →
     SelectionSpec.lets_through benchmark_names b →
     is_Some (Benchmarker.info_lookup (JStr b) benchmarks_info) →
     is_Some (Benchmarker.lookup_target p r b results)).
Proof.
  unfold Benchmarker.__get_benchmark_data. intros Hrun.
  destruct deployments as [| | | | |ds];
    try (destruct providers; cbn in Hrun; discriminate).
  assert (Hfor : Benchmarker.for_providers str_of providers benchmark_names
                   benchmarks_info ds [] = Ok results ∧ results ≠ [] ∧
                 warned = match providers with
                          | [] => ∅
                          | _ => list_to_set providers ∖ list_to_set ds.*1
                          end).
  { destruct providers as [|x l]; cbn [Benchmarker.items] in Hrun;
      rewrite ?bind_ok in Hrun;
      (destruct (Benchmarker.for_providers _ _ _ _ ds []) as [res|];
       [|discriminate]); rewrite bind_ok in Hrun;
      (destruct res as [|e res]; [discriminate|]); inversion Hrun; by subst. }
  destruct Hfor as (Hfor & Hne & Hw).
  split; [|split; [|split]].
  - exists ds. split; [reflexivity|]. intros p. rewrite Hw.
    destruct providers as [|x l].
    + split; [set_solver|]. intros [Hp _]. by apply elem_of_nil in Hp.
    + by rewrite elem_of_difference, !elem_of_list_to_set.
  - assert (H : results = [] ∨
                ∃ p r b t, Benchmarker.lookup_target p r b results = Some t).
    { eapply (for_providers_inv str_of providers benchmark_names benchmarks_info
                (λ _ _ _ _, True)
                (λ res, res = [] ∨
                        ∃ p r b t, Benchmarker.lookup_target p r b res = Some t));
        [| done | by left | exact Hfor].
      intros res p r b details info t _ _ _ _ _ _. right.
      exists p, r, b, t. apply add_target_stored. }
    by destruct H.
  - eapply (for_providers_inv str_of providers benchmark_names benchmarks_info
              (SelectionSpec.deployed (JDict ds))
              (λ res, ∀ p r b t, Benchmarker.lookup_target p r b res = Some t →
                 SelectionSpec.lets_through providers p ∧
                 SelectionSpec.lets_through benchmark_names b ∧
                 ∃ details info,
                   SelectionSpec.deployed (JDict ds) p r b details ∧
                   Benchmarker.info_lookup (JStr b) benchmarks_info = Some info ∧
                   SelectionSpec.made_from str_of details info t));
      [| | | exact Hfor].
    + intros res p r b details info t Hdep Hp Hb Hi Hmade Hres p0 r0 b0 t0.
      rewrite lookup_add_target.
      destruct (String.eqb_spec p0 p) as [->|]; [|by apply Hres].
      destruct (String.eqb_spec r0 r) as [->|]; [|by apply Hres].
      destruct (String.eqb_spec b0 b) as [->|]; [|by apply Hres].
      cbn [andb]. intros [= <-].
      split; [by apply skipped_false|]. split; [by apply skipped_false|].
      by exists details, info.
    + intros p rs r bs b details H1 H2 H3. by exists ds, rs, bs.
    + intros p r b t Hlook. discriminate Hlook.
  - intros p r b details (ds' & rs & bs & Heq & H1 & H2 & H3) Hp Hb Hi.
    inversion Heq; subst ds'.
    eapply (for_providers_complete str_of providers benchmark_names benchmarks_info);
      [exact Hfor|exact H1|exact H2|exact H3| | |exact Hi]; by apply skipped_false.
Qed.

Lemma get_benchmark_data_selects_witness :
  is_Some (Benchmarker.lookup_target "aws" "jvm" "echo"
             [("aws", [("jvm", [("echo",
                 Benchmarker.mkTarget (JStr "sb-echo") "https://f.example/echo"
                   (JStr "POST") JNull (JList [JNum 512]))])])]).
Proof.
  destruct (get_benchmark_data_selects (λ _, "") ["aws"; "gcp"] ["echo"]
              [(JStr "echo",
                Benchmarker.mkInfo (JStr "/echo") (JDict [("method", JStr "POST")])
                  (JList [JNum 512]))]
              (JDict [("aws", JDict [("jvm", JDict
                 [("echo", JDict [("function_name", JStr "sb-echo");
                                  ("url", JStr "https://f.example")]);
                  ("other", JDict [])])]);
                      ("azure", JDict [])])
              [("aws", [("jvm", [("echo",
                  Benchmarker.mkTarget (JStr "sb-echo") "https://f.example/echo"
                    (JStr "POST") JNull (JList [JNum 512]))])])]
              (list_to_set ["aws"; "gcp"] ∖ list_to_set ["aws"; "azure"]))
    as (_ & _ & _ & Hcomplete).
  - reflexivity.
  - apply (Hcomplete "aws" "jvm" "echo"
             (JDict [("function_name", JStr "sb-echo");
                     ("url", JStr "https://f.example")])).
    + eexists _, _, _. split; [reflexivity|].
      split; [by constructor|]. split; by constructor.
    + right. by constructor.
    + right. by constructor.
    + by eexists.
Defined.

(** X30. [__get_benchmark_data] ends the program with exit status -1
    when nothing is selected: the deployments are a dict, possibly empty, and
    every provider that the filter lets through has, under each of its
    runtimes, only benchmarks that are left out (rejected by the filter of
    names, or complete but unknown to the configuration). *)
Theorem get_benchmark_data_nothing_selected (str_of : JSON → string)
    (providers benchmark_names : list string)
    (benchmarks_info : list (JSON * Benchmarker.benchmark_info))
    (ds : list (string * JSON)) :
  (∀ p rs, (p, rs) ∈ ds → SelectionSpec.lets_through providers p →
     ∃ l, rs = JDict l ∧
       ∀ r bs, (r, bs) ∈ l →
         ∃ l', bs = JDict l' ∧
           ∀ b details, (b, details) ∈ l' →
             SelectionSpec.left_out benchmark_names benchmarks_info b details) →
  Benchmarker.__get_benchmark_data str_of providers benchmark_names benchmarks_info
    (JDict ds) = Raise (SystemExit (-1)).
Proof.
  intros Hall. unfold Benchmarker.__get_benchmark_data.
  destruct providers as [|x l]; cbn [Benchmarker.items]; rewrite !bind_ok;
    by rewrite (for_providers_left_out str_of _ benchmark_names benchmarks_info ds []
                  Hall).
Qed.

Lemma get_benchmark_data_nothing_selected_witness :
  Benchmarker.__get_benchmark_data (λ _, "") ["gcp"] ["echo"]
    [(JStr "echo", Benchmarker.mkInfo (JStr "/echo") JNull JNull)]
    (JDict [("aws", JStr "not a dict");
            ("gcp", JDict [("jvm", JDict
               [("other", JNull);
                ("echo2", JDict [])])])])
  = Raise (SystemExit (-1)).
Proof.
  apply get_benchmark_data_nothing_selected.
  intros p rs Hin Hp.
  assert (Hgcp : p = "gcp").
  { destruct Hp as [Hp|Hp]; [discriminate|]. by apply list_elem_of_singleton in Hp. }
  subst p.
  assert (Hrs : rs = JDict [("jvm", JDict [("other", JNull); ("echo2", JDict [])])]).
  { apply elem_of_cons in Hin as [Heq|Hin]; [discriminate|].
    apply list_elem_of_singleton in Hin. by inversion Hin. }
  subst rs. eexists. split; [reflexivity|].
  intros r bs Hr. apply list_elem_of_singleton in Hr. inversion Hr; subst.
  eexists. split; [reflexivity|].
  intros b details Hb. left. intros [Hno|Hno]; [discriminate|].
  apply list_elem_of_singleton in Hno. subst b.
  apply elem_of_cons in Hb as [Heq|Hb]; [discriminate|].
  apply list_elem_of_singleton in Hb. discriminate.
Defined.
